(** * NAASH (src/index.ts): suggestion engine, line overlay, execution
      engine and command log, as a shallow embedding.

    Strings.  A JavaScript string is a sequence of UTF-16 code units.  The
    model uses [string] of the Standard Library, whose characters are the
    code units below 256 (ASCII and Latin-1).  On those code units
    [toLowerCase], [trim], [startsWith], [slice], [split] and [join] are
    the functions below, character by character as ECMA-262 defines them.
    (Message literals that hold other glyphs are kept as written; no
    string function of the program inspects them.)  Text from the
    clipboard may hold any code unit: module [Wide] has the string
    functions of the overlay for it. *)

From Stdlib Require Import String Ascii List Bool Arith ZArith Lia.
From Stdlib Require Import DecimalString DecimalFacts DecimalPos DecimalZ.
Import ListNotations.
Open Scope list_scope.
Open Scope string_scope.

(** ** JavaScript string primitives used by the program *)
Module JsString.

(** [String.prototype.toLowerCase] on one code unit below 256:
    A-Z and the Latin-1 capitals U+00C0..U+00DE (without the sign U+00D7)
    move up by 32; every other code unit is its own lower case. *)
Definition lowerChar (c : ascii) : ascii :=
  let n := nat_of_ascii c in
  if ((65 <=? n) && (n <=? 90)
      || (192 <=? n) && (n <=? 222) && negb (n =? 215))%nat
  then ascii_of_nat (n + 32) else c.

Fixpoint toLowerCase (s : string) : string :=
  match s with
  | EmptyString => EmptyString
  | String c r => String (lowerChar c) (toLowerCase r)
  end.

(** [s.startsWith(p)] *)
Definition startsWith (s p : string) : bool := String.prefix p s.

(** [s.slice(b, e)] for non-negative indices: both are clipped to the
    length, and the result is empty when [e <= b]. *)
Definition slice (s : string) (b e : nat) : string := substring b (e - b) s.

(** [s.slice(b)]: from index [b] to the end. *)
Definition sliceFrom (s : string) (b : nat) : string :=
  substring b (String.length s - b) s.

(** White space and line terminators of ECMA-262 among the code units
    below 256: TAB, LF, VT, FF, CR, SP and NBSP. *)
Definition isWhiteSpace (c : ascii) : bool :=
  let n := nat_of_ascii c in
  ((9 <=? n) && (n <=? 13) || (n =? 32) || (n =? 160))%nat.

Fixpoint trimStart (s : string) : string :=
  match s with
  | EmptyString => EmptyString
  | String c r => if isWhiteSpace c then trimStart r else s
  end.

Fixpoint trimEnd (s : string) : string :=
  match s with
  | EmptyString => EmptyString
  | String c r =>
      match trimEnd r with
      | EmptyString => if isWhiteSpace c then EmptyString else String c EmptyString
      | t => String c t
      end
  end.

(** [s.trim()] *)
Definition trim (s : string) : string := trimEnd (trimStart s).

(** A string is truthy when it is not empty. *)
Definition truthy (s : string) : bool :=
  match s with EmptyString => false | _ => true end.

(** [s.split(" ")] as the pair (first piece, other pieces): the result
    of [split] is never empty, so the pattern [[cmd, ...args]] always
    binds [cmd] to a string. *)
Fixpoint splitSpace (s : string) : string * list string :=
  match s with
  | EmptyString => (EmptyString, [])
  | String c r =>
      let (h, t) := splitSpace r in
      if Ascii.eqb c " " then (EmptyString, h :: t) else (String c h, t)
  end.

(** [l.join(" ")] *)
Definition joinSpace (l : list string) : string := String.concat " " l.

(** [l.findLast(p)]: the elements are visited from the last index down
    and the first one that satisfies [p] is returned; [None] stands for
    [undefined]. *)
Definition findLast (p : string -> bool) (l : list string) : option string :=
  List.find p (List.rev l).

(** [v || ""] for [v] a string or [undefined]. *)
Definition orEmpty (v : option string) : string :=
  match v with
  | Some s => s
  | None => EmptyString
  end.

(** A string all of whose characters are white space (the empty string
    included). *)
Fixpoint blank (s : string) : bool :=
  match s with
  | EmptyString => true
  | String c r => isWhiteSpace c && blank r
  end.

End JsString.

Import JsString.

(** ** JSON text, as [JSON.stringify] writes and [JSON.parse] reads it

    [JSON.stringify] and [JSON.parse] are primitives of the runtime; they
    are modelled after ECMA-262 (sections 25.5.1 and 25.5.2) and ECMA-404
    on the values a command log is made of: objects, arrays, strings
    and integers (an exit code), and the three literals.  Numbers with a
    fraction or an exponent and [\u] escapes above U+00FF lie outside the
    model and are read as a syntax error. *)
Module Json.

#[local] Set Warnings "-register-all".
Inductive value : Type :=
| JNull
| JBool (b : bool)
| JNum (z : Z)
| JStr (s : string)
| JArr (l : list value)
| JObj (l : list (string * value)).

Definition dquote : ascii := Eval cbv in ascii_of_nat 34.
Definition backslash : ascii := Eval cbv in ascii_of_nat 92.

Definition hexDigit (n : nat) : ascii :=
  if (n <? 10)%nat then ascii_of_nat (48 + n) else ascii_of_nat (87 + n).

(** QuoteJSONString on one code unit: the two-character escapes,
    [\u00xx] (lower-case digits) for the other control characters, and
    the character itself otherwise. *)
Definition quoteChar (c : ascii) : string :=
  let n := nat_of_ascii c in
  let esc (e : ascii) := String backslash (String e EmptyString) in
  if (n =? 8)%nat then esc "b"%char
  else if (n =? 9)%nat then esc "t"%char
  else if (n =? 10)%nat then esc "n"%char
  else if (n =? 12)%nat then esc "f"%char
  else if (n =? 13)%nat then esc "r"%char
  else if (n =? 34)%nat then esc dquote
  else if (n =? 92)%nat then esc backslash
  else if (n <? 32)%nat then
    String backslash
      (String "u" (String "0" (String "0"
        (String (hexDigit (n / 16)) (String (hexDigit (n mod 16)) EmptyString)))))
  else String c EmptyString.

Fixpoint quoteBody (s : string) : string :=
  match s with
  | EmptyString => EmptyString
  | String c r => quoteChar c ++ quoteBody r
  end.

Definition quote (s : string) : string :=
  String dquote (quoteBody s ++ String dquote EmptyString).

(** An integer in decimal, with a minus sign when negative. *)
Definition printZ (z : Z) : string := NilZero.string_of_int (Z.to_int z).

Fixpoint commaSep (l : list string) : string :=
  match l with
  | [] => EmptyString
  | [x] => x
  | x :: r => x ++ "," ++ commaSep r
  end.

(** [JSON.stringify(v)] with no indentation. *)
Fixpoint stringify (v : value) : string :=
  match v with
  | JNull => "null"
  | JBool true => "true"
  | JBool false => "false"
  | JNum z => printZ z
  | JStr s => quote s
  | JArr l => "[" ++ commaSep (List.map stringify l) ++ "]"
  | JObj l =>
      "{" ++ commaSep (List.map (fun kv : string * value =>
                         let (k, x) := kv in quote k ++ ":" ++ stringify x) l)
          ++ "}"
  end.

(** *** Reading *)

Definition isWs (c : ascii) : bool :=
  let n := nat_of_ascii c in
  ((n =? 32) || (n =? 9) || (n =? 10) || (n =? 13))%nat.

Fixpoint skipWs (s : string) : string :=
  match s with
  | EmptyString => EmptyString
  | String c r => if isWs c then skipWs r else s
  end.

Fixpoint stripPrefix (p s : string) : option string :=
  match p, s with
  | EmptyString, _ => Some s
  | String a p', String b s' => if Ascii.eqb a b then stripPrefix p' s' else None
  | String _ _, EmptyString => None
  end.

Definition hexValue (c : ascii) : option nat :=
  let n := nat_of_ascii c in
  if ((48 <=? n) && (n <=? 57))%nat then Some (n - 48)
  else if ((97 <=? n) && (n <=? 102))%nat then Some (n - 87)
  else if ((65 <=? n) && (n <=? 70))%nat then Some (n - 55)
  else None.

(** The character an escape letter stands for. *)
Definition unescape (e : ascii) : option ascii :=
  if Ascii.eqb e dquote then Some dquote
  else if Ascii.eqb e backslash then Some backslash
  else if Ascii.eqb e "/" then Some "/"%char
  else if Ascii.eqb e "b" then Some (ascii_of_nat 8)
  else if Ascii.eqb e "f" then Some (ascii_of_nat 12)
  else if Ascii.eqb e "n" then Some (ascii_of_nat 10)
  else if Ascii.eqb e "r" then Some (ascii_of_nat 13)
  else if Ascii.eqb e "t" then Some (ascii_of_nat 9)
  else None.

Definition hex4 (a b c d : ascii) : option nat :=
  match hexValue a, hexValue b, hexValue c, hexValue d with
  | Some x, Some y, Some z, Some w => Some (((x * 16 + y) * 16 + z) * 16 + w)
  | _, _, _, _ => None
  end.

(** The characters of a string literal after its opening quote, up to
    and including the closing quote: the decoded string and what
    follows the literal. *)
Fixpoint parseChars (s : string) : option (string * string) :=
  let cons (c : ascii) (r : option (string * string)) :=
    match r with
    | Some (t, rest) => Some (String c t, rest)
    | None => None
    end in
  match s with
  | EmptyString => None
  | String c r =>
      if Ascii.eqb c dquote then Some (EmptyString, r)
      else if Ascii.eqb c backslash then
        match r with
        | String e r1 =>
            if Ascii.eqb e "u" then
              match r1 with
              | String h1 (String h2 (String h3 (String h4 r2))) =>
                  match hex4 h1 h2 h3 h4 with
                  | Some n =>
                      if (n <? 256)%nat then cons (ascii_of_nat n) (parseChars r2)
                      else None
                  | None => None
                  end
              | _ => None
              end
            else
              match unescape e with
              | Some x => cons x (parseChars r1)
              | None => None
              end
        | EmptyString => None
        end
      else if (nat_of_ascii c <? 32)%nat then None
      else cons c (parseChars r)
  end.

Definition digitOf (c : ascii) : option (Decimal.uint -> Decimal.uint) :=
  let n := nat_of_ascii c in
  if (n =? 48)%nat then Some Decimal.D0
  else if (n =? 49)%nat then Some Decimal.D1
  else if (n =? 50)%nat then Some Decimal.D2
  else if (n =? 51)%nat then Some Decimal.D3
  else if (n =? 52)%nat then Some Decimal.D4
  else if (n =? 53)%nat then Some Decimal.D5
  else if (n =? 54)%nat then Some Decimal.D6
  else if (n =? 55)%nat then Some Decimal.D7
  else if (n =? 56)%nat then Some Decimal.D8
  else if (n =? 57)%nat then Some Decimal.D9
  else None.

(** The longest run of decimal digits a string starts with. *)
Fixpoint takeDigits (s : string) : Decimal.uint * string :=
  match s with
  | EmptyString => (Decimal.Nil, EmptyString)
  | String c r =>
      match digitOf c with
      | Some d => let (u, rest) := takeDigits r in (d u, rest)
      | None => (Decimal.Nil, s)
      end
  end.

(** After an integer, a fraction or an exponent would follow here. *)
Definition startsFraction (s : string) : bool :=
  match s with
  | String c _ => Ascii.eqb c "." || Ascii.eqb c "e" || Ascii.eqb c "E"
  | EmptyString => false
  end.

(** The digits of a JSON integer: [0], or a run that starts with a
    non-zero digit. *)
Definition wellFormedDigits (u : Decimal.uint) : bool :=
  match u with
  | Decimal.Nil => false
  | Decimal.D0 Decimal.Nil => true
  | Decimal.D0 _ => false
  | _ => true
  end.

Definition parseNumber (s : string) : option (Z * string) :=
  let (neg, body) :=
    match s with
    | String c r => if Ascii.eqb c "-" then (true, r) else (false, s)
    | EmptyString => (false, s)
    end in
  let (u, rest) := takeDigits body in
  if wellFormedDigits u && negb (startsFraction rest) then
    Some (Z.of_int (if neg then Decimal.Neg u else Decimal.Pos u), rest)
  else None.

(** Defining a property of an object under construction: a later
    member with the same name replaces the value of the earlier one. *)
Fixpoint setField (k : string) (v : value) (o : list (string * value))
  : list (string * value) :=
  match o with
  | [] => [(k, v)]
  | (k', v') :: t =>
      if String.eqb k' k then (k', v) :: t else (k', v') :: setField k v t
  end.

Definition mkObject (members : list (string * value)) : list (string * value) :=
  List.fold_left (fun o kv => setField (fst kv) (snd kv) o) members [].

(** Recursive descent over the JSON grammar.  [fuel] bounds the number
    of nested calls; [parse] below supplies more than any text needs. *)
Fixpoint parseValue (fuel : nat) (s : string) : option (value * string) :=
  match fuel with
  | O => None
  | S f =>
      match skipWs s with
      | EmptyString => None
      | String c r as s1 =>
          if Ascii.eqb c "n" then
            option_map (fun rest => (JNull, rest)) (stripPrefix "null" s1)
          else if Ascii.eqb c "t" then
            option_map (fun rest => (JBool true, rest)) (stripPrefix "true" s1)
          else if Ascii.eqb c "f" then
            option_map (fun rest => (JBool false, rest)) (stripPrefix "false" s1)
          else if Ascii.eqb c dquote then
            option_map (fun tr : string * string => (JStr (fst tr), snd tr))
                       (parseChars r)
          else if Ascii.eqb c "[" then
            match skipWs r with
            | String c' r' =>
                if Ascii.eqb c' "]" then Some (JArr [], r')
                else option_map (fun lr : list value * string =>
                                   (JArr (fst lr), snd lr)) (parseElements f r)
            | EmptyString => None
            end
          else if Ascii.eqb c "{" then
            match skipWs r with
            | String c' r' =>
                if Ascii.eqb c' "}" then Some (JObj [], r')
                else option_map (fun lr : list (string * value) * string =>
                                   (JObj (mkObject (fst lr)), snd lr))
                                (parseMembers f r)
            | EmptyString => None
            end
          else
            option_map (fun zr : Z * string => (JNum (fst zr), snd zr))
                       (parseNumber s1)
      end
  end

with parseElements (fuel : nat) (s : string) : option (list value * string) :=
  match fuel with
  | O => None
  | S f =>
      match parseValue f s with
      | Some (v, r) =>
          match skipWs r with
          | String c r' =>
              if Ascii.eqb c "," then
                option_map (fun lr : list value * string => (v :: fst lr, snd lr))
                           (parseElements f r')
              else if Ascii.eqb c "]" then Some ([v], r')
              else None
          | EmptyString => None
          end
      | None => None
      end
  end

with parseMembers (fuel : nat) (s : string)
  : option (list (string * value) * string) :=
  match fuel with
  | O => None
  | S f =>
      match skipWs s with
      | String q r0 =>
          if Ascii.eqb q dquote then
            match parseChars r0 with
            | Some (k, r1) =>
                match skipWs r1 with
                | String colon r2 =>
                    if Ascii.eqb colon ":" then
                      match parseValue f r2 with
                      | Some (v, r3) =>
                          match skipWs r3 with
                          | String c r4 =>
                              if Ascii.eqb c "," then
                                option_map
                                  (fun lr : list (string * value) * string =>
                                     ((k, v) :: fst lr, snd lr))
                                  (parseMembers f r4)
                              else if Ascii.eqb c "}" then Some ([(k, v)], r4)
                              else None
                          | EmptyString => None
                          end
                      | None => None
                      end
                    else None
                | EmptyString => None
                end
            | None => None
            end
          else None
      | EmptyString => None
      end
  end.

(** What [JSON.parse] gives back for the text of [v]: the same value,
    except that an object which names a property twice keeps one
    property of that name, with the last value. *)
Fixpoint reread (v : value) : value :=
  match v with
  | JArr l => JArr (List.map reread l)
  | JObj l =>
      JObj (mkObject (List.map (fun kv : string * value =>
                                  (fst kv, reread (snd kv))) l))
  | _ => v
  end.

(** Fuel that suffices to read the text of [v]. *)
Fixpoint need (v : value) : nat :=
  match v with
  | JArr l => S (List.list_sum (List.map (fun x => S (need x)) l))
  | JObj l =>
      S (List.list_sum (List.map (fun kv : string * value => S (need (snd kv))) l))
  | _ => 1
  end.

(** What may follow a value inside a text: the end, a comma or a
    closing bracket. *)
Definition delimited (rest : string) : Prop :=
  match rest with
  | EmptyString => True
  | String c _ => c = ","%char \/ c = "]"%char \/ c = "}"%char
  end.

Definition noDigitAhead (rest : string) : Prop :=
  match rest with
  | EmptyString => True
  | String c _ => digitOf c = None
  end.

(** Reading the text of [v] with enough fuel gives [v] back and stops
    where the text stops. *)
Definition readsBack (v : value) : Prop :=
  forall (fuel : nat) (rest : string),
    (need v <= fuel)%nat -> delimited rest ->
    parseValue fuel (stringify v ++ rest) = Some (reread v, rest).

(** The text of one member of an object. *)
Definition memberText (kv : string * value) : string :=
  quote (fst kv) ++ ":" ++ stringify (snd kv).

(** [JSON.parse(text)]: one value, with nothing but white space after
    it; [None] stands for the SyntaxError it throws. *)
Definition parse (text : string) : option value :=
  match parseValue (S (String.length text)) text with
  | Some (v, rest) =>
      match skipWs rest with
      | EmptyString => Some v
      | String _ _ => None
      end
  | None => None
  end.

End Json.

Import Json.

(** ** Data model *)

(** A command log entry.  types.ts is not among the sources; the shape
    is the one [logInit] builds (src/index.ts, 430-454). *)
Module Log.

Record commandInfo : Type := mkCommand {
  raw : string;
  executable : string;
  arguments : list string;
  cwd : string
}.

Record outputInfo : Type := mkOutput {
  stderr : string;
  exitCode : Z;
  error : option string   (* [error?: string]: absent until a launch fails *)
}.

Record metadataInfo : Type := mkMetadata {
  user : string;
  platform : string;
  shell : string
}.

Record t : Type := mkEntry {
  id : string;
  timestamp : string;
  command : commandInfo;
  output : outputInfo;
  metadata : metadataInfo
}.

Definition setStderr (v : string) (e : t) : t :=
  mkEntry (id e) (timestamp e) (command e)
          (mkOutput v (exitCode (output e)) (error (output e))) (metadata e).
Definition setExitCode (v : Z) (e : t) : t :=
  mkEntry (id e) (timestamp e) (command e)
          (mkOutput (stderr (output e)) v (error (output e))) (metadata e).
Definition setError (v : string) (e : t) : t :=
  mkEntry (id e) (timestamp e) (command e)
          (mkOutput (stderr (output e)) (exitCode (output e)) (Some v)) (metadata e).

(** The entry as a JavaScript value, its properties in creation order;
    a property that was never assigned does not exist. *)
Definition toValue (e : t) : value :=
  JObj [ ("id", JStr (id e));
         ("timestamp", JStr (timestamp e));
         ("command",
          JObj [ ("raw", JStr (raw (command e)));
                 ("executable", JStr (executable (command e)));
                 ("arguments", JArr (List.map JStr (arguments (command e))));
                 ("cwd", JStr (cwd (command e))) ]);
         ("output",
          JObj (("stderr", JStr (stderr (output e)))
                :: ("exitCode", JNum (exitCode (output e)))
                :: match error (output e) with
                   | Some m => [("error", JStr m)]
                   | None => []
                   end));
         ("metadata",
          JObj [ ("user", JStr (user (metadata e)));
                 ("platform", JStr (platform (metadata e)));
                 ("shell", JStr (shell (metadata e))) ]) ].

End Log.

Inductive Model : Type := gemini | openAi.

(** A file of the home directory as the program sees it. *)
Inductive File : Type :=
| Absent
| Unreadable (why : string)   (* it exists and reading it throws [why] *)
| Content (data : string).

Definition existsSync (f : File) : bool :=
  match f with Absent => false | _ => true end.

(** The module-level variables of index.ts, the fields of [rl] the
    program reads and writes, and the three files it keeps. *)
Record Shell : Type := mkShell {
  line : string  (* rl.line: the authoritative line buffer *);
  cursor : nat  (* rl.cursor *);
  currentSuggestion : string;
  bypassRlLine : bool;
  suggestionAccepted : bool;
  currentSessionCommands : list string;
  historicalCommands : list string;
  defaultModel : Model;
  entries : list Log.t  (* the log-entry objects created so far; an object is named by its index *);
  commandLog : list nat  (* the array commandLog: references to entry objects *);
  historyFile : list string  (* ~/.t_history, line by line *);
  errorFile : File  (* ~/.t_error *);
  keyFile : File  (* ~/.t.env *)
}.

Definition set_line (v : string) (s : Shell) : Shell :=
  mkShell v (cursor s) (currentSuggestion s) (bypassRlLine s)
    (suggestionAccepted s) (currentSessionCommands s) (historicalCommands s)
    (defaultModel s) (entries s) (commandLog s) (historyFile s)
    (errorFile s) (keyFile s).
Definition set_cursor (v : nat) (s : Shell) : Shell :=
  mkShell (line s) v (currentSuggestion s) (bypassRlLine s)
    (suggestionAccepted s) (currentSessionCommands s) (historicalCommands s)
    (defaultModel s) (entries s) (commandLog s) (historyFile s)
    (errorFile s) (keyFile s).
Definition set_currentSuggestion (v : string) (s : Shell) : Shell :=
  mkShell (line s) (cursor s) v (bypassRlLine s) (suggestionAccepted s)
    (currentSessionCommands s) (historicalCommands s) (defaultModel s)
    (entries s) (commandLog s) (historyFile s) (errorFile s) (keyFile s).
Definition set_bypassRlLine (v : bool) (s : Shell) : Shell :=
  mkShell (line s) (cursor s) (currentSuggestion s) v (suggestionAccepted s)
    (currentSessionCommands s) (historicalCommands s) (defaultModel s)
    (entries s) (commandLog s) (historyFile s) (errorFile s) (keyFile s).
Definition set_suggestionAccepted (v : bool) (s : Shell) : Shell :=
  mkShell (line s) (cursor s) (currentSuggestion s) (bypassRlLine s) v
    (currentSessionCommands s) (historicalCommands s) (defaultModel s)
    (entries s) (commandLog s) (historyFile s) (errorFile s) (keyFile s).
Definition set_currentSessionCommands (v : list string) (s : Shell) : Shell :=
  mkShell (line s) (cursor s) (currentSuggestion s) (bypassRlLine s)
    (suggestionAccepted s) v (historicalCommands s) (defaultModel s)
    (entries s) (commandLog s) (historyFile s) (errorFile s) (keyFile s).
Definition set_historicalCommands (v : list string) (s : Shell) : Shell :=
  mkShell (line s) (cursor s) (currentSuggestion s) (bypassRlLine s)
    (suggestionAccepted s) (currentSessionCommands s) v (defaultModel s)
    (entries s) (commandLog s) (historyFile s) (errorFile s) (keyFile s).
Definition set_defaultModel (v : Model) (s : Shell) : Shell :=
  mkShell (line s) (cursor s) (currentSuggestion s) (bypassRlLine s)
    (suggestionAccepted s) (currentSessionCommands s) (historicalCommands s)
    v (entries s) (commandLog s) (historyFile s) (errorFile s) (keyFile s).
Definition set_entries (v : list Log.t) (s : Shell) : Shell :=
  mkShell (line s) (cursor s) (currentSuggestion s) (bypassRlLine s)
    (suggestionAccepted s) (currentSessionCommands s) (historicalCommands s)
    (defaultModel s) v (commandLog s) (historyFile s) (errorFile s)
    (keyFile s).
Definition set_commandLog (v : list nat) (s : Shell) : Shell :=
  mkShell (line s) (cursor s) (currentSuggestion s) (bypassRlLine s)
    (suggestionAccepted s) (currentSessionCommands s) (historicalCommands s)
    (defaultModel s) (entries s) v (historyFile s) (errorFile s) (keyFile s).
Definition set_historyFile (v : list string) (s : Shell) : Shell :=
  mkShell (line s) (cursor s) (currentSuggestion s) (bypassRlLine s)
    (suggestionAccepted s) (currentSessionCommands s) (historicalCommands s)
    (defaultModel s) (entries s) (commandLog s) v (errorFile s) (keyFile s).
Definition set_errorFile (v : File) (s : Shell) : Shell :=
  mkShell (line s) (cursor s) (currentSuggestion s) (bypassRlLine s)
    (suggestionAccepted s) (currentSessionCommands s) (historicalCommands s)
    (defaultModel s) (entries s) (commandLog s) (historyFile s) v
    (keyFile s).
Definition set_keyFile (v : File) (s : Shell) : Shell :=
  mkShell (line s) (cursor s) (currentSuggestion s) (bypassRlLine s)
    (suggestionAccepted s) (currentSessionCommands s) (historicalCommands s)
    (defaultModel s) (entries s) (commandLog s) (historyFile s)
    (errorFile s) v.

(** A thrown value, by what the program reads of it: its string form
    (what a template literal makes of it, that is its [toString()]) and
    its [message].  The string form is the object's own business:
    [Error.prototype.toString] joins name and message, the errors the
    runtime creates put their code in between, so both are given. *)
Record JsError : Type := mkError { errString : string; errMessage : string }.

(** [`${err}`] *)
Definition errToString (e : JsError) : string := errString e.

(** What the handlers do to the outside, in program order. *)
Inductive Event : Type :=
| StdoutWrite (text : string)          (* process.stdout.write *)
| CursorTo (column : nat)              (* process.stdout.cursorTo *)
| OriginalRefreshLine                  (* readline's own _refreshLine *)
| ConsoleLog (text : string)
| ConsoleError (text : string)
| ConsoleErrorWith (text : string) (err : JsError)  (* console.error(text, err) *)
| Prompt (text : string)               (* prompt(): rl.question(formatPrompt(), runShellCommand) *)
| AskApiKey (text : string)            (* the rl.question of checkKey *)
| RlClose                              (* rl.close() *)
| ClipboardWrite (text : string)       (* clipboard.writeSync *)
| SpinnerStart (text : string)
| SpinnerStop
| ShowHistory                          (* util: showHistory() *)
| ChangeDirectory (command : string)   (* util: changeDirectory(command) *)
| CatFile (command : string)           (* util: catFile(command) *)
| SaveToHistory (command : string)     (* util: saveToHistory(command) *)
| SaveOutputToFile (log : list Log.t)  (* util: saveOutputToFile(commandLog) *)
| Spawn (cmd : string) (args : list string) (cwd : string).

(** What the outside answers while one handler runs: the helpers and
    collaborators whose code is not part of index.ts, and the process
    environment.  A handler is followed from its call to its end; where
    it awaits a collaborator or the user, the answer is the one the world
    holds.  The runs described are those in which the awaited calls
    resolve: index.ts catches nothing around them, so a provider that
    rejects ends the handler at that [await]. *)
Record World : Type := mkWorld {
  formatPrompt : string;                          (* util: formatPrompt() *)
  getErrorMessageFace : string;                   (* util: getErrorMessageFace() *)
  apiKeyAnswer : string;                          (* the line typed at the key question *)
  apiKeyWriteError : option JsError;              (* writeFileSync of the key file throws,
                                                     before it has created the file *)
  generateCommandForHm : string;                  (* gemini.ts *)
  generateCommandForHp : string -> string;
  betterMan : string -> string;
  generateCommandForHmOpenAi : string;            (* openai.ts *)
  generateCommandForHpOpenAi : string -> string;
  betterManOpenAi : string -> string;
  generateId : string;
  nowISOString : string;                          (* new Date().toISOString() *)
  processCwd : string;
  username : string;                              (* os.userInfo().username *)
  processPlatform : string;
  envSHELL : option string;                       (* process.env.SHELL *)
  spawnThrows : option JsError                    (* spawn itself throws *)
}.

(** The child-process events the execution engine listens to. *)
Inductive ChildEvent : Type :=
| StderrData (data : string)
| ErrorEvent (err : JsError)
| CloseEvent (code : option Z).   (* [None] is the [null] of a child killed by a signal *)

(** ** Handlers run in a state-and-trace monad *)

Definition M (A : Type) : Type := Shell -> A * Shell * list Event.

Definition ret {A : Type} (a : A) : M A := fun s => (a, s, []).

Definition bind {A B : Type} (m : M A) (k : A -> M B) : M B :=
  fun s =>
    let '(a, s1, t1) := m s in
    let '(b, s2, t2) := k a s1 in
    (b, s2, (t1 ++ t2)%list).

Definition get : M Shell := fun s => (s, s, []).
Definition modify (f : Shell -> Shell) : M unit := fun s => (tt, f s, []).
Definition emit (e : Event) : M unit := fun s => (tt, s, [e]).

(** The state and the trace a computation ends with. *)
Definition stateOf {A : Type} (r : A * Shell * list Event) : Shell := snd (fst r).
Definition traceOf {A : Type} (r : A * Shell * list Event) : list Event := snd r.
Definition valueOf {A : Type} (r : A * Shell * list Event) : A := fst (fst r).

Declare Scope shell_scope.
Delimit Scope shell_scope with shell.
Notation "x <- m ;; k" := (bind m (fun x => k))
  (at level 61, m at next level, right associativity) : shell_scope.
Notation "m ;; k" := (bind m (fun _ => k))
  (at level 61, right associativity) : shell_scope.
Open Scope shell_scope.

(** ** The program *)
Section Program.

(** Pure functions of the libraries the program imports. *)
Variable stripAnsi : string -> string.        (* strip-ansi *)
Variable chalkRed : string -> string.         (* chalk.red *)
Variable chalkGreen : string -> string.       (* chalk.green *)
Variable syntaxErrorText : string -> string.  (* the SyntaxError JSON.parse throws, as text *)

Definition ESC : ascii := Eval cbv in ascii_of_nat 27.
Definition DIM : string := String ESC "[2m".
Definition RESET : string := String ESC "[0m".
Definition clearLine : string := String (ascii_of_nat 13) (String ESC "[2K").

(** index.ts, 104-127: the overlay assigned to [rl._refreshLine]. *)
Definition _refreshLine (w : World) : M unit :=
  st <- get ;;
  if truthy (currentSuggestion st) && (truthy (line st) || bypassRlLine st) then
    let promptLength := String.length (stripAnsi (formatPrompt w)) in
    let currentLine := line st in
    let currentCursor := cursor st in
    emit (StdoutWrite clearLine) ;;
    emit (StdoutWrite (formatPrompt w)) ;;
    emit (StdoutWrite (slice currentLine 0 currentCursor)) ;;
    (if startsWith (currentSuggestion st) currentLine then
       emit (StdoutWrite (DIM ++ sliceFrom (currentSuggestion st) currentCursor ++ RESET))
     else ret tt) ;;
    modify (set_bypassRlLine false) ;;
    emit (CursorTo (promptLength + currentCursor))
  else
    emit OriginalRefreshLine.


(** index.ts, 209-222 *)
Definition commonCommands : list string :=
  [ "git status"; "git add ."; "git commit -m"; "git push origin";
    "npm install"; "npm run dev"; "ls -la"; "cd .."; "docker ps";
    "docker-compose up"; "history"; "exit" ].

(** index.ts, 201-248 *)
Definition updateSuggestion (w : World) (input : string) : M unit :=
  if negb (truthy (trim input)) then
    modify (set_currentSuggestion "")
  else
    st <- get ;;
    let cursorPos := cursor st in
    let textBeforeCursor := slice input 0 cursorPos in
    let searchText := toLowerCase textBeforeCursor in
    let matches (cmd : string) := startsWith (toLowerCase cmd) searchText in
    modify (set_currentSuggestion
              (orEmpty (findLast matches (currentSessionCommands st)))) ;;
    st1 <- get ;;
    (if negb (truthy (currentSuggestion st1)) then
       modify (set_currentSuggestion
                 (orEmpty (findLast matches (historicalCommands st1))))
     else ret tt) ;;
    st2 <- get ;;
    (if negb (truthy (currentSuggestion st2)) then
       modify (set_currentSuggestion
                 (orEmpty (findLast matches commonCommands)))
     else ret tt) ;;
    st3 <- get ;;
    modify (set_currentSuggestion
              (if truthy (currentSuggestion st3) then currentSuggestion st3 else "")) ;;
    _refreshLine w.

(** index.ts, 147-176: the keypress listener, for a key whose name is
    [name] ([None] when the key has none; without a key the listener
    returns at once).  The result tells whether it scheduled [nextTick]
    below. *)
Definition keypress (w : World) (name : option string) : M bool :=
  let named (n : string) :=
    match name with
    | Some s => String.eqb s n
    | None => false
    end in
  st <- get ;;
  if named "tab" && truthy (currentSuggestion st) then
    modify (set_line (currentSuggestion st)) ;;
    modify (set_cursor (String.length (currentSuggestion st))) ;;
    modify (set_currentSuggestion "") ;;
    modify (set_suggestionAccepted true) ;;
    _refreshLine w ;;
    ret false
  else if named "escape" then
    modify (set_currentSuggestion "") ;;
    _refreshLine w ;;
    ret false
  else if named "left" || named "right" || named "backspace" || named "delete" then
    (if suggestionAccepted st then
       modify (set_currentSuggestion "") ;;
       modify (set_suggestionAccepted false) ;;
       _refreshLine w
     else ret tt) ;;
    ret false
  else if negb (named "return") then ret true
  else ret false.

(** index.ts, 171-174: the callback given to [process.nextTick]. *)
Definition nextTick (w : World) : M unit :=
  st <- get ;;
  updateSuggestion w (line st) ;;
  modify (set_suggestionAccepted false).

(** index.ts, 182-193.  The result is whatever [JSON.parse] returns. *)
Definition loadCommandErrors (file : File) : value * list Event :=
  match file with
  | Absent => (JArr [], [])
  | Unreadable why =>
      (JArr [], [ConsoleError ("Error loading command history: " ++ why)])
  | Content data =>
      match parse data with
      | Some v => (v, [])
      | None =>
          (JArr [],
           [ConsoleError ("Error loading command history: " ++ syntaxErrorText data)])
      end
  end.

(** index.ts, 195-199 *)
Definition prompt (w : World) : M unit := emit (Prompt (formatPrompt w)).

(** *** Helpers of util.ts *)

(** The objects a list of references names, in order. *)
Definition derefs (heap : list Log.t) (refs : list nat) : list Log.t :=
  List.flat_map (fun r => match List.nth_error heap r with
                          | Some e => [e]
                          | None => []
                          end) refs.

(** The entries the array [commandLog] holds, in order. *)
Definition logEntries (st : Shell) : list Log.t :=
  derefs (entries st) (commandLog st).

Definition logValue (st : Shell) : value := JArr (List.map Log.toValue (logEntries st)).

(** Modelled from the spec: [saveToHistory] of util.ts is not among the
    sources.  The history file is an append-only sequence of raw command
    strings, one per line (spec, sections 3 and 6): the call adds the
    command as one new line. *)
Definition saveToHistory (command : string) : M unit :=
  emit (SaveToHistory command) ;;
  modify (fun s => set_historyFile (historyFile s ++ [command])%list s).

(** Modelled from the spec: [saveOutputToFile] of util.ts is not among
    the sources.  A flush serializes the full in-memory ordered sequence
    to the JSON log file, overwriting it (spec, section 4.5). *)
Definition saveOutputToFile : M unit :=
  st <- get ;;
  emit (SaveOutputToFile (logEntries st)) ;;
  modify (set_errorFile (Content (stringify (logValue st)))).

(** *** The command log: objects and the array *)

(** [logEntry = {...}]: a new object; its reference is the result. *)
Definition alloc (e : Log.t) : M nat :=
  st <- get ;;
  modify (set_entries (entries st ++ [e])%list) ;;
  ret (List.length (entries st)).

Fixpoint updateAt (r : nat) (f : Log.t -> Log.t) (l : list Log.t) : list Log.t :=
  match l, r with
  | [], _ => []
  | e :: t, O => f e :: t
  | e :: t, S r' => e :: updateAt r' f t
  end.

(** An assignment to a property of the object [r]. *)
Definition mutate (r : nat) (f : Log.t -> Log.t) : M unit :=
  modify (fun s => set_entries (updateAt r f (entries s)) s).

(** [commandLog.push(logEntry)] *)
Definition push (r : nat) : M unit :=
  modify (fun s => set_commandLog (commandLog s ++ [r])%list s).

(** index.ts, 430-454 *)
Definition logInit (w : World) (command : string) : Log.t :=
  let (cmd, args) := splitSpace command in
  Log.mkEntry
    (generateId w)
    (nowISOString w)
    (Log.mkCommand command cmd args (processCwd w))
    (Log.mkOutput "" 0%Z None)
    (Log.mkMetadata (username w) (processPlatform w)
       (match envSHELL w with
        | Some sh => if truthy sh then sh else "unknown"
        | None => "unknown"
        end)).

(** index.ts, 456-484 *)
Definition checkKey (w : World) : M bool :=
  st <- get ;;
  if existsSync (keyFile st) then ret true
  else
    emit (ConsoleLog "⟨ ×︵× ⟩ API key not found.") ;;
    emit (AskApiKey "⟨ ◠︰◠ ⟩ Please enter your API key: ") ;;
    let apiKey := trim (apiKeyAnswer w) in
    if negb (truthy apiKey) then
      emit (ConsoleLog "⟨ ×︵× ⟩ API key cannot be empty") ;;
      ret false
    else
      match apiKeyWriteError w with
      | None =>
          modify (set_keyFile
                    (Content (stringify (JObj [("gemini_apiKey", JStr apiKey)])))) ;;
          emit (ConsoleLog "⟨ ◠︶◠ ⟩ API key saved successfully!") ;;
          ret true
      | Some err =>
          emit (ConsoleErrorWith "⟨ ⊗︵⊗ ⟩ Error saving API key:" err) ;;
          ret false
      end.

Inductive Target : Type := hm | hp.

(** index.ts, 365-371.  [None] is the [undefined] a call returns that
    falls off the end of the function. *)
Definition askGemini (w : World) (to : Target) (message : option string)
  : option string :=
  match to, message with
  | hm, _ => Some (generateCommandForHm w)
  | hp, Some m => if truthy m then Some (generateCommandForHp w m) else None
  | hp, None => None
  end.

(** index.ts, 373-379 *)
Definition askOpenAi (w : World) (to : Target) (message : option string)
  : option string :=
  match to, message with
  | hm, _ => Some (generateCommandForHmOpenAi w)
  | hp, Some m => if truthy m then Some (generateCommandForHpOpenAi w m) else None
  | hp, None => None
  end.

(** The value the collaborators return when they could not answer. *)
Definition sentinel : string := "3d8a19a704".

Definition unableToProcess (w : World) : string :=
  getErrorMessageFace w ++ " Unable to process you request at the moment.".

(** [console.log(v)] of a string or [undefined]. *)
Definition showValue (v : option string) : string :=
  match v with
  | Some s => s
  | None => "undefined"
  end.

(** index.ts, 295-305 and again 331-341: what the [hm] and [hp]
    branches do with the answer. *)
Definition reportAnswer (w : World) (res : option string) : M unit :=
  if match res with Some s => String.eqb s sentinel | None => false end then
    emit (ConsoleLog (unableToProcess w))
  else
    emit (ConsoleLog (showValue res)) ;;
    match res with
    | Some s => if truthy s then emit (ClipboardWrite s) else ret tt
    | None => ret tt
    end.

(** index.ts, 394-397: the listener of the child's stderr. *)
Definition onStderrData (logEntry : nat) (data : string) : M unit :=
  emit (ConsoleError data) ;;
  mutate logEntry (fun e => Log.setStderr (Log.stderr (Log.output e) ++ stripAnsi data) e).

(** index.ts, 399-406: the listener of the child's error event. *)
Definition onError (w : World) (logEntry : nat) (error : JsError) : M unit :=
  mutate logEntry (Log.setError (stripAnsi (errMessage error))) ;;
  mutate logEntry (Log.setExitCode 1) ;;
  emit (ConsoleError (chalkRed (errMessage error))) ;;
  push logEntry ;;
  saveOutputToFile ;;
  prompt w.

(** [code || 0] *)
Definition orZero (code : option Z) : Z :=
  match code with
  | Some c => c
  | None => 0%Z
  end.

(** [code !== 0] *)
Definition notZero (code : option Z) : bool :=
  match code with
  | Some c => negb (Z.eqb c 0)
  | None => true
  end.

(** index.ts, 408-419: the listener of the child's close event. *)
Definition onClose (w : World) (command : string) (logEntry : nat)
  (code : option Z) : M unit :=
  mutate logEntry (Log.setExitCode (orZero code)) ;;
  (if notZero code then
     push logEntry ;;
     saveOutputToFile
   else ret tt) ;;
  saveToHistory command ;;
  modify (fun s => set_currentSessionCommands
                     (currentSessionCommands s ++ [command])%list s) ;;
  prompt w.

(** index.ts, 381-428.  The result is the entry the listeners of the
    child share, or [None] when [spawn] threw and no child exists. *)
Definition runTheCommand (w : World) (command : string) : M (option nat) :=
  let (cmd, args) := splitSpace command in
  logEntry <- alloc (logInit w command) ;;
  match spawnThrows w with
  | None =>
      emit (Spawn cmd args (processCwd w)) ;;
      ret (Some logEntry)
  | Some err =>
      mutate logEntry (Log.setError (errMessage err)) ;;
      mutate logEntry (Log.setExitCode 1) ;;
      emit (ConsoleError (chalkRed ("Error executing command: " ++ errToString err))) ;;
      push logEntry ;;
      saveOutputToFile ;;
      prompt w ;;
      ret None
  end.

(** index.ts, 250-363 *)
Definition runShellCommand (w : World) (command : string) : M (option nat) :=
  let (cmd, args) := splitSpace command in
  if String.eqb cmd "cd" then
    modify (fun s => set_currentSessionCommands
                       (currentSessionCommands s ++ [command])%list s) ;;
    saveToHistory command ;;
    emit (ChangeDirectory command) ;;
    prompt w ;;
    ret None
  else if String.eqb cmd "history" then
    emit ShowHistory ;;
    prompt w ;;
    ret None
  else if String.eqb cmd "cat" then
    modify (fun s => set_currentSessionCommands
                       (currentSessionCommands s ++ [command])%list s) ;;
    saveToHistory command ;;
    emit (CatFile command) ;;
    prompt w ;;
    ret None
  else if String.eqb cmd "exit" then
    emit RlClose ;;
    ret None
  else if String.eqb cmd "switchAI" then
    st <- get ;;
    match defaultModel st with
    | openAi =>
        modify (set_defaultModel gemini) ;;
        emit (ConsoleLog (chalkGreen "Switched to Gemini model"))
    | gemini =>
        modify (set_defaultModel openAi) ;;
        emit (ConsoleLog (chalkGreen "Switched to OpenAI model"))
    end ;;
    prompt w ;;
    ret None
  else if String.eqb cmd "copy" then
    saveOutputToFile ;;
    prompt w ;;
    ret None
  else if String.eqb cmd "hm" then
    ok <- checkKey w ;;
    (if ok then
       emit (SpinnerStart "Processing data...") ;;
       st <- get ;;
       let res := match defaultModel st with
                  | gemini => askGemini w hm None
                  | openAi => askOpenAi w hm None
                  end in
       emit SpinnerStop ;;
       reportAnswer w res
     else ret tt) ;;
    prompt w ;;
    ret None
  else if String.eqb cmd "hp" then
    ok <- checkKey w ;;
    (if ok then
       (if (List.length args =? 0)%nat then
          emit (ConsoleLog "Hey you did not enter a message.") ;;
          prompt w
        else ret tt) ;;
       let message := joinSpace args in
       emit (SpinnerStart "Processing data...") ;;
       st <- get ;;
       let res := match defaultModel st with
                  | gemini => askGemini w hp (Some message)
                  | openAi => askOpenAi w hp (Some message)
                  end in
       emit SpinnerStop ;;
       reportAnswer w res
     else ret tt) ;;
    prompt w ;;
    ret None
  else if String.eqb cmd "he" then
    emit (SpinnerStart "Processing data...") ;;
    st <- get ;;
    let res := match defaultModel st with
               | gemini => betterMan w (joinSpace args)
               | openAi => betterManOpenAi w (joinSpace args)
               end in
    emit SpinnerStop ;;
    emit (ConsoleLog res) ;;
    prompt w ;;
    ret None
  else
    runTheCommand w command.

(** One event of the running child, given to its listener. *)
Definition deliver (w : World) (command : string) (logEntry : nat)
  (ev : ChildEvent) : M unit :=
  match ev with
  | StderrData data => onStderrData logEntry data
  | ErrorEvent err => onError w logEntry err
  | CloseEvent code => onClose w command logEntry code
  end.

Fixpoint deliverAll (w : World) (command : string) (logEntry : nat)
  (evs : list ChildEvent) : M unit :=
  match evs with
  | [] => ret tt
  | ev :: rest => deliver w command logEntry ev ;; deliverAll w command logEntry rest
  end.

(** A command line from its dispatch to the last event of its child (if
    it has one). *)
Definition execute (w : World) (command : string) (evs : list ChildEvent)
  : M unit :=
  child <- runShellCommand w command ;;
  match child with
  | Some logEntry => deliverAll w command logEntry evs
  | None => ret tt
  end.

End Program.

(** ** Reference statements the properties compare the program with *)

(** A pool entry matches a prefix when its lower-case form starts with
    the lower-case form of the prefix. *)
Definition matchesPrefix (prefix cmd : string) : bool :=
  startsWith (toLowerCase cmd) (toLowerCase prefix).

(** The scan read as "the first pool that holds a match gives its last
    match": a pool is passed over only when none of its entries matches. *)
Fixpoint firstPoolMatch (prefix : string) (pools : list (list string)) : string :=
  match pools with
  | [] => ""
  | pool :: rest =>
      match findLast (matchesPrefix prefix) pool with
      | Some c => c
      | None => firstPoolMatch prefix rest
      end
  end.

(** The scan read as "each pool gives its last match, and the first
    non-empty result across the pools is returned": a pool whose last
    match is the empty string is passed over too. *)
Fixpoint firstNonEmptyMatch (prefix : string) (pools : list (list string)) : string :=
  match pools with
  | [] => ""
  | pool :: rest =>
      match findLast (matchesPrefix prefix) pool with
      | Some c => if truthy c then c else firstNonEmptyMatch prefix rest
      | None => firstNonEmptyMatch prefix rest
      end
  end.

(** The three pools of a state, in the order the program scans them. *)
Definition poolsOf (st : Shell) : list (list string) :=
  [currentSessionCommands st; historicalCommands st; commonCommands].

(** The writes of one overlay render: the cleared line, the prompt, the
    buffer up to the cursor, the dim completion when [ghost] is set, and
    the cursor move. *)
Definition overlayTrace (stripAnsi : string -> string) (w : World) (st : Shell)
  (ghost : bool) : list Event :=
  [ StdoutWrite clearLine;
    StdoutWrite (formatPrompt w);
    StdoutWrite (slice (line st) 0 (cursor st)) ]
  ++ (if ghost
      then [StdoutWrite (DIM ++ sliceFrom (currentSuggestion st) (cursor st) ++ RESET)]
      else [])
  ++ [ CursorTo (String.length (stripAnsi (formatPrompt w)) + cursor st) ].

(** Every reference of the array [commandLog] names an existing entry
    object. *)
Definition wellFormed (st : Shell) : bool :=
  List.forallb (fun r => (r <? List.length (entries st))%nat) (commandLog st).

(** A command on the generic path, from [runTheCommand] to the last
    event of its child. *)
Definition launch (stripAnsi chalkRed : string -> string) (w : World)
  (command : string) (evs : list ChildEvent) : M unit :=
  child <- runTheCommand chalkRed w command ;;
  match child with
  | Some logEntry => deliverAll stripAnsi chalkRed w command logEntry evs
  | None => ret tt
  end.

(** The entry of a command after its child wrote the chunks [chunks] to
    stderr. *)
Definition withStderr (stripAnsi : string -> string) (chunks : list string)
  (e : Log.t) : Log.t :=
  List.fold_left
    (fun e d => Log.setStderr (Log.stderr (Log.output e) ++ stripAnsi d) e)
    chunks e.

(** The builtins that leave no trace in the history. *)
Definition unrecordedBuiltins : list string :=
  ["history"; "exit"; "switchAI"; "copy"; "hm"; "hp"; "he"].

(** Every builtin, by its first word. *)
Definition builtins : list string :=
  ["cd"; "history"; "cat"; "exit"; "switchAI"; "copy"; "hm"; "hp"; "he"].

Definition isPrompt (e : Event) : bool :=
  match e with Prompt _ => true | _ => false end.

Definition isClipboardWrite (e : Event) : bool :=
  match e with ClipboardWrite _ => true | _ => false end.

Definition isFlush (e : Event) : bool :=
  match e with SaveOutputToFile _ => true | _ => false end.





Definition isCloseEvent (ev : ChildEvent) : bool :=
  match ev with CloseEvent _ => true | _ => false end.

(** How many close events a child delivers. *)
Definition closes (evs : list ChildEvent) : nat :=
  List.length (List.filter isCloseEvent evs).

Definition isConsoleError (e : Event) : bool :=
  match e with ConsoleError _ | ConsoleErrorWith _ _ => true | _ => false end.

(** One command of a session: the world it runs in, its text, what its
    child writes to stderr and the exit code the child closes with. *)
Record Job : Type := mkJob {
  jobWorld : World;
  jobCommand : string;
  jobStderr : list string;
  jobCode : Z
}.

(** The jobs of a session, one after the other on the generic path. *)
Fixpoint runJobs (stripAnsi chalkRed : string -> string) (jobs : list Job) : M unit :=
  match jobs with
  | [] => ret tt
  | j :: rest =>
      launch stripAnsi chalkRed (jobWorld j) (jobCommand j)
             (List.map StderrData (jobStderr j) ++ [CloseEvent (Some (jobCode j))]) ;;
      runJobs stripAnsi chalkRed rest
  end.

(** The log entry of a job when its child has closed. *)
Definition jobEntry (stripAnsi : string -> string) (j : Job) : Log.t :=
  Log.setExitCode (jobCode j)
    (withStderr stripAnsi (jobStderr j) (logInit (jobWorld j) (jobCommand j))).

(** A job whose child starts and closes with a non-zero exit code. *)
Definition failing (j : Job) : Prop :=
  spawnThrows (jobWorld j) = None /\ jobCode j <> 0%Z.

(** [st'] keeps every object of [st] (the store may have grown) and its
    array holds the references of [st] followed by references to existing
    objects. *)
Definition extends (st st' : Shell) : Prop :=
  (List.length (entries st) <= List.length (entries st'))%nat
  /\ exists pushed : list nat,
       commandLog st' = (commandLog st ++ pushed)%list
       /\ List.forallb (fun r => (r <? List.length (entries st'))%nat) pushed = true.


(** ** Strings beyond Latin-1

    The clipboard worker may deliver any text, and
    [String.prototype.toLowerCase] (ECMA-262, 22.1.3.28) does not work
    code unit by code unit there: it follows the Unicode Default Case
    Conversion, in which the capital sigma U+03A3 becomes the final small
    sigma U+03C2 when a cased letter stands before it and none after it
    (case-ignorable characters in between do not count), and the small
    sigma U+03C3 otherwise.  This module has the string functions of the
    overlay on sequences of UTF-16 code units, with [toLowerCase] on the
    code units below 256 and the Greek letters U+0391..U+03A9 and
    U+03B1..U+03C9.  Any other code unit is taken as it is, as a
    character that has no case and is not case-ignorable. *)
Module Wide.

(** A string as the sequence of its UTF-16 code units. *)
Definition wstring : Type := list N.


(** [s.startsWith(p)] *)
Fixpoint startsWith (s p : wstring) : bool :=
  match p, s with
  | [], _ => true
  | _ :: _, [] => false
  | b :: p', a :: s' => N.eqb a b && startsWith s' p'
  end.

(** [s.slice(b, e)] and [s.slice(b)] for non-negative indices *)
Definition slice (s : wstring) (b e : nat) : wstring :=
  List.firstn (e - b) (List.skipn b s).
Definition sliceFrom (s : wstring) (b : nat) : wstring := List.skipn b s.

Definition inRange (lo hi u : N) : bool := ((lo <=? u) && (u <=? hi))%N.

(** The capital sigma. *)
Definition SIGMA : N := 931.
Definition smallSigma : N := 963.
Definition finalSigma : N := 962.

(** The lower-case mapping of one code unit out of context: A-Z, the
    Latin-1 capitals and the Greek capitals move up by 32. *)
Definition lowerUnit (u : N) : N :=
  if inRange 65 90 u
     || inRange 192 222 u && negb (u =? 215)%N
     || inRange 913 929 u || inRange 931 937 u
  then (u + 32)%N else u.

(** The property Cased: the letters that are upper case or lower case. *)
Definition isCased (u : N) : bool :=
  inRange 65 90 u || inRange 97 122 u
  || (u =? 170)%N || (u =? 181)%N || (u =? 186)%N
  || inRange 192 255 u && negb (u =? 215)%N && negb (u =? 247)%N
  || inRange 913 929 u || inRange 931 937 u || inRange 945 969 u.

(** The property Case_Ignorable: the apostrophe, the full stop, the
    colon, the circumflex, the grave accent, and in Latin-1 the diaeresis,
    the soft hyphen, the macron, the acute accent, the middle dot and the
    cedilla. *)
Definition caseIgnorable (u : N) : bool :=
  (u =? 39)%N || (u =? 46)%N || (u =? 58)%N || (u =? 94)%N || (u =? 96)%N
  || (u =? 168)%N || (u =? 173)%N || (u =? 175)%N || (u =? 180)%N
  || (u =? 183)%N || (u =? 184)%N.

(** Does a cased letter follow, after case-ignorable characters only? *)
Fixpoint casedAhead (s : wstring) : bool :=
  match s with
  | [] => false
  | u :: r => if caseIgnorable u then casedAhead r else isCased u
  end.

(** Lower-casing from left to right; [before] tells whether a cased
    letter stands before the current position, with case-ignorable
    characters only in between. *)
Fixpoint lowerFrom (before : bool) (s : wstring) : wstring :=
  match s with
  | [] => []
  | u :: r =>
      (if (u =? SIGMA)%N
       then if before && negb (casedAhead r) then finalSigma else smallSigma
       else lowerUnit u)
      :: lowerFrom (if caseIgnorable u then before else isCased u) r
  end.

(** [s.toLowerCase()] *)
Definition toLowerCase (s : wstring) : wstring := lowerFrom false s.



End Wide.

(** ** Start-up code of index.ts *)

Definition LF : ascii := Eval cbv in ascii_of_nat 10.

(** [s.split("\n")] as the pair (first piece, other pieces). *)
Fixpoint splitNewline (s : string) : string * list string :=
  match s with
  | EmptyString => (EmptyString, [])
  | String c r =>
      let (h, t) := splitNewline r in
      if Ascii.eqb c LF then (EmptyString, h :: t) else (String c h, t)
  end.

(** index.ts, 51-63: the value [historicalCommands] starts with, and
    what the load writes to the console.  [filter(Boolean)] keeps the
    pieces that are not empty. *)
Definition loadHistory (file : File) : list string * list Event :=
  match file with
  | Absent => ([], [])
  | Unreadable why => ([], [ConsoleError ("Error reading history: " ++ why)])
  | Content data =>
      let (h, t) := splitNewline data in
      (List.filter truthy (h :: t), [])
  end.

(** [s.repeat(n)] *)
Fixpoint repeatString (s : string) (n : nat) : string :=
  match n with
  | O => EmptyString
  | S k => s ++ repeatString s k
  end.

(** index.ts, 82-85, for a width that is an integer: [Math.floor] of
    the half is the quotient rounded down. *)
Definition centerText (text : string) (width : Z) : string :=
  let padding := Z.max 0 ((width - Z.of_nat (String.length text)) / 2) in
  repeatString " " (Z.to_nat padding) ++ text.

(** ** More reference statements *)

Definition isSaveToHistory (e : Event) : bool :=
  match e with SaveToHistory _ => true | _ => false end.

(** A string that holds no line feed. *)
Fixpoint oneLine (s : string) : bool :=
  match s with
  | EmptyString => true
  | String c r => negb (Ascii.eqb c LF) && oneLine r
  end.

(** A string that holds no space. *)
Fixpoint oneWord (s : string) : bool :=
  match s with
  | EmptyString => true
  | String c r => negb (Ascii.eqb c " ") && oneWord r
  end.




(** The events the execution engine itself produces. *)
Definition engineEvent (e : Event) : bool :=
  match e with
  | Spawn _ _ _ | ConsoleError _ | SaveOutputToFile _ | SaveToHistory _ | Prompt _ => true
  | _ => false
  end.

(** A listener changes the output of an entry and nothing else of it. *)
Definition sameIdentity (e e' : Log.t) : Prop :=
  Log.id e' = Log.id e /\ Log.timestamp e' = Log.timestamp e
  /\ Log.command e' = Log.command e /\ Log.metadata e' = Log.metadata e.

(** The command lines of a session, each with the world it runs in and
    the events of its child, one after the other. *)
Fixpoint session (stripAnsi chalkRed chalkGreen : string -> string)
  (lines : list (World * string * list ChildEvent)) : M unit :=
  match lines with
  | [] => ret tt
  | (w, command, evs) :: rest =>
      execute stripAnsi chalkRed chalkGreen w command evs ;;
      session stripAnsi chalkRed chalkGreen rest
  end.

(** ** Sample states and worlds, for concrete runs *)

(** A shell that has just started with empty files. *)
Definition freshShell : Shell :=
  mkShell "" 0 "" false false [] [] gemini [] [] [] Absent Absent.

(** The same shell once an API key has been saved. *)
Definition keyedShell : Shell :=
  set_keyFile (Content (stringify (JObj [("gemini_apiKey", JStr "secret")])))
              freshShell.

(** A world whose collaborators answer with a plain command, in which
    nothing throws. *)
Definition calmWorld : World :=
  mkWorld "naash> " "(x_x)" "secret" None
          "ls -la" (fun _ => "ls -la") (fun _ => "lists files")
          "ls -la" (fun _ => "ls -la") (fun _ => "lists files")
          "cmd_1_abc" "2025-01-01T00:00:00.000Z" "/home/user" "user" "linux"
          (Some "/bin/bash") None.

(** The same world, except that every collaborator fails. *)
Definition failingWorld : World :=
  mkWorld "naash> " "(x_x)" "secret" None
          sentinel (fun _ => sentinel) (fun _ => sentinel)
          sentinel (fun _ => sentinel) (fun _ => sentinel)
          "cmd_1_abc" "2025-01-01T00:00:00.000Z" "/home/user" "user" "linux"
          (Some "/bin/bash") None.

(** Text without escape sequences is what [stripAnsi] leaves alone. *)
Definition plainText (s : string) : string := s.

(** ** More sample worlds *)

(** A world in which the user answers the key question with spaces. *)
Definition shyWorld : World :=
  mkWorld "naash> " "(x_x)" "   " None
          "ls -la" (fun _ => "ls -la") (fun _ => "lists files")
          "ls -la" (fun _ => "ls -la") (fun _ => "lists files")
          "cmd_1_abc" "2025-01-01T00:00:00.000Z" "/home/user" "user" "linux"
          (Some "/bin/bash") None.

(** What [spawn] throws when it is given the empty string to run. *)
Definition emptyFileError : JsError :=
  mkError
    "TypeError [ERR_INVALID_ARG_VALUE]: The argument 'file' cannot be empty. Received ''"
    "The argument 'file' cannot be empty. Received ''".

(** A world in which [spawn] throws. *)
Definition throwingWorld : World :=
  mkWorld "naash> " "(x_x)" "secret" None
          "ls -la" (fun _ => "ls -la") (fun _ => "lists files")
          "ls -la" (fun _ => "ls -la") (fun _ => "lists files")
          "cmd_1_abc" "2025-01-01T00:00:00.000Z" "/home/user" "user" "linux"
          None (Some emptyFileError).

(** A line being typed: [gi] with the cursor at its end, and the
    suggestion the static list gives for it. *)
Definition typingShell : Shell :=
  set_currentSuggestion "git push origin"
    (set_cursor 2 (set_line "gi" freshShell)).

(** * Properties *)

#[local] Set Default Proof Using "Type".

(** ** Strings *)


Lemma startsWith_cons (c d : ascii) (s p : string) :
  startsWith (String c s) (String d p) = true <-> c = d /\ startsWith s p = true.
Proof.
  unfold startsWith; simpl. destruct (ascii_dec d c) as [E|N].
  - subst. tauto.
  - split; [discriminate | intros [E _]; congruence].
Qed.




Lemma trimEnd_blank (s : string) : blank s = true -> trimEnd s = "".
Proof.
  induction s as [|c s IH]; simpl; [reflexivity|].
  intros H. apply andb_prop in H as [Hc Hs]. rewrite (IH Hs), Hc. reflexivity.
Qed.

Lemma trimEnd_not_blank (s : string) : blank s = false -> trimEnd s <> "".
Proof.
  induction s as [|c s IH]; simpl; [discriminate|].
  intros H. destruct (trimEnd s) eqn:E.
  - destruct (isWhiteSpace c) eqn:Hc; [|discriminate].
    simpl in H. destruct (blank s); [discriminate H|]. exfalso. now apply IH.
  - discriminate.
Qed.

Lemma blank_trimStart (s : string) : blank (trimStart s) = blank s.
Proof.
  induction s as [|c s IH]; simpl; [reflexivity|].
  destruct (isWhiteSpace c) eqn:Hc; simpl; [exact IH | now rewrite Hc].
Qed.

(** [!input.trim()] holds exactly of the strings made of white space. *)
Lemma truthy_trim (s : string) : truthy (trim s) = negb (blank s).
Proof.
  unfold trim. destruct (blank s) eqn:B.
  - rewrite trimEnd_blank; [reflexivity | now rewrite blank_trimStart].
  - assert (H : trimEnd (trimStart s) <> "")
      by (apply trimEnd_not_blank; now rewrite blank_trimStart).
    destruct (trimEnd (trimStart s)); [congruence | reflexivity].
Qed.

Lemma find_some_true {A : Type} (p : A -> bool) (l : list A) (x : A) :
  List.find p l = Some x -> p x = true.
Proof. intros H. now apply List.find_some in H. Qed.

(** ** Running handlers: the equations of the monad *)

Lemma stateOf_bind {A B : Type} (m : M A) (k : A -> M B) (s : Shell) :
  stateOf (bind m k s) = stateOf (k (valueOf (m s)) (stateOf (m s))).
Proof.
  unfold bind, stateOf, valueOf. destruct (m s) as [[a s1] t1]; simpl.
  destruct (k a s1) as [[b s2] t2]; reflexivity.
Qed.

Lemma valueOf_bind {A B : Type} (m : M A) (k : A -> M B) (s : Shell) :
  valueOf (bind m k s) = valueOf (k (valueOf (m s)) (stateOf (m s))).
Proof.
  unfold bind, stateOf, valueOf. destruct (m s) as [[a s1] t1]; simpl.
  destruct (k a s1) as [[b s2] t2]; reflexivity.
Qed.

Lemma traceOf_bind {A B : Type} (m : M A) (k : A -> M B) (s : Shell) :
  traceOf (bind m k s)
  = (traceOf (m s) ++ traceOf (k (valueOf (m s)) (stateOf (m s))))%list.
Proof.
  unfold bind, stateOf, valueOf, traceOf. destruct (m s) as [[a s1] t1]; simpl.
  destruct (k a s1) as [[b s2] t2]; reflexivity.
Qed.

Lemma stateOf_get (s : Shell) : stateOf (get s) = s.
Proof. reflexivity. Qed.
Lemma valueOf_get (s : Shell) : valueOf (get s) = s.
Proof. reflexivity. Qed.
Lemma traceOf_get (s : Shell) : traceOf (get s) = [].
Proof. reflexivity. Qed.
Lemma stateOf_modify (f : Shell -> Shell) (s : Shell) : stateOf (modify f s) = f s.
Proof. reflexivity. Qed.
Lemma traceOf_modify (f : Shell -> Shell) (s : Shell) : traceOf (modify f s) = [].
Proof. reflexivity. Qed.
Lemma stateOf_emit (e : Event) (s : Shell) : stateOf (emit e s) = s.
Proof. reflexivity. Qed.
Lemma traceOf_emit (e : Event) (s : Shell) : traceOf (emit e s) = [e].
Proof. reflexivity. Qed.
Lemma stateOf_ret {A : Type} (a : A) (s : Shell) : stateOf (ret a s) = s.
Proof. reflexivity. Qed.
Lemma valueOf_ret {A : Type} (a : A) (s : Shell) : valueOf (ret a s) = a.
Proof. reflexivity. Qed.
Lemma traceOf_ret {A : Type} (a : A) (s : Shell) : traceOf (ret a s) = [].
Proof. reflexivity. Qed.

Create Rewrite HintDb run.
#[export] Hint Rewrite @stateOf_bind @valueOf_bind @traceOf_bind
  stateOf_get valueOf_get traceOf_get stateOf_modify traceOf_modify
  stateOf_emit traceOf_emit @stateOf_ret @valueOf_ret @traceOf_ret : run.

(** Unfolds the sequencing of a handler down to its primitive steps. *)
Ltac run := repeat (autorewrite with run; cbv beta iota zeta).

(** ** JSON: reading back what was written *)
Module JsonFacts.

Lemma append_assoc (a b c : string) : ((a ++ b) ++ c = a ++ (b ++ c))%string.
Proof. induction a as [|x a IH]; simpl; [reflexivity | now rewrite IH]. Qed.

Lemma length_append (a b : string) :
  String.length (a ++ b) = (String.length a + String.length b)%nat.
Proof. induction a as [|x a IH]; simpl; [reflexivity | now rewrite IH]. Qed.

(** *** Strings *)

Lemma parseChars_quoteChar (c : ascii) (tail : string) :
  parseChars (quoteChar c ++ tail)
  = match parseChars tail with
    | Some (t, rest) => Some (String c t, rest)
    | None => None
    end.
Proof.
  destruct c as [[|] [|] [|] [|] [|] [|] [|] [|]]; reflexivity.
Qed.

Lemma parseChars_quoteBody (s rest : string) :
  parseChars (quoteBody s ++ String dquote rest) = Some (s, rest).
Proof.
  induction s as [|c s IH]; [reflexivity|].
  cbn [quoteBody]. rewrite append_assoc, parseChars_quoteChar, IH. reflexivity.
Qed.

Lemma quote_unfold (s rest : string) :
  (quote s ++ rest)%string = String dquote (quoteBody s ++ String dquote rest).
Proof. unfold quote. cbn [append]. now rewrite append_assoc. Qed.

(** *** Integers *)

Lemma delimited_noDigitAhead (rest : string) : delimited rest -> noDigitAhead rest.
Proof.
  destruct rest as [|c r]; [trivial|]. simpl. intros [-> | [-> | ->]]; reflexivity.
Qed.

Lemma delimited_startsFraction (rest : string) :
  delimited rest -> startsFraction rest = false.
Proof.
  destruct rest as [|c r]; [trivial|]. simpl. intros [-> | [-> | ->]]; reflexivity.
Qed.

Lemma takeDigits_stop (rest : string) :
  noDigitAhead rest -> takeDigits rest = (Decimal.Nil, rest).
Proof. destruct rest as [|c r]; simpl; [reflexivity | now intros ->]. Qed.

Lemma takeDigits_string_of_uint (u : Decimal.uint) (rest : string) :
  noDigitAhead rest ->
  takeDigits (NilEmpty.string_of_uint u ++ rest) = (u, rest).
Proof.
  intros H. induction u; cbn [NilEmpty.string_of_uint append];
    [now apply takeDigits_stop | ..];
    cbn [takeDigits]; cbv [digitOf]; simpl; rewrite IHu; reflexivity.
Qed.

Lemma to_uint_normal (p : positive) : Decimal.unorm (Pos.to_uint p) = Pos.to_uint p.
Proof.
  rewrite <- (DecimalPos.Unsigned.to_of (Pos.to_uint p)).
  now rewrite DecimalPos.Unsigned.of_to.
Qed.

Lemma normal_wellFormedDigits (u : Decimal.uint) :
  Decimal.unorm u = u -> wellFormedDigits u = true.
Proof.
  destruct u as [|u| | | | | | | | |]; try reflexivity.
  - discriminate.
  - destruct u as [|u| | | | | | | | |]; try reflexivity;
      intros H; exfalso;
      match type of H with
      | Decimal.unorm (Decimal.D0 ?v) = _ =>
          assert (N : v <> Decimal.Nil) by discriminate;
          pose proof (DecimalFacts.nb_digits_unorm v N) as L;
          change (Decimal.unorm (Decimal.D0 v)) with (Decimal.unorm v) in H;
          rewrite H in L; simpl in L; lia
      end.
Qed.

Lemma string_of_uint_head (u : Decimal.uint) :
  u <> Decimal.Nil ->
  exists c r, NilEmpty.string_of_uint u = String c r
              /\ Ascii.eqb c "-" = false /\ digitOf c <> None.
Proof.
  destruct u; [congruence | ..]; intros _; eexists; eexists;
    (split; [reflexivity | split; [reflexivity | discriminate]]).
Qed.

Lemma printZ_pos (p : positive) :
  printZ (Zpos p) = NilEmpty.string_of_uint (Pos.to_uint p).
Proof.
  unfold printZ. cbn [Z.to_int NilZero.string_of_int NilZero.string_of_uint].
  pose proof (DecimalPos.Unsigned.to_uint_nonnil p) as N.
  destruct (Pos.to_uint p); [congruence | reflexivity ..].
Qed.

Lemma printZ_neg (p : positive) :
  printZ (Zneg p) = String "-" (NilEmpty.string_of_uint (Pos.to_uint p)).
Proof.
  unfold printZ. cbn [Z.to_int NilZero.string_of_int NilZero.string_of_uint].
  pose proof (DecimalPos.Unsigned.to_uint_nonnil p) as N.
  destruct (Pos.to_uint p); [congruence | reflexivity ..].
Qed.

Lemma parseNumber_unsigned (u : Decimal.uint) (rest : string) :
  u <> Decimal.Nil -> wellFormedDigits u = true -> delimited rest ->
  parseNumber (NilEmpty.string_of_uint u ++ rest)
  = Some (Z.of_int (Decimal.Pos u), rest).
Proof.
  intros N W D. unfold parseNumber.
  destruct (string_of_uint_head u N) as (c & r & E & M & _).
  pose proof (takeDigits_string_of_uint u rest (delimited_noDigitAhead rest D)) as T.
  rewrite E in *. cbn [append] in *. rewrite M, T, W.
  now rewrite (delimited_startsFraction rest D).
Qed.

Lemma parseNumber_printZ (z : Z) (rest : string) :
  delimited rest -> parseNumber (printZ z ++ rest) = Some (z, rest).
Proof.
  intros D. destruct z as [|p|p].
  - change (printZ 0) with (NilEmpty.string_of_uint (Decimal.D0 Decimal.Nil)).
    rewrite parseNumber_unsigned; [reflexivity | discriminate | reflexivity | exact D].
  - rewrite printZ_pos.
    rewrite parseNumber_unsigned;
      [ | apply DecimalPos.Unsigned.to_uint_nonnil
        | apply normal_wellFormedDigits, to_uint_normal | exact D ].
    f_equal. f_equal. exact (DecimalZ.of_to (Zpos p)).
  - rewrite printZ_neg. unfold parseNumber. cbn [append Ascii.eqb Bool.eqb].
    rewrite (takeDigits_string_of_uint (Pos.to_uint p) rest
               (delimited_noDigitAhead rest D)).
    rewrite (normal_wellFormedDigits _ (to_uint_normal p)).
    rewrite (delimited_startsFraction rest D). cbn [andb negb].
    f_equal. f_equal. exact (DecimalZ.of_to (Zneg p)).
Qed.

(** *** Values *)

Lemma value_nested_ind (P : value -> Prop) :
  P JNull -> (forall b, P (JBool b)) -> (forall z, P (JNum z)) ->
  (forall s, P (JStr s)) ->
  (forall l, List.Forall P l -> P (JArr l)) ->
  (forall l, List.Forall (fun kv : string * value => P (snd kv)) l -> P (JObj l)) ->
  forall v, P v.
Proof.
  intros HN HB HZ HS HA HO. fix IH 1. intros [| b | z | s | l | l].
  - exact HN.
  - apply HB.
  - apply HZ.
  - apply HS.
  - apply HA. induction l as [|x l IHl]; constructor; [apply IH | exact IHl].
  - apply HO. induction l as [|[k x] l IHl]; constructor; [apply IH | exact IHl].
Qed.

Lemma stringify_obj (l : list (string * value)) :
  stringify (JObj l) = ("{" ++ commaSep (List.map memberText l) ++ "}")%string.
Proof.
  cbn [stringify]. do 3 f_equal. apply List.map_ext. now intros [k x].
Qed.

(** The first character of a number decides nothing but "number". *)
Lemma number_head (c : ascii) :
  c = "-"%char \/ digitOf c <> None ->
  isWs c = false /\ Ascii.eqb c "n" = false /\ Ascii.eqb c "t" = false
  /\ Ascii.eqb c "f" = false /\ Ascii.eqb c dquote = false
  /\ Ascii.eqb c "[" = false /\ Ascii.eqb c "{" = false /\ Ascii.eqb c "]" = false.
Proof.
  intros [-> | H]; [repeat split|].
  destruct c as [[|] [|] [|] [|] [|] [|] [|] [|]];
    first [ exfalso; apply H; reflexivity | repeat split ].
Qed.

Lemma printZ_head (z : Z) :
  exists c r, printZ z = String c r /\ (c = "-"%char \/ digitOf c <> None).
Proof.
  destruct z as [|p|p].
  - exists "0"%char, EmptyString. split; [reflexivity | right; discriminate].
  - rewrite printZ_pos.
    destruct (string_of_uint_head (Pos.to_uint p)
                (DecimalPos.Unsigned.to_uint_nonnil p)) as (c & r & E & _ & Dg).
    exists c, r. split; [exact E | now right].
  - rewrite printZ_neg. eexists; eexists. split; [reflexivity | now left].
Qed.

Lemma parseValue_number (f : nat) (z : Z) (rest : string) :
  delimited rest -> parseValue (S f) (printZ z ++ rest) = Some (JNum z, rest).
Proof.
  intros D. pose proof (parseNumber_printZ z rest D) as N.
  destruct (printZ_head z) as (c & r & E & H).
  destruct (number_head c H) as (W & A1 & A2 & A3 & A4 & A5 & A6 & _).
  rewrite E in *. cbn [append] in *. cbn [parseValue skipWs].
  rewrite W, A1, A2, A3, A4, A5, A6, N. reflexivity.
Qed.

(** A text never starts with white space or a closing bracket. *)
Lemma stringify_head (v : value) :
  exists c r, stringify v = String c r /\ isWs c = false
              /\ Ascii.eqb c "]" = false.
Proof.
  destruct v as [| [|] | z | s | l | l];
    try (eexists; eexists; split; [reflexivity | split; reflexivity]).
  destruct (printZ_head z) as (c & r & E & H).
  destruct (number_head c H) as (W & _ & _ & _ & _ & _ & _ & B).
  exists c, r. cbn [stringify]. auto.
Qed.

Lemma skipWs_cons (c : ascii) (rest : string) :
  isWs c = false -> skipWs (String c rest) = String c rest.
Proof. intros H. cbn [skipWs]. now rewrite H. Qed.

Lemma skipWs_dquote (rest : string) :
  skipWs (String dquote rest) = String dquote rest.
Proof. reflexivity. Qed.

Lemma skipWs_delimiter (c : ascii) (rest : string) :
  c = ","%char \/ c = "]"%char \/ c = "}"%char \/ c = ":"%char ->
  skipWs (String c rest) = String c rest.
Proof. intros [-> | [-> | [-> | ->]]]; reflexivity. Qed.

Lemma parseElements_commaSep (l : list value) :
  List.Forall readsBack l -> l <> [] ->
  forall (fuel : nat) (rest : string),
    (List.list_sum (List.map (fun x => S (need x)) l) <= fuel)%nat ->
    parseElements fuel (commaSep (List.map stringify l) ++ String "]" rest)
    = Some (List.map reread l, rest).
Proof.
  induction 1 as [|v l Hv Hl IH]; [congruence|]. intros _ fuel rest F.
  cbn [List.map List.list_sum List.fold_right] in F.
  destruct fuel as [|f]; [lia|]. cbn [parseElements].
  destruct l as [|v2 l].
  - cbn [List.map commaSep].
    rewrite (Hv f (String "]" rest)) by first [lia | simpl; auto].
    reflexivity.
  - change (commaSep (List.map stringify (v :: v2 :: l)))
      with (stringify v ++ "," ++ commaSep (List.map stringify (v2 :: l)))%string.
    rewrite !append_assoc. cbn [append].
    rewrite (Hv f) by first [lia | simpl; auto].
    rewrite skipWs_delimiter by auto. cbn [Ascii.eqb Bool.eqb].
    rewrite IH; [reflexivity | discriminate | unfold List.list_sum in *; lia].
Qed.

Lemma parseMembers_commaSep (l : list (string * value)) :
  List.Forall (fun kv : string * value => readsBack (snd kv)) l -> l <> [] ->
  forall (fuel : nat) (rest : string),
    (List.list_sum (List.map (fun kv : string * value => S (need (snd kv))) l)
     <= fuel)%nat ->
    parseMembers fuel (commaSep (List.map memberText l) ++ String "}" rest)
    = Some (List.map (fun kv : string * value => (fst kv, reread (snd kv))) l, rest).
Proof.
  induction 1 as [|[k x] l Hx Hl IH]; [congruence|]. intros _ fuel rest F.
  cbn [List.map List.list_sum List.fold_right snd fst] in F. cbn [snd] in Hx.
  destruct fuel as [|f]; [lia|]. cbn [parseMembers].
  destruct l as [|kv2 l].
  - cbn [List.map commaSep]. unfold memberText at 1. cbn [fst snd].
    rewrite !append_assoc, quote_unfold, skipWs_dquote.
    change (Ascii.eqb dquote dquote) with true. cbv iota.
    rewrite parseChars_quoteBody. cbn [append].
    rewrite skipWs_delimiter by auto 6. cbn [Ascii.eqb Bool.eqb].
    rewrite (Hx f (String "}" rest)) by first [lia | simpl; auto].
    reflexivity.
  - change (commaSep (List.map memberText ((k, x) :: kv2 :: l)))
      with (memberText (k, x) ++ "," ++ commaSep (List.map memberText (kv2 :: l)))%string.
    unfold memberText at 1. cbn [fst snd].
    rewrite !append_assoc, quote_unfold, skipWs_dquote.
    change (Ascii.eqb dquote dquote) with true. cbv iota.
    rewrite parseChars_quoteBody. cbn [append].
    rewrite skipWs_delimiter by auto 6. cbn [Ascii.eqb Bool.eqb].
    rewrite (Hx f) by first [lia | simpl; auto].
    rewrite skipWs_delimiter by auto. cbn [Ascii.eqb Bool.eqb].
    rewrite IH; [reflexivity | discriminate | unfold List.list_sum in *; lia].
Qed.

Lemma parseValue_stringify (v : value) : readsBack v.
Proof.
  induction v as [| b | z | s | l IH | l IH] using value_nested_ind;
    intros fuel rest F D; (destruct fuel as [|f]; [simpl in F; lia|]).
  - reflexivity.
  - destruct b; reflexivity.
  - now apply parseValue_number.
  - cbn [stringify reread]. rewrite quote_unfold. cbn [parseValue].
    rewrite skipWs_dquote. cbn [Ascii.eqb Bool.eqb dquote].
    rewrite parseChars_quoteBody. reflexivity.
  - destruct l as [|v l]; [reflexivity|].
    cbn [stringify reread]. rewrite !append_assoc. cbn [append parseValue].
    rewrite skipWs_cons by reflexivity. cbn [Ascii.eqb Bool.eqb dquote].
    destruct (stringify_head v) as (c & r & E & W & B).
    assert (H : exists r', (commaSep (List.map stringify (v :: l))
                            ++ String "]" rest)%string = String c r').
    { destruct l; cbn [List.map commaSep]; rewrite E; cbn [append]; eauto. }
    destruct H as (r' & H). rewrite H. cbn [skipWs]. rewrite W, B. rewrite <- H.
    rewrite parseElements_commaSep;
      [reflexivity | exact IH | discriminate | cbn [need] in F; lia].
  - destruct l as [|[k x] l]; [reflexivity|].
    rewrite stringify_obj. cbn [reread]. rewrite !append_assoc.
    cbn [append parseValue].
    rewrite skipWs_cons by reflexivity. cbn [Ascii.eqb Bool.eqb dquote].
    assert (H : exists r', (commaSep (List.map memberText ((k, x) :: l))
                            ++ String "}" rest)%string = String dquote r').
    { destruct l; cbn [List.map commaSep]; unfold memberText at 1; cbn [fst];
        rewrite !append_assoc, quote_unfold; eauto. }
    destruct H as (r' & H). rewrite H. rewrite skipWs_dquote.
    cbn [Ascii.eqb Bool.eqb dquote]. rewrite <- H.
    rewrite parseMembers_commaSep;
      [reflexivity | exact IH | discriminate | cbn [need] in F; lia].
Qed.

(** *** Enough fuel *)

Lemma length_commaSep {A : Type} (f : A -> string) (g : A -> nat) (l : list A) :
  List.Forall (fun x => (g x <= S (String.length (f x)))%nat) l ->
  (List.list_sum (List.map g l) <= S (String.length (commaSep (List.map f l))))%nat.
Proof.
  induction 1 as [|x l Hx Hl IH]; [simpl; lia|].
  destruct l as [|y l].
  - simpl in *. lia.
  - change (commaSep (List.map f (x :: y :: l)))
      with (f x ++ "," ++ commaSep (List.map f (y :: l)))%string.
    rewrite !length_append.
    change (List.list_sum (List.map g (x :: y :: l)))
      with (g x + List.list_sum (List.map g (y :: l)))%nat.
    change (String.length ",") with 1%nat. lia.
Qed.

Lemma need_le_length (v : value) : (need v <= String.length (stringify v))%nat.
Proof.
  induction v as [| b | z | s | l IH | l IH] using value_nested_ind.
  - simpl; lia.
  - destruct b; simpl; lia.
  - cbn [need stringify]. destruct (printZ_head z) as (c & r & E & _).
    rewrite E. simpl; lia.
  - cbn [need stringify]. unfold quote. simpl; lia.
  - cbn [need stringify]. rewrite !length_append. simpl String.length.
    pose proof (length_commaSep stringify (fun x => S (need x)) l) as H.
    assert (F : List.Forall
                  (fun x => (S (need x) <= S (String.length (stringify x)))%nat) l).
    { eapply List.Forall_impl; [|exact IH]. simpl; intros; lia. }
    specialize (H F). lia.
  - rewrite stringify_obj. cbn [need]. rewrite !length_append. simpl String.length.
    pose proof (length_commaSep memberText
                  (fun kv : string * value => S (need (snd kv))) l) as H.
    assert (F : List.Forall
                  (fun kv : string * value =>
                     (S (need (snd kv)) <= S (String.length (memberText kv)))%nat) l).
    { eapply List.Forall_impl; [|exact IH]. intros [k x] Hx. cbn [snd] in *.
      unfold memberText. cbn [fst snd]. rewrite !length_append. lia. }
    specialize (H F). lia.
Qed.

Lemma append_empty (s : string) : (s ++ "")%string = s.
Proof. induction s as [|c s IH]; simpl; [reflexivity | now rewrite IH]. Qed.

(** Reading the text of a value gives the value back. *)
Lemma parse_stringify (v : value) : parse (stringify v) = Some (reread v).
Proof.
  unfold parse.
  pose proof (parseValue_stringify v (S (String.length (stringify v))) "") as H.
  rewrite append_empty in H. rewrite H; [reflexivity | | exact I].
  pose proof (need_le_length v). lia.
Qed.

(** A command log has no property named twice: it is read back as it
    is. *)
Lemma reread_strings (l : list string) :
  List.map reread (List.map JStr l) = List.map JStr l.
Proof. induction l as [|s l IH]; simpl; [reflexivity | now rewrite IH]. Qed.

Lemma reread_entry (e : Log.t) : reread (Log.toValue e) = Log.toValue e.
Proof.
  unfold Log.toValue. cbn [reread List.map fst snd].
  rewrite reread_strings.
  destruct (Log.error (Log.output e)); reflexivity.
Qed.

Lemma reread_log (l : list Log.t) :
  reread (JArr (List.map Log.toValue l)) = JArr (List.map Log.toValue l).
Proof.
  cbn [reread]. f_equal. rewrite List.map_map.
  apply List.map_ext. exact reread_entry.
Qed.

Lemma parse_log (l : list Log.t) :
  parse (stringify (JArr (List.map Log.toValue l))) = Some (JArr (List.map Log.toValue l)).
Proof. now rewrite parse_stringify, reread_log. Qed.

(** An entry is determined by its value: equal fields, equal entries. *)
Lemma toValue_injective (e1 e2 : Log.t) : Log.toValue e1 = Log.toValue e2 -> e1 = e2.
Proof.
  destruct e1 as [i1 t1 [r1 x1 a1 c1] [s1 z1 o1] [u1 p1 h1]].
  destruct e2 as [i2 t2 [r2 x2 a2 c2] [s2 z2 o2] [u2 p2 h2]].
  unfold Log.toValue; cbn.
  intros H. injection H as Hi Ht Hr Hx Ha Hc Hs Hz Ho Hu Hp Hh. subst.
  assert (a1 = a2) as ->.
  { revert a2 Ha. induction a1 as [|a a1 IH]; intros [|b a2] Ha;
      try discriminate; [reflexivity|].
    simpl in Ha. injection Ha as -> Ha. f_equal. now apply IH. }
  assert (o1 = o2) as ->.
  { destruct o1, o2; try discriminate; [|reflexivity]. now injection Ho as ->. }
  reflexivity.
Qed.

End JsonFacts.

(** ** The wide strings agree with the narrow ones *)
Module WideFacts.









End WideFacts.

(** ** The overlay and the suggestion engine *)
Section SuggestionProperties.

Variable stripAnsi : string -> string.

Lemma refreshLine_state (w : World) (st : Shell) :
  stateOf (_refreshLine stripAnsi w st)
  = if truthy (currentSuggestion st) && (truthy (line st) || bypassRlLine st)
    then set_bypassRlLine false st
    else st.
Proof.
  unfold _refreshLine, bind, get, stateOf; simpl.
  destruct (truthy (currentSuggestion st) && (truthy (line st) || bypassRlLine st));
    simpl; [|reflexivity].
  destruct (startsWith (currentSuggestion st) (line st)); reflexivity.
Qed.

Lemma refreshLine_currentSuggestion (w : World) (st : Shell) :
  currentSuggestion (stateOf (_refreshLine stripAnsi w st)) = currentSuggestion st.
Proof.
  rewrite refreshLine_state.
  destruct (truthy (currentSuggestion st) && (truthy (line st) || bypassRlLine st));
    reflexivity.
Qed.

Lemma updateSuggestion_blank (w : World) (input : string) (st : Shell) :
  blank input = true ->
  updateSuggestion stripAnsi w input st = (tt, set_currentSuggestion "" st, []).
Proof.
  intros B. unfold updateSuggestion. rewrite truthy_trim, B. reflexivity.
Qed.

Lemma updateSuggestion_not_blank (w : World) (input : string) (st : Shell) :
  blank input = false ->
  currentSuggestion (stateOf (updateSuggestion stripAnsi w input st))
  = firstNonEmptyMatch (slice input 0 (cursor st)) (poolsOf st).
Proof.
  intros B. unfold updateSuggestion. rewrite truthy_trim, B. cbn [negb].
  run. rewrite refreshLine_currentSuggestion.
  unfold poolsOf, firstNonEmptyMatch.
  change (fun cmd : string => startsWith (toLowerCase cmd)
            (toLowerCase (slice input 0 (cursor st))))
    with (matchesPrefix (slice input 0 (cursor st))).
  cbn [historicalCommands set_currentSuggestion].
  generalize (findLast (matchesPrefix (slice input 0 (cursor st))) commonCommands).
  generalize (findLast (matchesPrefix (slice input 0 (cursor st)))
                (historicalCommands st)).
  generalize (findLast (matchesPrefix (slice input 0 (cursor st)))
                (currentSessionCommands st)).
  intros [[|a1 c1]|] [[|a2 c2]|] [[|a3 c3]|]; reflexivity.
Qed.

Lemma blank_slice (s : string) (n : nat) :
  blank s = true -> blank (slice s 0 n) = true.
Proof.
  unfold slice. rewrite Nat.sub_0_r. revert n.
  induction s as [|c s IH]; intros [|n] H; simpl in *; try reflexivity.
  apply andb_prop in H as [Hc Hs]. now rewrite Hc, IH.
Qed.

(** A match of a non-empty prefix is a non-empty string. *)
Lemma matchesPrefix_nonempty (prefix c : string) :
  prefix <> "" -> matchesPrefix prefix c = true -> truthy c = true.
Proof.
  intros Hp H. destruct prefix as [|a p]; [congruence|].
  destruct c as [|b c]; [discriminate H | reflexivity].
Qed.

Lemma firstNonEmptyMatch_firstPoolMatch (prefix : string) (pools : list (list string)) :
  prefix <> "" -> firstNonEmptyMatch prefix pools = firstPoolMatch prefix pools.
Proof.
  intros Hp. induction pools as [|pool rest IH]; simpl; [reflexivity|].
  destruct (findLast (matchesPrefix prefix) pool) as [c|] eqn:F; [|exact IH].
  unfold findLast in F. apply find_some_true in F.
  now rewrite (matchesPrefix_nonempty prefix c Hp F).
Qed.

Lemma firstNonEmptyMatch_no_empty_entry (prefix : string) (pools : list (list string)) :
  List.Forall (List.Forall (fun c => c <> "")) pools ->
  firstNonEmptyMatch prefix pools = firstPoolMatch prefix pools.
Proof.
  induction 1 as [|pool rest Hp Hr IH]; simpl; [reflexivity|].
  destruct (findLast (matchesPrefix prefix) pool) as [c|] eqn:F; [|exact IH].
  unfold findLast in F. apply List.find_some in F as [Hin _].
  apply List.in_rev in Hin. rewrite List.Forall_forall in Hp.
  specialize (Hp c Hin). destruct c; [congruence | reflexivity].
Qed.

Lemma commonCommands_not_empty : List.Forall (fun c => c <> "") commonCommands.
Proof. repeat constructor; discriminate. Qed.

(** C1 (as amended).  For a buffer that is not empty or white space only,
    [updateSuggestion] scans the session pool, then the historical pool,
    then the static common commands; each pool gives its last entry whose
    lower-case form starts with the lower-case prefix (the buffer up to
    the cursor), and the suggestion is the first non-empty such result,
    or the empty string when there is none.  When the prefix is not empty,
    or the session and historical pools hold no empty string, this is the
    last match of the first pool that contains a match.  For an empty or
    white-space buffer the suggestion is empty whatever the pools hold.
    With the session history git status, git push origin (pushed in that
    order) the prefix gi yields git push origin. *)
Theorem updateSuggestion_scans_pools_in_order
  (w : World) (input : string) (st : Shell) :
  let prefix := slice input 0 (cursor st) in
  let result := currentSuggestion (stateOf (updateSuggestion stripAnsi w input st)) in
  (blank input = true -> result = "")
  /\ (blank input = false -> result = firstNonEmptyMatch prefix (poolsOf st))
  /\ (blank input = false ->
      prefix <> ""
      \/ (List.Forall (fun c => c <> "") (currentSessionCommands st)
          /\ List.Forall (fun c => c <> "") (historicalCommands st)) ->
      result = firstPoolMatch prefix (poolsOf st))
  /\ (currentSessionCommands st = ["git status"; "git push origin"] ->
      prefix = "gi" -> result = "git push origin").
Proof.
  intros prefix result. subst result.
  split; [|split; [|split]].
  - intros B. now rewrite updateSuggestion_blank.
  - intros B. now apply updateSuggestion_not_blank.
  - intros B H. rewrite updateSuggestion_not_blank by exact B.
    destruct H as [Hp | [Hs Hh]].
    + now apply firstNonEmptyMatch_firstPoolMatch.
    + apply firstNonEmptyMatch_no_empty_entry. unfold poolsOf.
      constructor; [exact Hs|]. constructor; [exact Hh|].
      constructor; [exact commonCommands_not_empty | constructor].
  - intros Hs Hp.
    assert (B : blank input = false).
    { destruct (blank input) eqn:B; [|reflexivity].
      apply (blank_slice input (cursor st)) in B.
      fold prefix in B. rewrite Hp in B. discriminate B. }
    rewrite updateSuggestion_not_blank by exact B.
    fold prefix. rewrite Hp. unfold poolsOf. rewrite Hs. reflexivity.
Qed.

(** C4 (as amended).  The suggestion is computed against the buffer up
    to the cursor: for a buffer that is not empty or white space only it
    is a function of that prefix and the pools, so two such buffers with
    the same prefix get the same suggestion.  It is the whole buffer, not
    the prefix, whose emptiness is tested: when the buffer is empty or
    white space only, the suggestion is set to the empty string and the
    line is not redrawn. *)
Theorem updateSuggestion_matches_prefix_and_guards_buffer
  (w : World) (input : string) (st : Shell) :
  (blank input = false ->
   currentSuggestion (stateOf (updateSuggestion stripAnsi w input st))
   = firstNonEmptyMatch (slice input 0 (cursor st)) (poolsOf st))
  /\ (forall input' : string,
        blank input = false -> blank input' = false ->
        slice input' 0 (cursor st) = slice input 0 (cursor st) ->
        currentSuggestion (stateOf (updateSuggestion stripAnsi w input' st))
        = currentSuggestion (stateOf (updateSuggestion stripAnsi w input st)))
  /\ (blank input = true ->
      updateSuggestion stripAnsi w input st = (tt, set_currentSuggestion "" st, [])).
Proof.
  split; [|split].
  - apply updateSuggestion_not_blank.
  - intros input' B B' E.
    rewrite !updateSuggestion_not_blank by assumption. now rewrite E.
  - apply updateSuggestion_blank.
Qed.

Lemma refreshLine_trace (w : World) (st : Shell) :
  traceOf (_refreshLine stripAnsi w st)
  = if truthy (currentSuggestion st) && (truthy (line st) || bypassRlLine st)
    then overlayTrace stripAnsi w st (startsWith (currentSuggestion st) (line st))
    else [OriginalRefreshLine].
Proof.
  unfold _refreshLine. run.
  destruct (truthy (currentSuggestion st) && (truthy (line st) || bypassRlLine st));
    [|reflexivity].
  run. unfold overlayTrace.
  destruct (startsWith (currentSuggestion st) (line st)); reflexivity.
Qed.


End SuggestionProperties.

Lemma updateSuggestion_scans_pools_in_order_witness :
  let st := set_currentSessionCommands ["git status"; "git push origin"]
              (set_cursor 2 (set_line "gi" freshShell)) in
  blank "gi" = false
  /\ currentSuggestion (stateOf (updateSuggestion plainText calmWorld "gi" st))
     = "git push origin".
Proof.
  split; [reflexivity|].
  apply (updateSuggestion_scans_pools_in_order plainText calmWorld "gi"
           (set_currentSessionCommands ["git status"; "git push origin"]
              (set_cursor 2 (set_line "gi" freshShell)))); reflexivity.
Defined.

(** C1, as stated, fails on a buffer that is empty or white space only:
    every static command starts with the empty prefix, so the scan the
    claim describes ends with the last of them, and the suggestion is
    empty all the same. *)
Lemma updateSuggestion_not_first_pool_match :
  firstPoolMatch (slice "" 0 (cursor freshShell)) (poolsOf freshShell) = "exit"
  /\ currentSuggestion (stateOf (updateSuggestion plainText calmWorld "" freshShell))
     = "".
Proof. split; reflexivity. Qed.

Lemma updateSuggestion_matches_prefix_and_guards_buffer_witness :
  blank "   " = true
  /\ updateSuggestion plainText calmWorld "   " freshShell
     = (tt, set_currentSuggestion "" freshShell, []).
Proof.
  split; [reflexivity|].
  apply (updateSuggestion_matches_prefix_and_guards_buffer plainText calmWorld
           "   " freshShell). reflexivity.
Defined.

(** C4, as stated, fails when the cursor stands at the start of a buffer
    that is not blank: the prefix is empty, and the suggestion is the
    last static command. *)
Lemma updateSuggestion_empty_prefix_suggests :
  let st := set_line "ls" freshShell in
  blank (slice "ls" 0 (cursor st)) = true
  /\ currentSuggestion (stateOf (updateSuggestion plainText calmWorld "ls" st)) = "exit".
Proof. split; reflexivity. Qed.



(** ** The command log as a store of objects *)

Lemma updateAt_last (f : Log.t -> Log.t) (l : list Log.t) (e : Log.t) :
  updateAt (List.length l) f (l ++ [e]) = (l ++ [f e])%list.
Proof. induction l as [|x l IH]; simpl; [reflexivity | now rewrite IH]. Qed.

Lemma nth_error_old {A : Type} (l : list A) (x : A) (r : nat) :
  (r < List.length l)%nat -> List.nth_error (l ++ [x]) r = List.nth_error l r.
Proof. intros H. now apply List.nth_error_app1. Qed.

Lemma nth_error_last {A : Type} (l : list A) (x : A) :
  List.nth_error (l ++ [x]) (List.length l) = Some x.
Proof.
  rewrite List.nth_error_app2 by lia. now rewrite Nat.sub_diag.
Qed.

Lemma derefs_grow (heap : list Log.t) (e : Log.t) (refs : list nat) :
  List.forallb (fun r => (r <? List.length heap)%nat) refs = true ->
  derefs (heap ++ [e]) refs = derefs heap refs.
Proof.
  induction refs as [|r refs IH]; simpl; [reflexivity|].
  intros H. apply andb_prop in H as [Hr Hrs]. apply Nat.ltb_lt in Hr.
  rewrite nth_error_old by exact Hr. now rewrite IH.
Qed.

Lemma derefs_push (heap : list Log.t) (e : Log.t) (refs : list nat) :
  List.forallb (fun r => (r <? List.length heap)%nat) refs = true ->
  derefs (heap ++ [e]) (refs ++ [List.length heap]) = (derefs heap refs ++ [e])%list.
Proof.
  intros H. unfold derefs. rewrite List.flat_map_app. fold (derefs (heap ++ [e]) refs).
  rewrite derefs_grow by exact H. simpl. now rewrite nth_error_last.
Qed.

(** ** The execution engine *)
Section ExecutionProperties.

Variable stripAnsi : string -> string.
Variable chalkRed : string -> string.
Variable chalkGreen : string -> string.
Variable syntaxErrorText : string -> string.

(** Loading a log file that holds the text of a list of entries gives
    the entries back, without a message. *)
Lemma load_persisted (l : list Log.t) :
  loadCommandErrors syntaxErrorText
    (Content (stringify (JArr (List.map Log.toValue l))))
  = (JArr (List.map Log.toValue l), []).
Proof. cbn [loadCommandErrors]. now rewrite JsonFacts.parse_log. Qed.

Lemma runTheCommand_spawns (w : World) (command : string) (st : Shell) :
  spawnThrows w = None ->
  runTheCommand chalkRed w command st
  = (Some (List.length (entries st)),
     set_entries (entries st ++ [logInit w command]) st,
     [Spawn (fst (splitSpace command)) (snd (splitSpace command)) (processCwd w)]).
Proof.
  intros H. unfold runTheCommand. destruct (splitSpace command) as [cmd args].
  unfold bind, alloc, get, modify, ret, emit; simpl. rewrite H. reflexivity.
Qed.

Lemma runTheCommand_throws (w : World) (command : string) (err : JsError) (st : Shell) :
  spawnThrows w = Some err ->
  let e := Log.setExitCode 1 (Log.setError (errMessage err) (logInit w command)) in
  let st1 := set_commandLog (commandLog st ++ [List.length (entries st)])
               (set_entries (entries st ++ [e]) st) in
  runTheCommand chalkRed w command st
  = (None,
     set_errorFile (Content (stringify (logValue st1))) st1,
     [ ConsoleError (chalkRed ("Error executing command: " ++ errToString err));
       SaveOutputToFile (derefs (entries st ++ [e])
                           (commandLog st ++ [List.length (entries st)]));
       Prompt (formatPrompt w) ]).
Proof.
  intros H e st1. subst e st1. unfold runTheCommand.
  destruct (splitSpace command) as [cmd args]. rewrite H.
  unfold alloc, saveOutputToFile, push, prompt, mutate, bind, get, modify, emit, ret.
  destruct st; cbn. rewrite !updateAt_last. reflexivity.
Qed.

(** While the child writes to stderr only its own entry changes. *)
Lemma deliverAll_stderr (w : World) (command : string) (chunks : list string) :
  forall (st : Shell) (heap : list Log.t) (e : Log.t),
    entries st = (heap ++ [e])%list ->
    deliverAll stripAnsi chalkRed w command (List.length heap)
      (List.map StderrData chunks) st
    = (tt, set_entries (heap ++ [withStderr stripAnsi chunks e]) st,
       List.map ConsoleError chunks).
Proof.
  induction chunks as [|d chunks IH]; intros st heap e H.
  - simpl. unfold ret. rewrite <- H. destruct st; reflexivity.
  - cbn [List.map deliverAll deliver]. unfold bind at 1.
    unfold onStderrData at 1, bind, emit, mutate, modify. cbn [fst snd].
    rewrite H, updateAt_last.
    rewrite (IH _ heap (Log.setStderr
                          (Log.stderr (Log.output e) ++ stripAnsi d) e)) by reflexivity.
    destruct st; reflexivity.
Qed.

Lemma deliverAll_app (w : World) (command : string) (r : nat)
  (evs1 evs2 : list ChildEvent) (st : Shell) :
  deliverAll stripAnsi chalkRed w command r (evs1 ++ evs2) st
  = (deliverAll stripAnsi chalkRed w command r evs1 ;;
     deliverAll stripAnsi chalkRed w command r evs2) st.
Proof.
  revert st. induction evs1 as [|ev evs1 IH]; intros st.
  - simpl. unfold bind, ret.
    destruct (deliverAll stripAnsi chalkRed w command r evs2 st) as [[[] s2] t2].
    reflexivity.
  - cbn [List.app deliverAll]. unfold bind.
    destruct (deliver stripAnsi chalkRed w command r ev st) as [[[] s1] t1].
    rewrite IH. unfold bind.
    destruct (deliverAll stripAnsi chalkRed w command r evs1 s1) as [[[] s2] t2].
    destruct (deliverAll stripAnsi chalkRed w command r evs2 s2) as [[[] s3] t3].
    now rewrite List.app_assoc.
Qed.

Lemma deliverAll_one (w : World) (command : string) (r : nat) (ev : ChildEvent)
  (st : Shell) :
  deliverAll stripAnsi chalkRed w command r [ev] st
  = deliver stripAnsi chalkRed w command r ev st.
Proof.
  simpl. unfold bind, ret.
  destruct (deliver stripAnsi chalkRed w command r ev st) as [[[] s1] t1].
  now rewrite List.app_nil_r.
Qed.

(** The close listener, run when the entry of the child is the newest
    object. *)
Lemma onClose_run (w : World) (command : string) (code : option Z)
  (st : Shell) (heap : list Log.t) (e : Log.t) :
  entries st = (heap ++ [e])%list ->
  let e' := Log.setExitCode (orZero code) e in
  let st1 := set_entries (heap ++ [e']) st in
  let st2 := if notZero code
             then let st' := set_commandLog (commandLog st ++ [List.length heap]) st1 in
                  set_errorFile (Content (stringify (logValue st'))) st'
             else st1 in
  onClose w command (List.length heap) code st
  = (tt,
     set_currentSessionCommands (currentSessionCommands st ++ [command])
       (set_historyFile (historyFile st ++ [command]) st2),
     (if notZero code
      then [SaveOutputToFile
              (derefs (heap ++ [e']) (commandLog st ++ [List.length heap]))]
      else [])
     ++ [SaveToHistory command; Prompt (formatPrompt w)])%list.
Proof.
  intros H e' st1 st2. subst e' st1 st2.
  unfold onClose, saveToHistory, saveOutputToFile, push, prompt, mutate,
    bind, get, modify, emit, ret.
  cbn [fst snd]. rewrite H, updateAt_last.
  destruct (notZero code); destruct st; reflexivity.
Qed.

(** The error listener, run when the entry of the child is the newest
    object. *)
Lemma onError_run (w : World) (err : JsError)
  (st : Shell) (heap : list Log.t) (e : Log.t) :
  entries st = (heap ++ [e])%list ->
  let e' := Log.setExitCode 1 (Log.setError (stripAnsi (errMessage err)) e) in
  let st1 := set_commandLog (commandLog st ++ [List.length heap])
               (set_entries (heap ++ [e']) st) in
  onError stripAnsi chalkRed w (List.length heap) err st
  = (tt,
     set_errorFile (Content (stringify (logValue st1))) st1,
     [ ConsoleError (chalkRed (errMessage err));
       SaveOutputToFile (derefs (heap ++ [e']) (commandLog st ++ [List.length heap]));
       Prompt (formatPrompt w) ]).
Proof.
  intros H e' st1. subst e' st1.
  unfold onError, saveOutputToFile, push, prompt, mutate,
    bind, get, modify, emit, ret.
  cbn [fst snd]. rewrite H, !updateAt_last.
  destruct st; cbn. rewrite !updateAt_last. reflexivity.
Qed.

(** A launch whose child writes to stderr and then ends with one more
    event, in terms of the listener of that event. *)
Lemma launch_run (w : World) (command : string) (chunks : list string)
  (last : ChildEvent) (st : Shell) :
  spawnThrows w = None ->
  launch stripAnsi chalkRed w command (List.map StderrData chunks ++ [last]) st
  = let st1 := set_entries
                 (entries st ++ [withStderr stripAnsi chunks (logInit w command)]) st in
    let r := deliver stripAnsi chalkRed w command (List.length (entries st)) last st1 in
    (tt, stateOf r,
     (Spawn (fst (splitSpace command)) (snd (splitSpace command)) (processCwd w)
      :: List.map ConsoleError chunks ++ traceOf r)%list).
Proof.
  intros H. unfold launch, bind at 1. rewrite runTheCommand_spawns by exact H.
  rewrite deliverAll_app. unfold bind.
  rewrite (deliverAll_stderr w command chunks _ (entries st) (logInit w command))
    by reflexivity.
  rewrite deliverAll_one.
  match goal with |- context [deliver _ _ _ _ _ _ ?s] =>
    replace s with (set_entries
                      (entries st ++ [withStderr stripAnsi chunks (logInit w command)]) st)
      by (destruct st; reflexivity)
  end.
  cbv zeta.
  destruct (deliver stripAnsi chalkRed w command (List.length (entries st)) last _)
    as [[[] s2] t2].
  reflexivity.
Qed.



Lemma filter_isFlush_stderr (chunks : list string) (t : list Event) :
  List.filter isFlush (List.map ConsoleError chunks ++ t) = List.filter isFlush t.
Proof. induction chunks as [|d ds IH]; simpl; [reflexivity | exact IH]. Qed.

Lemma logEntries_after_push (st : Shell) (e : Log.t) (st' : Shell) :
  wellFormed st = true ->
  entries st' = (entries st ++ [e])%list ->
  commandLog st' = (commandLog st ++ [List.length (entries st)])%list ->
  logEntries st' = (logEntries st ++ [e])%list.
Proof.
  intros W He Hc. unfold logEntries. rewrite He, Hc. now apply derefs_push.
Qed.


(** The state and the trace of a launch whose child closes. *)
Lemma launch_closed (w : World) (command : string) (chunks : list string)
  (code : option Z) (st : Shell) :
  spawnThrows w = None ->
  let r := launch stripAnsi chalkRed w command
             (List.map StderrData chunks ++ [CloseEvent code]) st in
  let e := Log.setExitCode (orZero code)
             (withStderr stripAnsi chunks (logInit w command)) in
  entries (stateOf r) = (entries st ++ [e])%list
  /\ commandLog (stateOf r)
     = (if notZero code
        then (commandLog st ++ [List.length (entries st)])%list
        else commandLog st)
  /\ errorFile (stateOf r)
     = (if notZero code
        then Content (stringify (JArr (List.map Log.toValue (logEntries (stateOf r)))))
        else errorFile st)
  /\ historyFile (stateOf r) = (historyFile st ++ [command])%list
  /\ traceOf r
     = (Spawn (fst (splitSpace command)) (snd (splitSpace command)) (processCwd w)
        :: List.map ConsoleError chunks
        ++ (if notZero code then [SaveOutputToFile (logEntries (stateOf r))] else [])
        ++ [SaveToHistory command; Prompt (formatPrompt w)])%list.
Proof.
  intros Hs r e. subst r.
  rewrite (launch_run w command chunks (CloseEvent code) st Hs).
  cbv zeta. cbn [deliver].
  rewrite (onClose_run w command code _ (entries st)
             (withStderr stripAnsi chunks (logInit w command))) by reflexivity.
  cbv zeta. fold e. destruct (notZero code); repeat split.
Qed.

(** The state and the trace of a launch that ends with an error event. *)
Lemma launch_errored (w : World) (command : string) (chunks : list string)
  (err : JsError) (st : Shell) :
  spawnThrows w = None ->
  let r := launch stripAnsi chalkRed w command
             (List.map StderrData chunks ++ [ErrorEvent err]) st in
  let e := Log.setExitCode 1
             (Log.setError (stripAnsi (errMessage err))
                (withStderr stripAnsi chunks (logInit w command))) in
  entries (stateOf r) = (entries st ++ [e])%list
  /\ commandLog (stateOf r) = (commandLog st ++ [List.length (entries st)])%list
  /\ errorFile (stateOf r)
     = Content (stringify (JArr (List.map Log.toValue (logEntries (stateOf r)))))
  /\ historyFile (stateOf r) = historyFile st
  /\ traceOf r
     = (Spawn (fst (splitSpace command)) (snd (splitSpace command)) (processCwd w)
        :: List.map ConsoleError chunks
        ++ [ ConsoleError (chalkRed (errMessage err));
             SaveOutputToFile (logEntries (stateOf r));
             Prompt (formatPrompt w) ])%list.
Proof.
  intros Hs r e. subst r.
  rewrite (launch_run w command chunks (ErrorEvent err) st Hs).
  cbv zeta. cbn [deliver].
  rewrite (onError_run w err _ (entries st)
             (withStderr stripAnsi chunks (logInit w command))) by reflexivity.
  cbv zeta. fold e. repeat split.
Qed.

Lemma launch_then (w : World) (command : string) (evs1 evs2 : list ChildEvent)
  (st : Shell) :
  spawnThrows w = None ->
  launch stripAnsi chalkRed w command (evs1 ++ evs2) st
  = (launch stripAnsi chalkRed w command evs1 ;;
     deliverAll stripAnsi chalkRed w command (List.length (entries st)) evs2) st.
Proof.
  intros Hs. unfold launch, bind.
  rewrite (runTheCommand_spawns w command st Hs).
  rewrite deliverAll_app. unfold bind.
  destruct (deliverAll stripAnsi chalkRed w command _ evs1 _) as [[[] s1] t1].
  destruct (deliverAll stripAnsi chalkRed w command _ evs2 s1) as [[[] s2] t2].
  reflexivity.
Qed.

Lemma derefs_app (heap : list Log.t) (a b : list nat) :
  derefs heap (a ++ b) = (derefs heap a ++ derefs heap b)%list.
Proof. unfold derefs. apply List.flat_map_app. Qed.







(** C9.  A close event with a null exit code (the child was ended by a
    signal) records exit code 0 in the entry and still appends the entry
    to the log and rewrites the log file: the entry gets [code || 0],
    while the test for persisting it is [code !== 0] on the raw code. *)
Theorem close_with_null_code_is_persisted
  (w : World) (command : string) (chunks : list string) (st : Shell) :
  spawnThrows w = None ->
  wellFormed st = true ->
  let run := launch stripAnsi chalkRed w command
               (List.map StderrData chunks ++ [CloseEvent None]) st in
  let e := Log.setExitCode 0 (withStderr stripAnsi chunks (logInit w command)) in
  orZero None = 0%Z
  /\ notZero None = true
  /\ Log.exitCode (Log.output e) = 0%Z
  /\ logEntries (stateOf run) = (logEntries st ++ [e])%list
  /\ errorFile (stateOf run)
     = Content (stringify (JArr (List.map Log.toValue (logEntries st ++ [e]))))
  /\ loadCommandErrors syntaxErrorText (errorFile (stateOf run))
     = (JArr (List.map Log.toValue (logEntries st ++ [e])), [])
  /\ List.filter isFlush (traceOf run) = [SaveOutputToFile (logEntries st ++ [e])].
Proof.
  intros Hs W run e.
  destruct (launch_closed w command chunks None st Hs) as (He & Hc & Hf & _ & Ht).
  fold run in He, Hc, Hf, Ht. cbn [orZero notZero] in He, Hc, Hf, Ht. fold e in He.
  assert (L : logEntries (stateOf run) = (logEntries st ++ [e])%list)
    by (now apply logEntries_after_push).
  rewrite L in Hf, Ht.
  repeat (split; [reflexivity|]).
  split; [exact L|]. split; [exact Hf|].
  split; [rewrite Hf; apply load_persisted|].
  rewrite Ht. cbn [List.filter isFlush]. rewrite filter_isFlush_stderr. reflexivity.
Qed.

(** C3.  When the launch raises an error event, the listener records
    the message (without escape sequences) as [output.error], which is
    not empty when that text is not, sets [output.exitCode] to 1, appends
    the entry to the log, rewrites the log file with the whole log, and
    only then issues the next prompt. *)
Theorem error_event_is_logged_then_prompts
  (w : World) (command : string) (chunks : list string) (err : JsError)
  (st : Shell) :
  spawnThrows w = None ->
  wellFormed st = true ->
  stripAnsi (errMessage err) <> "" ->
  let run := launch stripAnsi chalkRed w command
               (List.map StderrData chunks ++ [ErrorEvent err]) st in
  let e := Log.setExitCode 1
             (Log.setError (stripAnsi (errMessage err))
                (withStderr stripAnsi chunks (logInit w command))) in
  (exists m, Log.error (Log.output e) = Some m /\ m <> "")
  /\ Log.exitCode (Log.output e) = 1%Z
  /\ logEntries (stateOf run) = (logEntries st ++ [e])%list
  /\ errorFile (stateOf run)
     = Content (stringify (JArr (List.map Log.toValue (logEntries st ++ [e]))))
  /\ traceOf run
     = (Spawn (fst (splitSpace command)) (snd (splitSpace command)) (processCwd w)
        :: List.map ConsoleError chunks
        ++ [ ConsoleError (chalkRed (errMessage err));
             SaveOutputToFile (logEntries st ++ [e]);
             Prompt (formatPrompt w) ])%list.
Proof.
  intros Hs W Hm run e.
  destruct (launch_errored w command chunks err st Hs) as (He & Hc & Hf & _ & Ht).
  fold run in He, Hc, Hf, Ht. fold e in He.
  assert (L : logEntries (stateOf run) = (logEntries st ++ [e])%list)
    by (now apply logEntries_after_push).
  rewrite L in Hf, Ht.
  split; [exists (stripAnsi (errMessage err)); split; [reflexivity | exact Hm]|].
  split; [reflexivity|]. split; [exact L|]. split; [exact Hf | exact Ht].
Qed.

End ExecutionProperties.

(** ** Command dispatch *)
Section DispatchProperties.

Variable stripAnsi : string -> string.
Variable chalkRed : string -> string.
Variable chalkGreen : string -> string.

(** C10.  [hp] with no argument, when the key check succeeds: the handler
    prints the notice and issues the next prompt, then goes on; the call
    with the empty message returns [undefined] without reaching the
    collaborator; [undefined] is printed, nothing is copied to the
    clipboard, and the next prompt is issued once more. *)
Theorem hp_without_message_prompts_twice (w : World) (st : Shell) :
  valueOf (checkKey w st) = true ->
  splitSpace "hp" = ("hp", [])
  /\ askGemini w hp (Some (joinSpace [])) = None
  /\ askOpenAi w hp (Some (joinSpace [])) = None
  /\ runShellCommand chalkRed chalkGreen w "hp" st
     = (None, stateOf (checkKey w st),
        traceOf (checkKey w st)
        ++ [ ConsoleLog "Hey you did not enter a message.";
             Prompt (formatPrompt w);
             SpinnerStart "Processing data...";
             SpinnerStop;
             ConsoleLog "undefined";
             Prompt (formatPrompt w) ])%list.
Proof.
  intros K. repeat (split; [reflexivity|]).
  unfold runShellCommand. cbn [splitSpace Ascii.eqb Bool.eqb String.eqb].
  unfold bind at 1. unfold valueOf, stateOf, traceOf in *.
  destruct (checkKey w st) as [[ok s1] t1]. cbn [fst snd] in *. subst ok.
  unfold bind, get, emit, prompt, ret; cbn.
  destruct (defaultModel s1); reflexivity.
Qed.

(** The branches [hm] and [hp] test the answer against the sentinel: the
    fixed message is printed and the clipboard is left alone. *)
Lemma hm_hp_render_the_sentinel (w : World) (st : Shell) (command : string)
  (a : string) (args : list string) :
  existsSync (keyFile st) = true ->
  splitSpace command = ("hp", a :: args) ->
  truthy (joinSpace (a :: args)) = true ->
  generateCommandForHm w = sentinel ->
  generateCommandForHmOpenAi w = sentinel ->
  generateCommandForHp w (joinSpace (a :: args)) = sentinel ->
  generateCommandForHpOpenAi w (joinSpace (a :: args)) = sentinel ->
  let shown := [ SpinnerStart "Processing data..."; SpinnerStop;
                 ConsoleLog (unableToProcess w); Prompt (formatPrompt w) ] in
  runShellCommand chalkRed chalkGreen w "hm" st = (None, st, shown)
  /\ runShellCommand chalkRed chalkGreen w command st = (None, st, shown).
Proof.
  intros K S T G1 G2 G3 G4 shown. subst shown. split.
  - unfold runShellCommand. cbn [splitSpace Ascii.eqb Bool.eqb String.eqb].
    unfold checkKey, bind, get, emit, prompt, ret; cbn. rewrite K. cbn.
    destruct (defaultModel st); cbn; rewrite ?G1, ?G2; reflexivity.
  - unfold runShellCommand. rewrite S. cbn [Ascii.eqb Bool.eqb String.eqb].
    unfold checkKey, bind, get, emit, prompt, ret. cbn -[joinSpace String.concat].
    rewrite K. cbn -[joinSpace String.concat].
    destruct (defaultModel st); cbn -[joinSpace String.concat];
      rewrite T, ?G3, ?G4; reflexivity.
Qed.

Lemma checkKey_historyFile (w : World) (st : Shell) :
  historyFile (stateOf (checkKey w st)) = historyFile st.
Proof.
  unfold checkKey. run.
  destruct (existsSync (keyFile st)); [reflexivity|]. run.
  destruct (negb (truthy (trim (apiKeyAnswer w)))); [reflexivity|].
  destruct (apiKeyWriteError w); reflexivity.
Qed.

Lemma reportAnswer_state (w : World) (res : option string) (st : Shell) :
  stateOf (reportAnswer w res st) = st.
Proof.
  unfold reportAnswer.
  destruct res as [s|]; [|reflexivity].
  destruct (String.eqb s sentinel); [reflexivity|]. run.
  destruct (truthy s); reflexivity.
Qed.

(** A first word that is no builtin sends the line to the generic path. *)
Lemma runShellCommand_generic (w : World) (command : string) (st : Shell) :
  ~ List.In (fst (splitSpace command)) builtins ->
  runShellCommand chalkRed chalkGreen w command st = runTheCommand chalkRed w command st.
Proof.
  intros N. unfold runShellCommand.
  destruct (splitSpace command) as [cmd args] eqn:S. cbn [fst] in N.
  assert (F : forall b, List.In b builtins -> String.eqb cmd b = false).
  { intros b Hb. apply String.eqb_neq. intros ->. exact (N Hb). }
  unfold builtins in F.
  rewrite !F by (simpl; auto 12). reflexivity.
Qed.

Lemma execute_generic (w : World) (command : string) (evs : list ChildEvent) (st : Shell) :
  ~ List.In (fst (splitSpace command)) builtins ->
  execute stripAnsi chalkRed chalkGreen w command evs st
  = launch stripAnsi chalkRed w command evs st.
Proof.
  intros N. unfold execute, launch, bind.
  now rewrite runShellCommand_generic.
Qed.

(** The history file after the events of a child: one more line for
    each close event. *)
Lemma deliverAll_historyFile (w : World) (command : string) (r : nat)
  (evs : list ChildEvent) :
  forall st : Shell,
    historyFile (stateOf (deliverAll stripAnsi chalkRed w command r evs st))
    = (historyFile st ++ List.repeat command (closes evs))%list.
Proof.
  induction evs as [|ev evs IH]; intros st; cbn [deliverAll].
  - run. cbn. now rewrite List.app_nil_r.
  - rewrite stateOf_bind, IH. unfold closes.
    destruct ev as [data | err | code]; cbn [deliver List.filter isCloseEvent].
    + unfold onStderrData, mutate. run. reflexivity.
    + unfold onError, saveOutputToFile, push, prompt, mutate. run. reflexivity.
    + unfold onClose, saveToHistory, saveOutputToFile, push, prompt, mutate. run.
      cbn [List.length List.repeat].
      destruct (notZero code); run; cbn [historyFile set_currentSessionCommands
        set_historyFile set_errorFile set_commandLog set_entries];
        now rewrite <- List.app_assoc.
Qed.

(** C6 (as amended).  The raw command string is appended to the history
    file by the builtins [cd] and [cat], and by an externally executed
    command when its child delivers its close event, whatever the exit
    code and whatever came before it (stderr output, an error event):
    the file gains one line for each close event.  The builtins
    [history], [exit], [switchAI], [copy], [hm], [hp] and [he] leave the
    history file as it was. *)
Theorem history_records_cd_cat_and_closed_children
  (w : World) (command : string) (st : Shell) :
  let cmd := fst (splitSpace command) in
  let after evs := historyFile
                     (stateOf (execute stripAnsi chalkRed chalkGreen w command evs st)) in
  (cmd = "cd" \/ cmd = "cat" ->
   forall evs, after evs = (historyFile st ++ [command])%list)
  /\ (List.In cmd unrecordedBuiltins -> forall evs, after evs = historyFile st)
  /\ (~ List.In cmd builtins -> spawnThrows w = None ->
      forall evs,
        after evs = (historyFile st ++ List.repeat command (closes evs))%list)
  /\ (~ List.In cmd builtins -> spawnThrows w = None ->
      forall (before : list ChildEvent) (code : option Z),
        closes before = 0%nat ->
        after (before ++ [CloseEvent code])%list = (historyFile st ++ [command])%list).
Proof.
  intros cmd after. subst cmd after. cbv beta.
  assert (G : ~ List.In (fst (splitSpace command)) builtins -> spawnThrows w = None ->
              forall evs,
                historyFile
                  (stateOf (execute stripAnsi chalkRed chalkGreen w command evs st))
                = (historyFile st ++ List.repeat command (closes evs))%list).
  { intros N Hs evs. rewrite execute_generic by exact N.
    unfold launch. rewrite stateOf_bind.
    rewrite (runTheCommand_spawns chalkRed w command st Hs).
    cbn [valueOf stateOf fst snd]. now rewrite deliverAll_historyFile. }
  split; [|split; [|split]].
  - intros H evs. unfold execute, runShellCommand.
    destruct (splitSpace command) as [cmd args]. cbn [fst] in H.
    destruct H as [-> | ->]; reflexivity.
  - intros H evs. unfold execute, runShellCommand.
    destruct (splitSpace command) as [cmd args]. cbn [fst] in H.
    unfold unrecordedBuiltins in H. simpl in H.
    destruct H as [<-|[<-|[<-|[<-|[<-|[<-|[<-|[]]]]]]]];
      cbn [Ascii.eqb Bool.eqb String.eqb]; run; cbn [valueOf fst snd].
    + reflexivity.
    + reflexivity.
    + destruct (defaultModel st); reflexivity.
    + reflexivity.
    + destruct (valueOf (checkKey w st)) eqn:K; run;
        rewrite ?reportAnswer_state; run; apply checkKey_historyFile.
    + destruct (valueOf (checkKey w st)) eqn:K; run.
      * destruct (List.length args =? 0)%nat; run;
          rewrite ?reportAnswer_state; run; apply checkKey_historyFile.
      * apply checkKey_historyFile.
    + reflexivity.
  - exact G.
  - intros N Hs before code Z. rewrite (G N Hs). unfold closes in *.
    rewrite List.filter_app, List.length_app, Z. reflexivity.
Qed.

End DispatchProperties.

(** ** The references of the log stay valid *)
Section Invariant.

Variable stripAnsi : string -> string.
Variable chalkRed : string -> string.
Variable chalkGreen : string -> string.

Lemma updateAt_length (r : nat) (f : Log.t -> Log.t) (l : list Log.t) :
  List.length (updateAt r f l) = List.length l.
Proof.
  revert r. induction l as [|e l IH]; intros [|r]; simpl; auto.
Qed.

Lemma extends_refl (st : Shell) : extends st st.
Proof.
  split; [lia|]. exists []. now rewrite List.app_nil_r.
Qed.

Lemma forallb_lt_mono (n m : nat) (l : list nat) :
  (n <= m)%nat ->
  List.forallb (fun r => (r <? n)%nat) l = true ->
  List.forallb (fun r => (r <? m)%nat) l = true.
Proof.
  intros L H. rewrite List.forallb_forall in *. intros r Hr.
  specialize (H r Hr). apply Nat.ltb_lt in H. apply Nat.ltb_lt. lia.
Qed.

Lemma extends_trans (a b c : Shell) : extends a b -> extends b c -> extends a c.
Proof.
  intros (L1 & p1 & C1 & F1) (L2 & p2 & C2 & F2).
  split; [lia|]. exists (p1 ++ p2)%list. split.
  - now rewrite C2, C1, List.app_assoc.
  - rewrite List.forallb_app, F2, andb_true_r.
    now apply (forallb_lt_mono (List.length (entries b))).
Qed.

Lemma extends_wellFormed (st st' : Shell) :
  extends st st' -> wellFormed st = true -> wellFormed st' = true.
Proof.
  unfold wellFormed. intros (L & p & C & F) W.
  rewrite C, List.forallb_app, F, andb_true_r.
  now apply (forallb_lt_mono (List.length (entries st))).
Qed.

(** A state that differs from [st] outside the store and the array. *)
Lemma extends_same (st st' : Shell) :
  entries st' = entries st -> commandLog st' = commandLog st -> extends st st'.
Proof.
  intros E C. split; [rewrite E; lia|]. exists []. now rewrite C, List.app_nil_r.
Qed.

Lemma checkKey_store (w : World) (st : Shell) :
  entries (stateOf (checkKey w st)) = entries st
  /\ commandLog (stateOf (checkKey w st)) = commandLog st.
Proof.
  unfold checkKey. run.
  destruct (existsSync (keyFile st)); [split; reflexivity|]. run.
  destruct (negb (truthy (trim (apiKeyAnswer w)))); [split; reflexivity|].
  destruct (apiKeyWriteError w); split; reflexivity.
Qed.

Lemma runTheCommand_extends (w : World) (command : string) (st : Shell) :
  let r := runTheCommand chalkRed w command st in
  extends st (stateOf r)
  /\ forall child, valueOf r = Some child ->
                   (child < List.length (entries (stateOf r)))%nat.
Proof.
  unfold runTheCommand. destruct (splitSpace command) as [cmd args].
  destruct (spawnThrows w) as [err|] eqn:T.
  - unfold bind, alloc, mutate, push, saveOutputToFile, prompt, get, modify, emit, ret.
    cbn. split; [|discriminate].
    split; cbn; [rewrite !updateAt_length, List.length_app; lia|].
    exists [List.length (entries st)]. split; [reflexivity|].
    cbn. rewrite !updateAt_length, List.length_app, andb_true_r.
    apply Nat.ltb_lt. simpl. lia.
  - unfold bind, alloc, get, modify, emit, ret. cbn. split.
    + split; cbn; [rewrite List.length_app; lia|].
      exists []. now rewrite List.app_nil_r.
    + intros child H. injection H as <-. rewrite List.length_app. simpl. lia.
Qed.

Lemma runShellCommand_extends (w : World) (command : string) (st : Shell) :
  let r := runShellCommand chalkRed chalkGreen w command st in
  extends st (stateOf r)
  /\ forall child, valueOf r = Some child ->
                   (child < List.length (entries (stateOf r)))%nat.
Proof.
  cbv zeta.
  destruct (List.in_dec string_dec (fst (splitSpace command)) builtins) as [B | N];
    [|rewrite runShellCommand_generic by exact N; apply runTheCommand_extends].
  unfold runShellCommand. destruct (splitSpace command) as [cmd args].
  cbn [fst] in B. unfold builtins in B. simpl in B.
  pose proof (checkKey_store w st) as (KE & KC).
  destruct B as [<-|[<-|[<-|[<-|[<-|[<-|[<-|[<-|[<-|[]]]]]]]]]];
    cbn [Ascii.eqb Bool.eqb String.eqb];
    (split; [apply extends_same | ]); run; cbn [valueOf fst snd];
    try reflexivity; try discriminate;
    try (destruct (defaultModel st); reflexivity);
    try (destruct (valueOf (checkKey w st)); run;
         try (destruct (List.length args =? 0)%nat; run);
         rewrite ?reportAnswer_state; run; assumption).
Qed.

Lemma deliver_extends (w : World) (command : string) (r : nat) (ev : ChildEvent)
  (st : Shell) :
  (r < List.length (entries st))%nat ->
  extends st (stateOf (deliver stripAnsi chalkRed w command r ev st)).
Proof.
  intros R. destruct ev as [data | err | code]; cbn [deliver].
  - unfold onStderrData, mutate. run.
    split; cbn; [rewrite updateAt_length; lia|].
    exists []. now rewrite List.app_nil_r.
  - unfold onError, saveOutputToFile, push, prompt, mutate. run.
    split; cbn; [rewrite !updateAt_length; lia|].
    exists [r]. split; [reflexivity|].
    cbn. rewrite !updateAt_length, andb_true_r. now apply Nat.ltb_lt.
  - unfold onClose, saveToHistory, saveOutputToFile, push, prompt, mutate. run.
    destruct (notZero code); run.
    + split; cbn; [rewrite !updateAt_length; lia|].
      exists [r]. split; [reflexivity|].
      cbn. rewrite !updateAt_length, andb_true_r. now apply Nat.ltb_lt.
    + split; cbn; [rewrite !updateAt_length; lia|].
      exists []. now rewrite List.app_nil_r.
Qed.

Lemma deliverAll_extends (w : World) (command : string) (r : nat)
  (evs : list ChildEvent) :
  forall st : Shell,
    (r < List.length (entries st))%nat ->
    extends st (stateOf (deliverAll stripAnsi chalkRed w command r evs st)).
Proof.
  induction evs as [|ev evs IH]; intros st R; cbn [deliverAll].
  - apply extends_refl.
  - rewrite stateOf_bind.
    pose proof (deliver_extends w command r ev st R) as E.
    eapply extends_trans; [exact E|]. apply IH.
    destruct E as [L _]. lia.
Qed.

(** Every command line, whatever its child does, leaves the references
    of the log valid. *)
Lemma execute_wellFormed (w : World) (command : string) (evs : list ChildEvent)
  (st : Shell) :
  wellFormed st = true ->
  wellFormed (stateOf (execute stripAnsi chalkRed chalkGreen w command evs st)) = true.
Proof.
  apply extends_wellFormed. unfold execute. rewrite stateOf_bind.
  destruct (runShellCommand_extends w command st) as (E & C).
  destruct (valueOf (runShellCommand chalkRed chalkGreen w command st)) as [child|].
  - eapply extends_trans; [exact E|]. apply deliverAll_extends. now apply C.
  - exact E.
Qed.

Lemma freshShell_wellFormed : wellFormed freshShell = true.
Proof. reflexivity. Qed.

End Invariant.

(** ** The log file *)
Section LogFileProperties.

Variable stripAnsi : string -> string.
Variable chalkRed : string -> string.
Variable syntaxErrorText : string -> string.

(** The state a failing command leaves: one more object, one more
    reference, and a log file that holds the whole log. *)
Lemma launch_close_nonzero (w : World) (command : string) (chunks : list string)
  (c : Z) (st : Shell) :
  spawnThrows w = None -> c <> 0%Z ->
  let st' := stateOf (launch stripAnsi chalkRed w command
                        (List.map StderrData chunks ++ [CloseEvent (Some c)]) st) in
  let e := Log.setExitCode c (withStderr stripAnsi chunks (logInit w command)) in
  entries st' = (entries st ++ [e])%list
  /\ commandLog st' = (commandLog st ++ [List.length (entries st)])%list
  /\ errorFile st' = Content (stringify (JArr (List.map Log.toValue (logEntries st')))).
Proof.
  intros Hs Hc st' e.
  destruct (launch_closed stripAnsi chalkRed w command chunks (Some c) st Hs)
    as (He & Hl & Hf & _).
  cbn [orZero notZero] in He, Hl, Hf. apply Z.eqb_neq in Hc.
  rewrite Hc in Hl, Hf. auto.
Qed.

Lemma wellFormed_after_push (st st' : Shell) (e : Log.t) :
  wellFormed st = true ->
  entries st' = (entries st ++ [e])%list ->
  commandLog st' = (commandLog st ++ [List.length (entries st)])%list ->
  wellFormed st' = true.
Proof.
  unfold wellFormed. intros W He Hc. rewrite He, Hc, List.forallb_app.
  rewrite List.length_app. cbn [List.length List.forallb].
  apply andb_true_intro. split.
  - rewrite List.forallb_forall in *. intros r Hr. specialize (W r Hr).
    apply Nat.ltb_lt in W. apply Nat.ltb_lt. lia.
  - rewrite andb_true_r. apply Nat.ltb_lt. lia.
Qed.

(** A session of failing commands: the log grows by one entry per
    command, and the log file always holds the whole log. *)
Lemma runJobs_failing (jobs : list Job) :
  List.Forall failing jobs ->
  forall st : Shell,
    wellFormed st = true ->
    let st' := stateOf (runJobs stripAnsi chalkRed jobs st) in
    wellFormed st' = true
    /\ logEntries st' = (logEntries st ++ List.map (jobEntry stripAnsi) jobs)%list
    /\ (jobs <> [] ->
        errorFile st' = Content (stringify (JArr (List.map Log.toValue (logEntries st'))))).
Proof.
  induction 1 as [|j jobs [Hs Hc] Hj IH]; intros st W.
  - cbn [runJobs List.map]. cbv zeta. rewrite List.app_nil_r.
    split; [exact W | split; [reflexivity | congruence]].
  - cbn [runJobs]. cbv zeta. rewrite stateOf_bind.
    destruct (launch_close_nonzero (jobWorld j) (jobCommand j) (jobStderr j)
                (jobCode j) st Hs Hc) as (He & Hl & Hf).
    set (st1 := stateOf (launch stripAnsi chalkRed (jobWorld j) (jobCommand j)
                           (List.map StderrData (jobStderr j)
                            ++ [CloseEvent (Some (jobCode j))]) st)) in *.
    assert (W1 : wellFormed st1 = true)
      by (eapply wellFormed_after_push; eauto).
    assert (L1 : logEntries st1 = (logEntries st ++ [jobEntry stripAnsi j])%list)
      by (eapply logEntries_after_push; eauto).
    destruct (IH st1 W1) as (W2 & L2 & F2).
    split; [exact W2|]. split.
    + rewrite L2, L1, <- List.app_assoc. reflexivity.
    + intros _. destruct jobs as [|j2 jobs]; [|apply F2; discriminate].
      cbn. exact Hf.
Qed.

(** C8 (as amended).  A session of failing commands followed by a load of
    the log file gives back every entry, field by field: the loaded value
    is the array of the entries the log held, the old ones followed by one
    per command; more generally the text written for any list of entries
    is read back as that list, and an entry is determined by its fields.
    When the log file is missing, loading yields the empty log and logs
    nothing; when it exists and cannot be read or parsed, loading yields
    the empty log and the failure is written to the console, without
    ending the program. *)
Theorem log_file_reloads_what_was_persisted
  (jobs : list Job) (st : Shell) (l : list Log.t) (why data : string) :
  (List.Forall failing jobs -> jobs <> [] -> wellFormed st = true ->
   let st' := stateOf (runJobs stripAnsi chalkRed jobs st) in
   logEntries st' = (logEntries st ++ List.map (jobEntry stripAnsi) jobs)%list
   /\ loadCommandErrors syntaxErrorText (errorFile st')
      = (JArr (List.map Log.toValue
                 (logEntries st ++ List.map (jobEntry stripAnsi) jobs)), []))
  /\ loadCommandErrors syntaxErrorText
       (Content (stringify (JArr (List.map Log.toValue l))))
     = (JArr (List.map Log.toValue l), [])
  /\ (forall l' : list Log.t,
        List.map Log.toValue l' = List.map Log.toValue l -> l' = l)
  /\ loadCommandErrors syntaxErrorText Absent = (JArr [], [])
  /\ loadCommandErrors syntaxErrorText (Unreadable why)
     = (JArr [], [ConsoleError ("Error loading command history: " ++ why)])
  /\ (parse data = None ->
      loadCommandErrors syntaxErrorText (Content data)
      = (JArr [],
         [ConsoleError ("Error loading command history: " ++ syntaxErrorText data)])).
Proof.
  repeat match goal with |- _ /\ _ => split end.
  - intros F N W st'.
    destruct (runJobs_failing jobs F st W) as (_ & L & E). fold st' in L, E.
    split; [exact L|].
    rewrite (E N), L. cbn [loadCommandErrors].
    now rewrite JsonFacts.parse_log.
  - cbn [loadCommandErrors]. now rewrite JsonFacts.parse_log.
  - intros l'. revert l. induction l' as [|e' l' IH]; intros [|e l] H;
      try discriminate; [reflexivity|].
    cbn [List.map] in H.
    pose proof (f_equal (@List.hd value JNull) H) as He.
    pose proof (f_equal (@List.tl value) H) as Hl.
    cbn [List.hd List.tl] in He, Hl.
    f_equal; [now apply JsonFacts.toValue_injective | now apply IH].
  - reflexivity.
  - reflexivity.
  - intros H. cbn [loadCommandErrors]. now rewrite H.
Qed.

End LogFileProperties.

(** ** Further properties of the line editor and the engine *)
Section FurtherProperties.

Variable stripAnsi : string -> string.
Variable chalkRed : string -> string.

(** X1.  When the most recently added session entry is not empty and
    matches the prefix of a buffer that is not blank, it is the
    suggestion, whatever the historical and static pools hold. *)
Theorem latest_session_match_wins
  (w : World) (input : string) (st : Shell) (older : list string) (latest : string) :
  blank input = false ->
  currentSessionCommands st = (older ++ [latest])%list ->
  matchesPrefix (slice input 0 (cursor st)) latest = true ->
  truthy latest = true ->
  currentSuggestion (stateOf (updateSuggestion stripAnsi w input st)) = latest.
Proof.
  intros B S Hm T. rewrite updateSuggestion_not_blank by exact B.
  unfold poolsOf. cbn [firstNonEmptyMatch]. unfold findLast at 1.
  rewrite S, List.rev_app_distr. cbn [List.rev List.app List.find].
  now rewrite Hm, T.
Qed.

(** X2.  Tab with a suggestion present: the buffer becomes the suggestion,
    the cursor moves to its end, the suggestion is cleared and marked as
    accepted, the line is redrawn by readline's own render, and no
    recomputation is scheduled. *)
Theorem tab_accepts_the_suggestion (w : World) (st : Shell) :
  truthy (currentSuggestion st) = true ->
  let r := keypress stripAnsi w (Some "tab") st in
  line (stateOf r) = currentSuggestion st
  /\ cursor (stateOf r) = String.length (currentSuggestion st)
  /\ currentSuggestion (stateOf r) = ""
  /\ suggestionAccepted (stateOf r) = true
  /\ valueOf r = false
  /\ traceOf r = [OriginalRefreshLine].
Proof.
  intros T. unfold keypress. cbn [String.eqb Ascii.eqb Bool.eqb].
  unfold _refreshLine, bind, get, modify, emit, ret. cbn. rewrite T.
  repeat split.
Qed.

(** X3.  After an accepted suggestion, a navigation or deletion key clears
    the suggestion and the mark, redraws, and schedules no recomputation;
    without the mark it changes nothing. *)
Theorem navigation_after_accept_clears
  (w : World) (st : Shell) (name : string) :
  List.In name ["left"; "right"; "backspace"; "delete"] ->
  let r := keypress stripAnsi w (Some name) st in
  valueOf r = false
  /\ (suggestionAccepted st = true ->
      currentSuggestion (stateOf r) = ""
      /\ suggestionAccepted (stateOf r) = false
      /\ line (stateOf r) = line st /\ cursor (stateOf r) = cursor st
      /\ traceOf r = [OriginalRefreshLine])
  /\ (suggestionAccepted st = false -> stateOf r = st /\ traceOf r = []).
Proof.
  intros H. simpl in H.
  destruct H as [<-|[<-|[<-|[<-|[]]]]];
    unfold keypress; cbn [String.eqb Ascii.eqb Bool.eqb andb orb negb];
    unfold _refreshLine, bind, get, modify, emit, ret; cbn;
    destruct (suggestionAccepted st); cbn;
    (split; [reflexivity | split; [intros E | intros E]; try discriminate E;
                           repeat split; now destruct st]).
Qed.

(** X4.  Escape dismisses the suggestion: it is cleared, the buffer and
    the cursor are left alone and the line is redrawn by readline's own
    render; a Tab that follows accepts nothing: it leaves the state as it
    is and is handled as an ordinary key. *)
Theorem escape_dismisses_the_suggestion (w : World) (st : Shell) :
  let r := keypress stripAnsi w (Some "escape") st in
  currentSuggestion (stateOf r) = ""
  /\ line (stateOf r) = line st
  /\ cursor (stateOf r) = cursor st
  /\ valueOf r = false
  /\ traceOf r = [OriginalRefreshLine]
  /\ keypress stripAnsi w (Some "tab") (stateOf r) = (true, stateOf r, []).
Proof.
  unfold keypress. cbn [String.eqb Ascii.eqb Bool.eqb andb].
  unfold _refreshLine, bind, get, modify, emit, ret. cbn. repeat split.
Qed.


(** X6.  When [spawn] itself throws, the entry gets the message of the
    exception and exit code 1, is appended to the log, the whole log is
    handed to [saveOutputToFile], and the next prompt is issued; no child
    exists, so no listener will run. *)
Theorem spawn_exception_is_logged_then_prompts
  (w : World) (command : string) (err : JsError) (st : Shell) :
  spawnThrows w = Some err ->
  wellFormed st = true ->
  let r := runTheCommand chalkRed w command st in
  let e := Log.setExitCode 1 (Log.setError (errMessage err) (logInit w command)) in
  valueOf r = None
  /\ logEntries (stateOf r) = (logEntries st ++ [e])%list
  /\ traceOf r
     = [ ConsoleError (chalkRed ("Error executing command: " ++ errToString err));
         SaveOutputToFile (logEntries st ++ [e]);
         Prompt (formatPrompt w) ].
Proof.
  intros T W r e. subst r.
  rewrite (runTheCommand_throws chalkRed w command err st T). cbv zeta. fold e.
  assert (L : forall s' : Shell,
             entries s' = (entries st ++ [e])%list ->
             commandLog s' = (commandLog st ++ [List.length (entries st)])%list ->
             logEntries s' = (logEntries st ++ [e])%list)
    by (intros s'; now apply logEntries_after_push).
  split; [reflexivity|]. split; [apply L; reflexivity|].
  rewrite <- (L (set_commandLog (commandLog st ++ [List.length (entries st)])
                   (set_entries (entries st ++ [e]) st))) by reflexivity.
  reflexivity.
Qed.

(** X7.  Whichever way a launch ends (a close event, an error event, or an
    exception of [spawn]), the next prompt is issued exactly once. *)
Theorem launch_prompts_exactly_once
  (w : World) (command : string) (chunks : list string) (last : ChildEvent) (st : Shell) :
  (forall data, last <> StderrData data) ->
  List.length
    (List.filter isPrompt
       (traceOf (launch stripAnsi chalkRed w command
                   (List.map StderrData chunks ++ [last]) st))) = 1%nat.
Proof.
  intros Hlast.
  assert (F : forall t, List.filter isPrompt (List.map ConsoleError chunks ++ t)
                        = List.filter isPrompt t).
  { intros t. induction chunks as [|d ds IH]; simpl; [reflexivity | exact IH]. }
  destruct (spawnThrows w) as [err|] eqn:T.
  - unfold launch, bind.
    rewrite (runTheCommand_throws chalkRed w command err st T). reflexivity.
  - rewrite (launch_run stripAnsi chalkRed w command chunks last st T). cbv zeta.
    unfold traceOf at 1. cbn [snd List.filter isPrompt]. rewrite F.
    destruct last as [data | err | code]; cbn [deliver].
    + exfalso. exact (Hlast data eq_refl).
    + rewrite (onError_run stripAnsi chalkRed w err _ (entries st)
                 (withStderr stripAnsi chunks (logInit w command))) by reflexivity.
      reflexivity.
    + rewrite (onClose_run w command code _ (entries st)
                 (withStderr stripAnsi chunks (logInit w command))) by reflexivity.
      cbv zeta. destruct (notZero code); reflexivity.
Qed.

End FurtherProperties.

(** ** More about the suggestion engine and the overlay *)
Section SuggestionSoundness.

Variable stripAnsi : string -> string.

Lemma findLast_some (p : string -> bool) (l : list string) (c : string) :
  findLast p l = Some c -> List.In c l /\ p c = true.
Proof.
  unfold findLast. intros H. apply List.find_some in H as [Hin Hp].
  split; [now apply List.in_rev | exact Hp].
Qed.

Lemma findLast_none (p : string -> bool) (l : list string) (c : string) :
  findLast p l = None -> List.In c l -> p c = false.
Proof.
  unfold findLast. intros H Hin.
  apply (List.find_none p (List.rev l) H). now apply List.in_rev in Hin.
Qed.

(** What the scan returns is empty, or an entry of one of the pools
    that matches the prefix. *)
Lemma firstNonEmptyMatch_sound (prefix : string) (pools : list (list string)) :
  let s := firstNonEmptyMatch prefix pools in
  s = "" \/ (List.In s (List.concat pools) /\ matchesPrefix prefix s = true).
Proof.
  induction pools as [|pool rest IH]; cbn [firstNonEmptyMatch List.concat];
    [now left|].
  destruct (findLast (matchesPrefix prefix) pool) as [c|] eqn:F.
  - destruct (truthy c) eqn:T.
    + right. apply findLast_some in F as [Hin Hp].
      split; [apply List.in_or_app; now left | exact Hp].
    + destruct IH as [E | [Hin Hp]]; [now left | right].
      split; [apply List.in_or_app; now right | exact Hp].
  - destruct IH as [E | [Hin Hp]]; [now left | right].
    split; [apply List.in_or_app; now right | exact Hp].
Qed.

(** X8.  The suggestion is never invented: when it is not empty it is an
    entry of the session pool, of the historical pool or of the static
    list, and its lower-case form starts with the lower-case form of the
    buffer up to the cursor. *)
Theorem suggestion_is_a_matching_pool_entry
  (w : World) (input : string) (st : Shell) :
  let s := currentSuggestion (stateOf (updateSuggestion stripAnsi w input st)) in
  s = ""
  \/ (List.In s (currentSessionCommands st ++ historicalCommands st ++ commonCommands)
      /\ startsWith (toLowerCase s) (toLowerCase (slice input 0 (cursor st))) = true).
Proof.
  cbv zeta. destruct (blank input) eqn:B.
  - left. now rewrite (updateSuggestion_blank stripAnsi w input st B).
  - rewrite (updateSuggestion_not_blank stripAnsi w input st B).
    destruct (firstNonEmptyMatch_sound (slice input 0 (cursor st)) (poolsOf st))
      as [E | [Hin Hp]]; [now left | right].
    split; [|exact Hp].
    unfold poolsOf in Hin. cbn [List.concat] in Hin.
    now rewrite List.app_nil_r in Hin.
Qed.

Lemma firstNonEmptyMatch_last_pool (prefix : string) (pools : list (list string))
  (pool : list string) (c : string) :
  List.Forall (fun x => x <> "") pool ->
  List.In c pool -> matchesPrefix prefix c = true ->
  truthy (firstNonEmptyMatch prefix (pools ++ [pool])) = true.
Proof.
  intros Hne Hin Hp.
  induction pools as [|p rest IH]; cbn [List.app firstNonEmptyMatch].
  - destruct (findLast (matchesPrefix prefix) pool) as [x|] eqn:F.
    + apply findLast_some in F as [Hx _].
      rewrite List.Forall_forall in Hne. specialize (Hne x Hx).
      destruct x; [congruence | reflexivity].
    + rewrite (findLast_none _ _ c F Hin) in Hp. discriminate Hp.
  - destruct (findLast (matchesPrefix prefix) p) as [x|]; [|exact IH].
    destruct (truthy x) eqn:T; [exact T | exact IH].
Qed.

(** X9.  Whenever a static command matches the text before the cursor of a
    buffer that is not blank, some suggestion is shown: the static list is
    the fallback of the two learned pools. *)
Theorem matching_static_command_gives_a_suggestion
  (w : World) (input : string) (st : Shell) (c : string) :
  blank input = false ->
  List.In c commonCommands ->
  matchesPrefix (slice input 0 (cursor st)) c = true ->
  truthy (currentSuggestion (stateOf (updateSuggestion stripAnsi w input st))) = true.
Proof.
  intros B Hin Hp. rewrite (updateSuggestion_not_blank stripAnsi w input st B).
  unfold poolsOf.
  apply (firstNonEmptyMatch_last_pool _
           [currentSessionCommands st; historicalCommands st] commonCommands c);
    [exact commonCommands_not_empty | exact Hin | exact Hp].
Qed.

Lemma substring_all (s : string) : substring 0 (String.length s) s = s.
Proof. induction s as [|c s IH]; simpl; [reflexivity | now rewrite IH]. Qed.

(** The typed part and the completion of a string the line is a prefix
    of, cut at a cursor inside the line. *)
Lemma slice_sliceFrom (sugg ln : string) (n : nat) :
  startsWith sugg ln = true -> (n <= String.length ln)%nat ->
  slice ln 0 n ++ sliceFrom sugg n = sugg
  /\ String.length (slice ln 0 n) = n.
Proof.
  unfold startsWith, slice, sliceFrom. rewrite Nat.sub_0_r.
  revert sugg ln. induction n as [|n IH]; intros sugg ln P L.
  - rewrite Nat.sub_0_r, substring_all. destruct ln; split; reflexivity.
  - destruct ln as [|a ln]; [simpl in L; lia|].
    destruct sugg as [|b sugg]; [discriminate P|].
    simpl in P. destruct (ascii_dec a b) as [->|]; [|discriminate P].
    simpl in L. destruct (IH sugg ln P ltac:(lia)) as [E1 E2].
    cbn [String.length Nat.sub substring append]. split.
    + f_equal. exact E1.
    + f_equal. exact E2.
Qed.

(** X10.  When the render draws the dim completion, what stands on the
    line is the suggestion: the typed text up to the cursor followed by
    the dim text is the suggestion itself, and the cursor is put back
    right after the typed text.  (The cursor of readline never lies beyond
    the end of the line.) *)
Theorem overlay_line_reads_as_the_suggestion (w : World) (st : Shell) :
  truthy (currentSuggestion st) && (truthy (line st) || bypassRlLine st) = true ->
  startsWith (currentSuggestion st) (line st) = true ->
  (cursor st <= String.length (line st))%nat ->
  exists typed ghost : string,
    traceOf (_refreshLine stripAnsi w st)
    = [ StdoutWrite clearLine;
        StdoutWrite (formatPrompt w);
        StdoutWrite typed;
        StdoutWrite (DIM ++ ghost ++ RESET);
        CursorTo (String.length (stripAnsi (formatPrompt w)) + String.length typed) ]
    /\ typed ++ ghost = currentSuggestion st.
Proof.
  intros C S L.
  exists (slice (line st) 0 (cursor st)), (sliceFrom (currentSuggestion st) (cursor st)).
  destruct (slice_sliceFrom (currentSuggestion st) (line st) (cursor st) S L) as [E1 E2].
  split; [|exact E1].
  rewrite (refreshLine_trace stripAnsi w st), C, S, E2. reflexivity.
Qed.

(** X11.  A key that schedules a recomputation does nothing else; Return
    does nothing at all; Tab without a suggestion is an ordinary key. *)
Theorem keypress_schedules_without_side_effect
  (w : World) (name : option string) (st : Shell) :
  let r := keypress stripAnsi w name st in
  (valueOf r = true -> stateOf r = st /\ traceOf r = [])
  /\ (name = Some "return" -> r = (false, st, []))
  /\ (name = Some "tab" -> truthy (currentSuggestion st) = false -> r = (true, st, []))
  /\ (name = None -> r = (true, st, [])).
Proof.
  cbv zeta. split; [|split; [|split]].
  - unfold keypress. run. destruct name as [n|]; cbn [andb orb negb].
    + destruct (String.eqb n "tab" && truthy (currentSuggestion st));
        [run; intros H; discriminate H|].
      destruct (String.eqb n "escape"); [run; intros H; discriminate H|].
      destruct (String.eqb n "left" || String.eqb n "right"
                || String.eqb n "backspace" || String.eqb n "delete");
        [run; intros H; discriminate H|].
      destruct (negb (String.eqb n "return")); run;
        [split; reflexivity | intros H; discriminate H].
    + run. split; reflexivity.
  - intros ->. reflexivity.
  - intros -> T. unfold keypress, bind, get. cbn [String.eqb Ascii.eqb Bool.eqb].
    rewrite T. reflexivity.
  - intros ->. reflexivity.
Qed.

End SuggestionSoundness.

(** ** The start-up code *)
Section StartUp.

Lemma splitNewline_oneLine (s : string) :
  oneLine (fst (splitNewline s)) = true
  /\ List.forallb oneLine (snd (splitNewline s)) = true.
Proof.
  induction s as [|c s [IH1 IH2]]; [split; reflexivity|].
  cbn [splitNewline]. destruct (splitNewline s) as [h t]. cbn [fst snd] in *.
  destruct (Ascii.eqb c LF) eqn:E; cbn [fst snd oneLine List.forallb].
  - now rewrite IH1, IH2.
  - now rewrite E, IH1, IH2.
Qed.

Lemma splitNewline_append (p rest : string) :
  oneLine p = true ->
  splitNewline (p ++ rest)
  = (p ++ fst (splitNewline rest), snd (splitNewline rest)).
Proof.
  induction p as [|c p IH]; intros H.
  - simpl. now destruct (splitNewline rest).
  - cbn [oneLine] in H. apply andb_prop in H as [Hc Hp].
    apply negb_true_iff in Hc.
    cbn [append splitNewline]. rewrite (IH Hp), Hc. reflexivity.
Qed.

Lemma splitNewline_concat (p : string) (ps : list string) :
  List.Forall (fun c => oneLine c = true) (p :: ps) ->
  splitNewline (String.concat (String LF "") (p :: ps)) = (p, ps).
Proof.
  revert p. induction ps as [|q ps IH]; intros p H.
  - cbn [String.concat]. inversion H as [|x l Hp _]; subst.
    rewrite <- (JsonFacts.append_empty p) at 1.
    rewrite (splitNewline_append p "" Hp). cbn [splitNewline fst snd].
    now rewrite JsonFacts.append_empty.
  - inversion H as [|x l Hp Hps]; subst.
    change (String.concat (String LF "") (p :: q :: ps))
      with (p ++ String LF (String.concat (String LF "") (q :: ps))).
    rewrite (splitNewline_append p _ Hp).
    cbn [splitNewline Ascii.eqb Bool.eqb LF]. rewrite (IH q Hps).
    cbn [fst snd]. now rewrite JsonFacts.append_empty.
Qed.

Lemma concat_terminated (sep p : string) (ps : list string) :
  String.concat sep ((p :: ps) ++ [""]) = String.concat sep (p :: ps) ++ sep.
Proof.
  revert p. induction ps as [|q ps IH]; intros p.
  - cbn [List.app String.concat]. now rewrite JsonFacts.append_empty.
  - change (String.concat sep ((p :: q :: ps) ++ [""]))
      with (p ++ sep ++ String.concat sep ((q :: ps) ++ [""])).
    rewrite IH.
    change (String.concat sep (p :: q :: ps))
      with (p ++ sep ++ String.concat sep (q :: ps)).
    now rewrite !JsonFacts.append_assoc.
Qed.

Lemma filter_truthy_all (l : list string) :
  List.Forall (fun c => c <> "") l -> List.filter truthy l = l.
Proof.
  induction 1 as [|c l Hc _ IH]; [reflexivity|].
  cbn [List.filter]. destruct c; [congruence|]. cbn [truthy]. now rewrite IH.
Qed.

(** X12.  The history file is read back line by line: for commands that
    hold no line feed, the text that separates them by line feeds, and the
    text that ends each of them with a line feed, load as the commands
    that are not empty, in order; when none is empty, as the commands
    themselves. *)
Theorem history_load_gives_back_the_lines (commands : list string) :
  List.Forall (fun c => oneLine c = true) commands ->
  let text := String.concat (String LF "") commands in
  loadHistory (Content text) = (List.filter truthy commands, [])
  /\ loadHistory (Content (text ++ String LF "")) = (List.filter truthy commands, [])
  /\ (List.Forall (fun c => c <> "") commands ->
      loadHistory (Content text) = (commands, [])).
Proof.
  intros H text. subst text.
  assert (A : loadHistory (Content (String.concat (String LF "") commands))
              = (List.filter truthy commands, [])).
  { destruct commands as [|p ps]; [reflexivity|].
    cbn [loadHistory]. now rewrite (splitNewline_concat p ps H). }
  split; [exact A|]. split.
  - destruct commands as [|p ps]; [reflexivity|].
    rewrite <- concat_terminated. cbn [loadHistory List.app].
    rewrite (splitNewline_concat p (ps ++ [""])).
    + change (p :: ps ++ [""])%list with ((p :: ps) ++ [""])%list.
      rewrite List.filter_app. cbn [List.filter truthy]. now rewrite List.app_nil_r.
    + change (p :: ps ++ [""])%list with ((p :: ps) ++ [""])%list.
      apply List.Forall_app. split; [exact H | repeat constructor].
  - intros N. now rewrite A, filter_truthy_all.
Qed.

(** X13.  Whatever the history file holds, no loaded command is empty and
    none holds a line feed; a missing file gives no command and no
    message, and a file that was read gives no message either. *)
Theorem loaded_history_has_no_empty_entry (file : File) :
  List.Forall (fun c => c <> "" /\ oneLine c = true) (fst (loadHistory file))
  /\ (existsSync file = false -> loadHistory file = ([], []))
  /\ (forall data : string, file = Content data -> snd (loadHistory file) = []).
Proof.
  split; [|split].
  - destruct file as [|why|data]; cbn [loadHistory fst]; try constructor.
    pose proof (splitNewline_oneLine data) as [H1 H2].
    destruct (splitNewline data) as [h t]. cbn [fst snd] in *.
    apply List.Forall_forall. intros c Hc.
    apply List.filter_In in Hc as [Hin T].
    split; [now destruct c|].
    destruct Hin as [<-|Hin]; [exact H1|].
    rewrite List.forallb_forall in H2. now apply H2.
  - destruct file; [reflexivity | discriminate | discriminate].
  - intros data ->. cbn [loadHistory]. now destruct (splitNewline data).
Qed.

Lemma length_repeatString (n : nat) : String.length (repeatString " " n) = n.
Proof. induction n as [|n IH]; simpl; [reflexivity | now rewrite IH]. Qed.

(** X14.  Centring never cuts the text and never overflows: the text is
    kept whole behind the padding; when it fits the width, so does the
    centred line, and the space left on the right is the padding or one
    more; a text as wide as the width, or wider (the difference may then
    be negative), comes back unchanged. *)
Theorem centerText_fits_the_width (text : string) (width : Z) :
  let len := Z.of_nat (String.length text) in
  let out := centerText text width in
  let padding := (Z.of_nat (String.length out) - len)%Z in
  (exists pad : string, out = pad ++ text /\ String.length pad = Z.to_nat padding)
  /\ ((len <= width)%Z ->
      (Z.of_nat (String.length out) <= width)%Z
      /\ (0 <= (width - Z.of_nat (String.length out)) - padding <= 1)%Z)
  /\ ((width <= len + 1)%Z -> out = text).
Proof.
  intros len out padding. subst out padding. unfold centerText. fold len.
  set (p := Z.max 0 ((width - len) / 2)).
  assert (L : Z.of_nat (String.length (repeatString " " (Z.to_nat p) ++ text)) = (p + len)%Z).
  { rewrite JsonFacts.length_append, length_repeatString, Nat2Z.inj_add.
    rewrite Z2Nat.id by (subst p; lia). reflexivity. }
  rewrite L. split; [|split].
  - exists (repeatString " " (Z.to_nat p)). split; [reflexivity|].
    rewrite length_repeatString. f_equal. lia.
  - intros F. subst p. pose proof (Z.div_mod (width - len) 2 ltac:(lia)) as D.
    pose proof (Z.mod_pos_bound (width - len) 2 ltac:(lia)) as B. lia.
  - intros F. assert (p = 0%Z) as ->.
    { subst p. pose proof (Z.div_mod (width - len) 2 ltac:(lia)) as D.
      pose proof (Z.mod_pos_bound (width - len) 2 ltac:(lia)) as B. lia. }
    reflexivity.
Qed.

End StartUp.

(** ** The key check and the assistant commands *)
Section AssistantProperties.

Variable chalkRed : string -> string.
Variable chalkGreen : string -> string.

Lemma set_keyFile_same (st : Shell) : set_keyFile (keyFile st) st = st.
Proof. now destruct st. Qed.

(** The four ways through [checkKey]. *)
Lemma checkKey_run (w : World) (st : Shell) :
  checkKey w st
  = if existsSync (keyFile st) then (true, st, [])
    else
      let asked := [ ConsoleLog "⟨ ×︵× ⟩ API key not found.";
                     AskApiKey "⟨ ◠︰◠ ⟩ Please enter your API key: " ] in
      if truthy (trim (apiKeyAnswer w)) then
        match apiKeyWriteError w with
        | None =>
            (true,
             set_keyFile
               (Content (stringify (JObj [("gemini_apiKey",
                                           JStr (trim (apiKeyAnswer w)))]))) st,
             (asked ++ [ConsoleLog "⟨ ◠︶◠ ⟩ API key saved successfully!"])%list)
        | Some err =>
            (false, st,
             (asked ++ [ConsoleErrorWith "⟨ ⊗︵⊗ ⟩ Error saving API key:" err])%list)
        end
      else (false, st,
            (asked ++ [ConsoleLog "⟨ ×︵× ⟩ API key cannot be empty"])%list).
Proof.
  unfold checkKey, bind, get, modify, emit, ret. cbv zeta.
  destruct (existsSync (keyFile st)); [reflexivity|].
  cbn [fst snd List.app].
  destruct (truthy (trim (apiKeyAnswer w))); cbn [negb]; [|reflexivity].
  destruct (apiKeyWriteError w); reflexivity.
Qed.


(** X15.  A [true] from [checkKey] means that a key file exists when it
    returns, and the key file is the only thing [checkKey] may change.  A
    blank answer is refused before anything is written: the answer is
    [false] and nothing has changed.  The file is never looked into: any
    existing key file, whatever it holds (an empty or cut-off text, a file
    that cannot be read), makes [checkKey] answer [true] at once, without
    a question. *)
Theorem checkKey_true_means_a_key_file_exists (w : World) (st : Shell) :
  let r := checkKey w st in
  (valueOf r = true -> existsSync (keyFile (stateOf r)) = true)
  /\ stateOf r = set_keyFile (keyFile (stateOf r)) st
  /\ (existsSync (keyFile st) = false -> blank (apiKeyAnswer w) = true ->
      valueOf r = false /\ stateOf r = st)
  /\ (keyFile st <> Absent -> r = (true, st, [])).
Proof.
  cbv zeta. rewrite checkKey_run. split; [|split; [|split]].
  - destruct (existsSync (keyFile st)) eqn:K; [intros _; exact K|].
    cbv zeta. destruct (truthy (trim (apiKeyAnswer w))); [|discriminate].
    destruct (apiKeyWriteError w); [discriminate | reflexivity].
  - destruct (existsSync (keyFile st)) eqn:K;
      [cbn [stateOf fst snd]; now rewrite set_keyFile_same|].
    cbv zeta. destruct (truthy (trim (apiKeyAnswer w)));
      [|cbn [stateOf fst snd]; now rewrite set_keyFile_same].
    destruct (apiKeyWriteError w); cbn [stateOf fst snd];
      [now rewrite set_keyFile_same | now destruct st].
  - intros K B. rewrite K. cbv zeta. rewrite truthy_trim, B. split; reflexivity.
  - intros N. destruct (keyFile st); [congruence | reflexivity | reflexivity].
Qed.

(** X16.  Once [checkKey] has answered [true], every later call answers
    [true] at once: it asks nothing, prints nothing and changes nothing,
    whatever the user would type. *)
Theorem checkKey_asks_only_until_a_key_is_stored (w : World) (st : Shell) :
  valueOf (checkKey w st) = true ->
  forall w' : World,
    checkKey w' (stateOf (checkKey w st)) = (true, stateOf (checkKey w st), []).
Proof.
  intros T w'.
  assert (K : existsSync (keyFile (stateOf (checkKey w st))) = true).
  { revert T. rewrite checkKey_run.
    destruct (existsSync (keyFile st)) eqn:K; [intros _; exact K|].
    cbv zeta. destruct (truthy (trim (apiKeyAnswer w))); [|discriminate].
    destruct (apiKeyWriteError w); [discriminate | reflexivity]. }
  rewrite (checkKey_run w'), K. reflexivity.
Qed.

(** X17.  A first key: when no key file exists, the answer is not blank
    and the file can be written, the file holds the JSON text of an object
    whose only property [gemini_apiKey] is the answer without the white
    space around it: reading the text gives that object back. *)
Theorem checkKey_stores_the_trimmed_answer (w : World) (st : Shell) :
  existsSync (keyFile st) = false ->
  blank (apiKeyAnswer w) = false ->
  apiKeyWriteError w = None ->
  let r := checkKey w st in
  valueOf r = true
  /\ exists text : string,
       keyFile (stateOf r) = Content text
       /\ parse text = Some (JObj [("gemini_apiKey", JStr (trim (apiKeyAnswer w)))])
       /\ trim (apiKeyAnswer w) <> "".
Proof.
  intros K B E. cbv zeta. rewrite checkKey_run, K. cbv zeta.
  rewrite truthy_trim, B, E. cbn [negb valueOf stateOf fst snd].
  split; [reflexivity|].
  exists (stringify (JObj [("gemini_apiKey", JStr (trim (apiKeyAnswer w)))])).
  split; [reflexivity|]. split; [apply JsonFacts.parse_stringify|].
  pose proof (truthy_trim (apiKeyAnswer w)) as T. rewrite B in T.
  intros Z. rewrite Z in T. discriminate T.
Qed.



(** X20.  [switchAI] flips the provider and touches nothing else: the
    provider after it is the other one, and a second [switchAI] brings the
    shell back to the state it had; each time one line is printed and the
    next prompt is issued once. *)
Theorem switchAI_toggles_the_provider (w : World) (command : string) (st : Shell) :
  fst (splitSpace command) = "switchAI" ->
  let r := runShellCommand chalkRed chalkGreen w command st in
  defaultModel (stateOf r) <> defaultModel st
  /\ stateOf r = set_defaultModel (defaultModel (stateOf r)) st
  /\ stateOf (runShellCommand chalkRed chalkGreen w command (stateOf r)) = st
  /\ valueOf r = None
  /\ exists text : string,
       traceOf r = [ConsoleLog (chalkGreen text); Prompt (formatPrompt w)].
Proof.
  intros C. cbv zeta. unfold runShellCommand.
  destruct (splitSpace command) as [cmd args]. cbn [fst] in C. subst cmd.
  cbn [String.eqb Ascii.eqb Bool.eqb].
  unfold bind, get, modify, emit, prompt, ret.
  destruct st as [l c s b a ses his m e cl hf ef kf].
  destruct m; cbn; (split; [discriminate|]); repeat (split; [reflexivity|]);
    eexists; reflexivity.
Qed.

(** X21.  No builtin starts a child.  [exit] closes the interface,
    issues no prompt and changes nothing.  The builtins that await no
    provider ([cd], [history], [cat], [switchAI] and [copy]) issue the
    next prompt exactly once, as the last thing they do.  (Nothing is
    said here of [hm], [hp] and [he]: their prompt comes after the
    provider has answered.) *)
Theorem builtins_without_a_provider_end_with_one_prompt
  (w : World) (command : string) (st : Shell) :
  List.In (fst (splitSpace command)) builtins ->
  let r := runShellCommand chalkRed chalkGreen w command st in
  valueOf r = None
  /\ (fst (splitSpace command) = "exit" -> r = (None, st, [RlClose]))
  /\ (List.In (fst (splitSpace command)) ["cd"; "history"; "cat"; "switchAI"; "copy"] ->
      exists t : list Event,
        traceOf r = (t ++ [Prompt (formatPrompt w)])%list
        /\ List.filter isPrompt t = []).
Proof.
  intros B. cbv zeta. unfold runShellCommand.
  destruct (splitSpace command) as [cmd args]. cbn [fst] in B.
  unfold builtins in B. simpl in B.
  destruct B as [<-|[<-|[<-|[<-|[<-|[<-|[<-|[<-|[<-|[]]]]]]]]]];
    cbn [fst String.eqb Ascii.eqb Bool.eqb].
  - split; [reflexivity|]. split; [discriminate|]. intros _.
    eexists [_; _]. split; reflexivity.
  - split; [reflexivity|]. split; [discriminate|]. intros _.
    eexists [_]. split; reflexivity.
  - split; [reflexivity|]. split; [discriminate|]. intros _.
    eexists [_; _]. split; reflexivity.
  - split; [reflexivity|]. split; [reflexivity|].
    simpl. intuition discriminate.
  - split; [|split; [discriminate|intros _]].
    + run. now destruct (defaultModel st).
    + unfold prompt. run. destruct (defaultModel st); eexists [_]; split; reflexivity.
  - split; [reflexivity|]. split; [discriminate|]. intros _.
    eexists [_]. split; reflexivity.
  - split; [now run|]. split; [discriminate|]. simpl. intuition discriminate.
  - split; [now run|]. split; [discriminate|]. simpl. intuition discriminate.
  - split; [reflexivity|]. split; [discriminate|]. simpl. intuition discriminate.
Qed.

(** X22.  A line with no first word (the empty line, or a line that starts
    with a space) is no builtin, whatever follows the space: it goes to
    the generic path, which creates a log entry with an empty executable
    for it. *)
Theorem line_without_first_word_is_launched
  (w : World) (command : string) (st : Shell) :
  command = "" \/ startsWith command " " = true ->
  fst (splitSpace command) = ""
  /\ runShellCommand chalkRed chalkGreen w command st
     = runTheCommand chalkRed w command st
  /\ Log.executable (Log.command (logInit w command)) = ""
  /\ entries (stateOf (runShellCommand chalkRed chalkGreen w command st))
     <> entries st.
Proof.
  intros H.
  assert (E : fst (splitSpace command) = "").
  { destruct H as [-> | H]; [reflexivity|].
    destruct command as [|c r]; [reflexivity|].
    apply (startsWith_cons c " "%char r "") in H as [-> _].
    cbn [splitSpace Ascii.eqb Bool.eqb]. now destruct (splitSpace r). }
  assert (G : runShellCommand chalkRed chalkGreen w command st
              = runTheCommand chalkRed w command st).
  { apply runShellCommand_generic. rewrite E. simpl. intuition discriminate. }
  split; [exact E|]. split; [exact G|]. split.
  - unfold logInit. destruct (splitSpace command) as [cmd args]. exact E.
  - rewrite G. intros Z. apply (f_equal (@List.length Log.t)) in Z. revert Z.
    unfold runTheCommand. destruct (splitSpace command) as [cmd args].
    destruct (spawnThrows w);
      unfold bind, alloc, mutate, push, saveOutputToFile, prompt, get, modify,
        emit, ret; cbn; rewrite ?updateAt_length, List.length_app; simpl; lia.
Qed.

End AssistantProperties.

(** ** More about the execution engine and the log *)
Section EngineProperties.

Variable stripAnsi : string -> string.
Variable chalkRed : string -> string.
Variable chalkGreen : string -> string.

Lemma joinSpace_splitSpace (s : string) :
  joinSpace (fst (splitSpace s) :: snd (splitSpace s)) = s.
Proof.
  unfold joinSpace. induction s as [|c s IH]; [reflexivity|].
  cbn [splitSpace]. destruct (splitSpace s) as [h t]. cbn [fst snd] in IH.
  destruct (Ascii.eqb c " ") eqn:E; cbn [fst snd].
  - apply Ascii.eqb_eq in E. subst c.
    change (String.concat " " ("" :: h :: t)) with (" " ++ String.concat " " (h :: t)).
    now rewrite IH.
  - destruct t as [|x t]; [cbn [String.concat] in *; now rewrite IH|].
    change (String.concat " " (String c h :: x :: t))
      with (String c (h ++ " " ++ String.concat " " (x :: t))).
    change (String.concat " " (h :: x :: t))
      with (h ++ " " ++ String.concat " " (x :: t)) in IH.
    now rewrite IH.
Qed.

Lemma splitSpace_oneWord (s : string) :
  List.forallb oneWord (fst (splitSpace s) :: snd (splitSpace s)) = true.
Proof.
  induction s as [|c s IH]; [reflexivity|].
  cbn [splitSpace]. destruct (splitSpace s) as [h t]. cbn [fst snd] in *.
  destruct (Ascii.eqb c " ") eqn:E; cbn [fst snd List.forallb oneWord] in *.
  - exact IH.
  - now rewrite E.
Qed.

(** X23.  The entry of a command rebuilds it: the executable and the
    arguments, none of which holds a space, joined by single spaces are
    the raw line, whatever the line is.  The entry starts with an empty
    stderr, exit code 0 and no error, its shell is never empty, and the
    child is spawned with the executable, the arguments and the directory
    the entry records. *)
Theorem logInit_rebuilds_the_command (w : World) (command : string) (st : Shell) :
  let e := logInit w command in
  let c := Log.command e in
  joinSpace (Log.executable c :: Log.arguments c) = command
  /\ Log.raw c = command
  /\ List.forallb oneWord (Log.executable c :: Log.arguments c) = true
  /\ Log.output e = Log.mkOutput "" 0 None
  /\ Log.shell (Log.metadata e) <> ""
  /\ (spawnThrows w = None ->
      traceOf (runTheCommand chalkRed w command st)
      = [Spawn (Log.executable c) (Log.arguments c) (Log.cwd c)]).
Proof.
  cbv zeta.
  pose proof (joinSpace_splitSpace command) as J.
  pose proof (splitSpace_oneWord command) as O.
  pose proof (runTheCommand_spawns chalkRed w command st) as R.
  unfold logInit. destruct (splitSpace command) as [cmd args].
  cbn [fst snd Log.command Log.executable Log.arguments Log.raw Log.output
       Log.metadata Log.shell Log.cwd] in *.
  repeat (split; [assumption || reflexivity|]). split.
  - destruct (envSHELL w) as [sh|]; [|discriminate].
    destruct sh; cbn [truthy]; discriminate.
  - intros H. now rewrite (R H).
Qed.

Lemma concat_empty_cons (x : string) (l : list string) :
  String.concat "" (x :: l) = x ++ String.concat "" l.
Proof.
  destruct l as [|y l]; cbn [String.concat];
    [now rewrite JsonFacts.append_empty | reflexivity].
Qed.

Lemma withStderr_stderr (chunks : list string) (e : Log.t) :
  Log.stderr (Log.output (withStderr stripAnsi chunks e))
  = Log.stderr (Log.output e) ++ String.concat "" (List.map stripAnsi chunks).
Proof.
  unfold withStderr. revert e.
  induction chunks as [|d chunks IH]; intros e.
  - cbn. now rewrite JsonFacts.append_empty.
  - cbn [List.fold_left List.map]. rewrite IH, concat_empty_cons.
    cbn [Log.setStderr Log.output Log.stderr]. now rewrite JsonFacts.append_assoc.
Qed.

(** X24.  What a child writes to stderr is echoed as it comes and logged
    without escape sequences: when the child closes, the stderr of its
    entry is the concatenation of the stripped chunks in the order of
    arrival, and the console got the raw chunks right after the spawn. *)
Theorem stderr_is_echoed_raw_and_logged_stripped
  (w : World) (command : string) (chunks : list string) (code : option Z) (st : Shell) :
  spawnThrows w = None ->
  let run := launch stripAnsi chalkRed w command
               (List.map StderrData chunks ++ [CloseEvent code]) st in
  (exists e : Log.t,
     List.nth_error (entries (stateOf run)) (List.length (entries st)) = Some e
     /\ Log.stderr (Log.output e) = String.concat "" (List.map stripAnsi chunks)
     /\ Log.exitCode (Log.output e) = orZero code)
  /\ exists rest : list Event,
       traceOf run
       = (Spawn (fst (splitSpace command)) (snd (splitSpace command)) (processCwd w)
          :: List.map ConsoleError chunks ++ rest)%list.
Proof.
  intros Hs run.
  destruct (launch_closed stripAnsi chalkRed w command chunks code st Hs)
    as (He & _ & _ & _ & Ht).
  fold run in He, Ht. split.
  - eexists. rewrite He, nth_error_last. split; [reflexivity|]. split; [|reflexivity].
    cbn [Log.setExitCode Log.output Log.stderr]. rewrite withStderr_stderr.
    unfold logInit. destruct (splitSpace command). reflexivity.
  - eexists. exact Ht.
Qed.

(** X25.  The entry object is shared between the log and the listeners:
    when a close event follows an error event of the same child, the exit
    code 1 of the entry already in the log is replaced by the code of the
    close ([0] for [null]), and when that code is not [0] the same entry
    is in the log a second time; the next prompt is issued twice. *)
Theorem close_after_error_rewrites_the_logged_entry
  (w : World) (command : string) (chunks : list string) (err : JsError)
  (code : option Z) (st : Shell) :
  spawnThrows w = None ->
  wellFormed st = true ->
  let evs := (List.map StderrData chunks ++ [ErrorEvent err])%list in
  let logged := Log.setExitCode 1
                  (Log.setError (stripAnsi (errMessage err))
                     (withStderr stripAnsi chunks (logInit w command))) in
  let final := Log.setExitCode (orZero code) logged in
  let run := launch stripAnsi chalkRed w command (evs ++ [CloseEvent code]) st in
  logEntries (stateOf (launch stripAnsi chalkRed w command evs st))
  = (logEntries st ++ [logged])%list
  /\ logEntries (stateOf run)
     = (logEntries st ++ (if notZero code then [final; final] else [final]))%list
  /\ List.length (List.filter isPrompt (traceOf run)) = 2%nat.
Proof.
  intros Hs W evs logged final run.
  destruct (launch_errored stripAnsi chalkRed w command chunks err st Hs)
    as (He & Hc & _ & _ & Ht).
  fold evs logged in He, Hc, Ht.
  split; [now apply (logEntries_after_push st logged)|].
  subst run. rewrite (launch_then stripAnsi chalkRed w command evs [CloseEvent code] st Hs).
  rewrite stateOf_bind, traceOf_bind, deliverAll_one. cbn [deliver].
  set (s1 := stateOf (launch stripAnsi chalkRed w command evs st)) in *.
  rewrite (onClose_run w command code s1 (entries st) logged He).
  cbv zeta. fold final. split.
  - unfold logEntries, wellFormed in *.
    destruct (notZero code);
      cbn [stateOf fst snd entries commandLog set_currentSessionCommands
           set_historyFile set_errorFile set_commandLog set_entries];
      rewrite Hc, !derefs_app, (derefs_grow _ _ _ W); unfold derefs at 2;
      cbn [List.flat_map]; rewrite nth_error_last.
    + unfold derefs. cbn [List.flat_map]. rewrite nth_error_last.
      now rewrite <- List.app_assoc.
    + reflexivity.
  - rewrite Ht. cbn [traceOf snd]. rewrite List.filter_app. cbn [List.filter isPrompt].
    rewrite !List.filter_app.
    assert (F : forall l, List.filter isPrompt (List.map ConsoleError l) = [])
      by (induction l as [|x l IH]; [reflexivity | exact IH]).
    rewrite F. destruct (notZero code); reflexivity.
Qed.

End EngineProperties.

(** ** What the engine never does *)
Section EngineInvariants.

Variable stripAnsi : string -> string.
Variable chalkRed : string -> string.
Variable chalkGreen : string -> string.

Lemma nth_error_updateAt_other (r r' : nat) (f : Log.t -> Log.t) (l : list Log.t) :
  r' <> r -> List.nth_error (updateAt r f l) r' = List.nth_error l r'.
Proof.
  revert r r'. induction l as [|e l IH]; intros [|r] [|r'] N; simpl;
    try reflexivity; try congruence.
  apply IH. congruence.
Qed.

Lemma nth_error_updateAt_same (r : nat) (f : Log.t -> Log.t) (l : list Log.t) :
  List.nth_error (updateAt r f l) r = option_map f (List.nth_error l r).
Proof.
  revert r. induction l as [|e l IH]; intros [|r]; simpl; try reflexivity.
  apply IH.
Qed.

Lemma sameIdentity_refl (e : Log.t) : sameIdentity e e.
Proof. repeat split. Qed.

Lemma sameIdentity_trans (a b c : Log.t) :
  sameIdentity a b -> sameIdentity b c -> sameIdentity a c.
Proof.
  unfold sameIdentity. intros (A1 & A2 & A3 & A4) (B1 & B2 & B3 & B4).
  repeat split; congruence.
Qed.

(** What one event of a child does to the store of objects. *)
Lemma deliver_store (w : World) (command : string) (r : nat) (ev : ChildEvent)
  (st : Shell) :
  exists f : Log.t -> Log.t,
    entries (stateOf (deliver stripAnsi chalkRed w command r ev st))
    = updateAt r f (entries st)
    /\ forall e : Log.t, sameIdentity e (f e).
Proof.
  destruct ev as [data | err | code]; cbn [deliver].
  - exists (fun e => Log.setStderr (Log.stderr (Log.output e) ++ stripAnsi data) e).
    split; [|intros e; repeat split].
    unfold onStderrData, mutate. run. reflexivity.
  - exists (fun e => Log.setExitCode 1 (Log.setError (stripAnsi (errMessage err)) e)).
    split; [|intros e; repeat split].
    unfold onError, saveOutputToFile, push, prompt, mutate. run.
    cbn [entries set_errorFile set_commandLog set_entries].
    generalize (entries st) r. clear.
    induction l as [|e l IH]; intros [|r]; simpl; try reflexivity.
    now rewrite IH.
  - exists (Log.setExitCode (orZero code)).
    split; [|intros e; repeat split].
    unfold onClose, saveToHistory, saveOutputToFile, push, prompt, mutate. run.
    destruct (notZero code); run; reflexivity.
Qed.

(** X26.  The events of a child reach its own entry only: whatever the
    child does, no entry object is added or dropped, every other entry
    stays as it was, and of its own entry only the output changes: the id,
    the time stamp, the command and the metadata are those of the launch. *)
Theorem child_events_change_only_the_output_of_their_entry
  (w : World) (command : string) (r : nat) (evs : list ChildEvent) (st : Shell) :
  let st' := stateOf (deliverAll stripAnsi chalkRed w command r evs st) in
  List.length (entries st') = List.length (entries st)
  /\ (forall r' : nat, r' <> r ->
        List.nth_error (entries st') r' = List.nth_error (entries st) r')
  /\ (forall e : Log.t, List.nth_error (entries st) r = Some e ->
        exists e' : Log.t,
          List.nth_error (entries st') r = Some e' /\ sameIdentity e e').
Proof.
  revert st. induction evs as [|ev evs IH]; intros st; cbn [deliverAll]; cbv zeta.
  - run. split; [reflexivity|]. split; [reflexivity|].
    intros e H. exists e. split; [exact H | apply sameIdentity_refl].
  - rewrite stateOf_bind.
    destruct (deliver_store w command r ev st) as (f & E & K).
    set (s1 := stateOf (deliver stripAnsi chalkRed w command r ev st)) in *.
    destruct (IH s1) as (L & O & S). split; [|split].
    + rewrite L, E. apply updateAt_length.
    + intros r' N. rewrite (O r' N), E. now apply nth_error_updateAt_other.
    + intros e H.
      destruct (S (f e)) as (e' & H' & I').
      { rewrite E, nth_error_updateAt_same, H. reflexivity. }
      exists e'. split; [exact H'|].
      eapply sameIdentity_trans; [apply K | exact I'].
Qed.

Lemma execute_extends (w : World) (command : string) (evs : list ChildEvent)
  (st : Shell) :
  extends st (stateOf (execute stripAnsi chalkRed chalkGreen w command evs st)).
Proof.
  unfold execute. rewrite stateOf_bind.
  destruct (runShellCommand_extends chalkRed chalkGreen w command st) as (E & C).
  destruct (valueOf (runShellCommand chalkRed chalkGreen w command st)) as [child|].
  - eapply extends_trans; [exact E|]. apply deliverAll_extends. now apply C.
  - exact E.
Qed.

Lemma session_extends (lines : list (World * string * list ChildEvent)) :
  forall st : Shell,
    extends st (stateOf (session stripAnsi chalkRed chalkGreen lines st)).
Proof.
  induction lines as [|[[w command] evs] rest IH]; intros st; cbn [session].
  - apply extends_refl.
  - rewrite stateOf_bind. eapply extends_trans; [apply execute_extends | apply IH].
Qed.

(** X27.  The command log only grows, and its references never dangle:
    after any sequence of command lines, whatever their children do, the
    array holds the references it held, in the same order, followed by new
    ones, every reference names an existing entry object, and no entry
    object was dropped.  This holds in particular from the start of the
    shell on. *)
Theorem command_log_only_grows
  (lines : list (World * string * list ChildEvent)) (st : Shell) :
  wellFormed st = true ->
  let st' := stateOf (session stripAnsi chalkRed chalkGreen lines st) in
  wellFormed st' = true
  /\ (exists pushed : list nat, commandLog st' = (commandLog st ++ pushed)%list)
  /\ (List.length (entries st) <= List.length (entries st'))%nat
  /\ (List.length (logEntries st') = List.length (commandLog st'))%nat.
Proof.
  intros W st'. pose proof (session_extends lines st) as E. fold st' in E.
  assert (W' : wellFormed st' = true) by (now apply (extends_wellFormed st)).
  split; [exact W'|]. destruct E as (L & pushed & C & _).
  split; [now exists pushed|]. split; [exact L|].
  unfold logEntries, wellFormed in *. revert W'.
  generalize (commandLog st') (entries st'). clear.
  intros refs heap. induction refs as [|r refs IH]; [reflexivity|].
  cbn [List.forallb]. intros H. apply andb_prop in H as [Hr Hrs].
  apply Nat.ltb_lt in Hr. unfold derefs in *. cbn [List.flat_map List.length].
  destruct (List.nth_error heap r) eqn:N;
    [|apply List.nth_error_None in N; lia].
  cbn [List.app List.length]. f_equal. now apply IH.
Qed.

End EngineInvariants.

(** ** What is recorded, and what reaches the clipboard *)
Section RecordingProperties.

Variable stripAnsi : string -> string.
Variable chalkRed : string -> string.
Variable chalkGreen : string -> string.

Lemma repeat_add {A : Type} (x : A) (n m : nat) :
  List.repeat x (n + m) = (List.repeat x n ++ List.repeat x m)%list.
Proof. induction n as [|n IH]; simpl; [reflexivity | now rewrite IH]. Qed.

Lemma checkKey_records_nothing (w : World) (st : Shell) :
  currentSessionCommands (stateOf (checkKey w st)) = currentSessionCommands st
  /\ List.filter isSaveToHistory (traceOf (checkKey w st)) = [].
Proof.
  rewrite checkKey_run. destruct (existsSync (keyFile st)); [split; reflexivity|].
  cbv zeta. destruct (truthy (trim (apiKeyAnswer w))); [|split; reflexivity].
  destruct (apiKeyWriteError w); split; reflexivity.
Qed.

Lemma reportAnswer_records_nothing (w : World) (res : option string) (st : Shell) :
  List.filter isSaveToHistory (traceOf (reportAnswer w res st)) = [].
Proof.
  unfold reportAnswer. destruct res as [s|]; [|reflexivity].
  destruct (String.eqb s sentinel); [reflexivity|]. run.
  destruct (truthy s); reflexivity.
Qed.

(** What one command line records before its child says anything. *)
Lemma runShellCommand_records (w : World) (command : string) (st : Shell) :
  let r := runShellCommand chalkRed chalkGreen w command st in
  exists n : nat,
    currentSessionCommands (stateOf r)
    = (currentSessionCommands st ++ List.repeat command n)%list
    /\ List.filter isSaveToHistory (traceOf r)
       = List.repeat (SaveToHistory command) n.
Proof.
  cbv zeta.
  destruct (List.in_dec string_dec (fst (splitSpace command)) builtins) as [B | N].
  - unfold runShellCommand. destruct (splitSpace command) as [cmd args].
    cbn [fst] in B. unfold builtins in B. simpl in B.
    pose proof (checkKey_records_nothing w st) as (KS & KT).
    destruct B as [<-|[<-|[<-|[<-|[<-|[<-|[<-|[<-|[<-|[]]]]]]]]]];
      cbn [Ascii.eqb Bool.eqb String.eqb].
    + exists 1%nat. split; reflexivity.
    + exists 0%nat. split; [|reflexivity]. cbn. now rewrite List.app_nil_r.
    + exists 1%nat. split; reflexivity.
    + exists 0%nat. split; [|reflexivity]. cbn. now rewrite List.app_nil_r.
    + exists 0%nat. rewrite List.app_nil_r.
      unfold prompt. run. destruct (defaultModel st); split; reflexivity.
    + exists 0%nat. split; [|reflexivity]. cbn. now rewrite List.app_nil_r.
    + exists 0%nat. rewrite List.app_nil_r. unfold prompt. run.
      rewrite !List.filter_app, KT.
      destruct (valueOf (checkKey w st)); run;
        rewrite ?reportAnswer_state, ?List.filter_app, ?reportAnswer_records_nothing;
        run; split; solve [exact KS | reflexivity].
    + exists 0%nat. rewrite List.app_nil_r. unfold prompt. run.
      rewrite !List.filter_app, KT.
      destruct (valueOf (checkKey w st)); run;
        [|split; solve [exact KS | reflexivity]].
      destruct (List.length args =? 0)%nat; run;
        rewrite ?reportAnswer_state, ?List.filter_app, ?reportAnswer_records_nothing;
        run; split; solve [exact KS | reflexivity].
    + exists 0%nat. split; [|reflexivity]. cbn. now rewrite List.app_nil_r.
  - rewrite (runShellCommand_generic chalkRed chalkGreen w command st N).
    exists 0%nat. rewrite List.app_nil_r.
    unfold runTheCommand. destruct (splitSpace command) as [cmd args].
    destruct (spawnThrows w);
      unfold bind, alloc, mutate, push, saveOutputToFile, prompt, get, modify,
        emit, ret; split; reflexivity.
Qed.

Lemma deliverAll_records (w : World) (command : string) (r : nat)
  (evs : list ChildEvent) :
  forall st : Shell,
    let res := deliverAll stripAnsi chalkRed w command r evs st in
    exists n : nat,
      currentSessionCommands (stateOf res)
      = (currentSessionCommands st ++ List.repeat command n)%list
      /\ List.filter isSaveToHistory (traceOf res)
         = List.repeat (SaveToHistory command) n.
Proof.
  induction evs as [|ev evs IH]; intros st; cbn [deliverAll]; cbv zeta.
  - exists 0%nat. run. split; [now rewrite List.app_nil_r | reflexivity].
  - rewrite stateOf_bind, traceOf_bind, List.filter_app.
    set (s1 := stateOf (deliver stripAnsi chalkRed w command r ev st)).
    destruct (IH s1) as (n & S & T). rewrite S, T.
    assert (D : exists k : nat,
               currentSessionCommands s1
               = (currentSessionCommands st ++ List.repeat command k)%list
               /\ List.filter isSaveToHistory
                    (traceOf (deliver stripAnsi chalkRed w command r ev st))
                  = List.repeat (SaveToHistory command) k).
    { subst s1. destruct ev as [data | err | code]; cbn [deliver].
      - exists 0%nat. unfold onStderrData, mutate. run.
        split; [now rewrite List.app_nil_r | reflexivity].
      - exists 0%nat.
        unfold onError, saveOutputToFile, push, prompt, mutate. run.
        split; [now rewrite List.app_nil_r | reflexivity].
      - exists 1%nat.
        unfold onClose, saveToHistory, saveOutputToFile, push, prompt, mutate. run.
        destruct (notZero code); run; split; reflexivity. }
    destruct D as (k & S1 & T1). exists (k + n)%nat.
    rewrite S1, T1, !repeat_add, List.app_assoc. split; reflexivity.
Qed.

(** X28.  The session pool and the history file are fed together: for
    every command line, whatever its child does, the commands added to the
    session pool are the commands handed to [saveToHistory], in number and
    in text, and they are copies of the raw line. *)
Theorem session_pool_and_history_get_the_same_commands
  (w : World) (command : string) (evs : list ChildEvent) (st : Shell) :
  let r := execute stripAnsi chalkRed chalkGreen w command evs st in
  exists n : nat,
    currentSessionCommands (stateOf r)
    = (currentSessionCommands st ++ List.repeat command n)%list
    /\ List.filter isSaveToHistory (traceOf r)
       = List.repeat (SaveToHistory command) n.
Proof.
  cbv zeta. unfold execute. rewrite stateOf_bind, traceOf_bind, List.filter_app.
  destruct (runShellCommand_records w command st) as (k & S1 & T1).
  destruct (valueOf (runShellCommand chalkRed chalkGreen w command st)) as [child|].
  - destruct (deliverAll_records w command child evs
                (stateOf (runShellCommand chalkRed chalkGreen w command st)))
      as (n & S & T).
    exists (k + n)%nat.
    rewrite S, T, S1, T1, !repeat_add, List.app_assoc. split; reflexivity.
  - exists k. run. rewrite S1, T1, List.app_nil_r. split; reflexivity.
Qed.

Lemma deliverAll_engineEvents (w : World) (command : string) (r : nat)
  (evs : list ChildEvent) :
  forall st : Shell,
    List.forallb engineEvent
      (traceOf (deliverAll stripAnsi chalkRed w command r evs st)) = true.
Proof.
  induction evs as [|ev evs IH]; intros st; cbn [deliverAll].
  - reflexivity.
  - rewrite traceOf_bind, List.forallb_app, IH, andb_true_r.
    destruct ev as [data | err | code]; cbn [deliver].
    + reflexivity.
    + reflexivity.
    + unfold onClose, saveToHistory, saveOutputToFile, push, prompt, mutate. run.
      destruct (notZero code); reflexivity.
Qed.

Lemma engineEvent_no_clipboard (t : list Event) :
  List.forallb engineEvent t = true -> List.filter isClipboardWrite t = [].
Proof.
  induction t as [|e t IH]; [reflexivity|].
  cbn [List.forallb List.filter]. intros H. apply andb_prop in H as [He Ht].
  destruct e; try discriminate He; cbn [isClipboardWrite]; now apply IH.
Qed.

(** X29.  Nothing but an answer of the assistant reaches the clipboard: a
    line whose first word is neither [hm] nor [hp] never writes to it,
    whatever the line is and whatever its child does. *)
Theorem only_hm_and_hp_write_the_clipboard
  (w : World) (command : string) (evs : list ChildEvent) (st : Shell) :
  fst (splitSpace command) <> "hm" ->
  fst (splitSpace command) <> "hp" ->
  List.filter isClipboardWrite
    (traceOf (execute stripAnsi chalkRed chalkGreen w command evs st)) = [].
Proof.
  intros Nm Np.
  destruct (List.in_dec string_dec (fst (splitSpace command)) builtins) as [B | N].
  - unfold execute, runShellCommand. destruct (splitSpace command) as [cmd args].
    cbn [fst] in *. unfold builtins in B. simpl in B.
    destruct B as [<-|[<-|[<-|[<-|[<-|[<-|[<-|[<-|[<-|[]]]]]]]]]];
      try congruence; cbn [Ascii.eqb Bool.eqb String.eqb];
      try reflexivity.
    + unfold prompt. run. destruct (defaultModel st); reflexivity.
  - rewrite (execute_generic stripAnsi chalkRed chalkGreen w command evs st N).
    apply engineEvent_no_clipboard. unfold launch. rewrite traceOf_bind.
    rewrite List.forallb_app. apply andb_true_intro. split.
    + unfold runTheCommand. destruct (splitSpace command) as [cmd args].
      destruct (spawnThrows w);
        unfold bind, alloc, mutate, push, saveOutputToFile, prompt, get, modify,
          emit, ret; reflexivity.
    + destruct (valueOf (runTheCommand chalkRed w command st));
        [apply deliverAll_engineEvents | reflexivity].
Qed.

Lemma launch_session (w : World) (command : string) (chunks : list string)
  (code : option Z) (st : Shell) :
  spawnThrows w = None ->
  currentSessionCommands
    (stateOf (launch stripAnsi chalkRed w command
                (List.map StderrData chunks ++ [CloseEvent code]) st))
  = (currentSessionCommands st ++ [command])%list.
Proof.
  intros Hs.
  rewrite (launch_run stripAnsi chalkRed w command chunks (CloseEvent code) st Hs).
  cbv zeta. cbn [deliver].
  rewrite (onClose_run w command code _ (entries st)
             (withStderr stripAnsi chunks (logInit w command))) by reflexivity.
  cbv zeta. destruct (notZero code); reflexivity.
Qed.

Lemma nextTick_suggestion (w : World) (st : Shell) :
  currentSuggestion (stateOf (nextTick stripAnsi w st))
  = currentSuggestion (stateOf (updateSuggestion stripAnsi w (line st) st))
  /\ suggestionAccepted (stateOf (nextTick stripAnsi w st)) = false.
Proof. unfold nextTick. run. split; reflexivity. Qed.

(** X30.  The shell learns from what it ran: once the child of a command
    has closed, typing any beginning of that command (in any letter case,
    not blank, with the cursor at its end) makes the next tick suggest the
    command itself, before anything the history file or the static list
    holds; the tick also clears the mark of an accepted suggestion. *)
Theorem executed_command_is_suggested_next
  (w w' : World) (command : string) (chunks : list string) (code : option Z)
  (typed : string) (st : Shell) :
  spawnThrows w = None ->
  blank typed = false ->
  startsWith (toLowerCase command) (toLowerCase typed) = true ->
  let closed := stateOf (launch stripAnsi chalkRed w command
                           (List.map StderrData chunks ++ [CloseEvent code]) st) in
  let typing := set_cursor (String.length typed) (set_line typed closed) in
  currentSuggestion (stateOf (nextTick stripAnsi w' typing)) = command
  /\ suggestionAccepted (stateOf (nextTick stripAnsi w' typing)) = false.
Proof.
  intros Hs B Hm closed typing.
  destruct (nextTick_suggestion w' typing) as [N A]. split; [|exact A].
  rewrite N. change (line typing) with typed.
  rewrite (updateSuggestion_not_blank stripAnsi w' typed typing B).
  assert (C : cursor typing = String.length typed) by reflexivity.
  assert (S : currentSessionCommands typing
              = (currentSessionCommands st ++ [command])%list).
  { subst typing closed. cbn [currentSessionCommands set_cursor set_line].
    exact (launch_session w command chunks code st Hs). }
  rewrite C. unfold slice. rewrite Nat.sub_0_r, substring_all.
  unfold poolsOf. cbn [firstNonEmptyMatch]. unfold findLast at 1.
  rewrite S, List.rev_app_distr. cbn [List.rev List.app List.find].
  unfold matchesPrefix at 1. rewrite Hm.
  assert (T : truthy command = true).
  { apply (matchesPrefix_nonempty typed command); [|exact Hm].
    intros ->. discriminate B. }
  now rewrite T.
Qed.

End RecordingProperties.

(** ** Concrete runs *)



Lemma close_with_null_code_is_persisted_witness :
  let run := launch plainText plainText calmWorld "sleep 100"
               [CloseEvent None] freshShell in
  logEntries (stateOf run) = [Log.setExitCode 0 (logInit calmWorld "sleep 100")].
Proof.
  apply (close_with_null_code_is_persisted plainText plainText plainText calmWorld
           "sleep 100" [] freshShell eq_refl eq_refl).
Defined.

Lemma error_event_is_logged_then_prompts_witness :
  let err := mkError "Error: spawn doesnotexist123 ENOENT" "spawn doesnotexist123 ENOENT" in
  let run := launch plainText plainText calmWorld "doesnotexist123"
               [ErrorEvent err] freshShell in
  let e := Log.setExitCode 1
             (Log.setError "spawn doesnotexist123 ENOENT"
                (logInit calmWorld "doesnotexist123")) in
  plainText (errMessage err) <> ""
  /\ logEntries (stateOf run) = [e]
  /\ traceOf run
     = [ Spawn "doesnotexist123" [] "/home/user";
         ConsoleError "spawn doesnotexist123 ENOENT";
         SaveOutputToFile [e];
         Prompt "naash> " ].
Proof.
  assert (N : plainText (errMessage (mkError "Error: spawn doesnotexist123 ENOENT" "spawn doesnotexist123 ENOENT")) <> "")
    by discriminate.
  destruct (error_event_is_logged_then_prompts plainText plainText calmWorld
              "doesnotexist123" [] (mkError "Error: spawn doesnotexist123 ENOENT" "spawn doesnotexist123 ENOENT")
              freshShell eq_refl eq_refl N) as (_ & _ & L & _ & T).
  split; [exact N | split; [exact L | exact T]].
Defined.

Lemma hp_without_message_prompts_twice_witness :
  valueOf (checkKey calmWorld keyedShell) = true
  /\ runShellCommand plainText plainText calmWorld "hp" keyedShell
     = (None, keyedShell,
        [ ConsoleLog "Hey you did not enter a message.";
          Prompt "naash> ";
          SpinnerStart "Processing data...";
          SpinnerStop;
          ConsoleLog "undefined";
          Prompt "naash> " ]).
Proof.
  split; [reflexivity|].
  apply (hp_without_message_prompts_twice plainText plainText calmWorld keyedShell).
  reflexivity.
Defined.

(** C5 fails on the [he] branch.  With collaborators that return the
    sentinel, [hm] and [hp] print the fixed message, and [he] prints the
    sentinel itself: the branch at index.ts 345-359 does not test the
    answer. *)
Lemma he_prints_the_sentinel_unchecked :
  let shown (answer : string) :=
    [ SpinnerStart "Processing data..."; SpinnerStop; ConsoleLog answer;
      Prompt "naash> " ] in
  betterMan failingWorld "ls" = sentinel
  /\ traceOf (runShellCommand plainText plainText failingWorld "hm" keyedShell)
     = shown (unableToProcess failingWorld)
  /\ traceOf (runShellCommand plainText plainText failingWorld "hp list files" keyedShell)
     = shown (unableToProcess failingWorld)
  /\ traceOf (runShellCommand plainText plainText failingWorld "he ls" keyedShell)
     = shown sentinel
  /\ List.filter isClipboardWrite
       (traceOf (runShellCommand plainText plainText failingWorld "he ls" keyedShell))
     = [].
Proof. repeat split. Qed.

Lemma history_records_cd_cat_and_closed_children_witness :
  historyFile (stateOf (execute plainText plainText plainText calmWorld
                          "cd /tmp" [] freshShell)) = ["cd /tmp"]
  /\ historyFile (stateOf (execute plainText plainText plainText calmWorld
                             "make test" [StderrData "warning"; CloseEvent (Some 2%Z)]
                             freshShell)) = ["make test"]
  /\ historyFile (stateOf (execute plainText plainText plainText calmWorld
                             "nope"
                             [ ErrorEvent (mkError "Error: spawn nope ENOENT"
                                                   "spawn nope ENOENT");
                               CloseEvent (Some (-2)%Z) ]
                             freshShell)) = ["nope"].
Proof.
  destruct (history_records_cd_cat_and_closed_children plainText plainText plainText
              calmWorld "cd /tmp" freshShell) as (H & _).
  destruct (history_records_cd_cat_and_closed_children plainText plainText plainText
              calmWorld "make test" freshShell) as (_ & _ & G & _).
  destruct (history_records_cd_cat_and_closed_children plainText plainText plainText
              calmWorld "nope" freshShell) as (_ & _ & _ & F).
  assert (N : ~ List.In (fst (splitSpace "make test")) builtins)
    by (simpl; intuition discriminate).
  assert (N' : ~ List.In (fst (splitSpace "nope")) builtins)
    by (simpl; intuition discriminate).
  split; [|split].
  - apply H. left; reflexivity.
  - exact (G N eq_refl [StderrData "warning"; CloseEvent (Some 2%Z)]).
  - exact (F N' eq_refl
             [ErrorEvent (mkError "Error: spawn nope ENOENT" "spawn nope ENOENT")]
             (Some (-2)%Z) eq_refl).
Defined.

(** C6, as stated, fails on the builtins it lists: [history], [exit],
    the model switch and the AI-assist commands are dispatched and leave
    the history file untouched, and so does [copy]. *)
Lemma history_builtin_is_not_recorded :
  let run command := execute plainText plainText plainText calmWorld command []
                             freshShell in
  (historyFile (stateOf (run "history")) = []
   /\ traceOf (run "history") = [ShowHistory; Prompt "naash> "])
  /\ (historyFile (stateOf (run "exit")) = [] /\ traceOf (run "exit") = [RlClose])
  /\ historyFile (stateOf (run "switchAI")) = []
  /\ historyFile (stateOf (run "hm")) = []
  /\ historyFile (stateOf (run "hp list files")) = []
  /\ historyFile (stateOf (run "he ls")) = []
  /\ historyFile (stateOf (run "copy")) = [].
Proof. repeat split. Qed.

Lemma log_file_reloads_what_was_persisted_witness :
  let jobs := [ mkJob calmWorld "false" ["boom"] 1%Z;
                mkJob calmWorld "ls /nope" [] 2%Z ] in
  loadCommandErrors plainText
    (errorFile (stateOf (runJobs plainText plainText jobs freshShell)))
  = (JArr (List.map Log.toValue (List.map (jobEntry plainText) jobs)), []).
Proof.
  intros jobs.
  destruct (log_file_reloads_what_was_persisted plainText plainText plainText
              jobs freshShell [] "" "") as (H & _).
  assert (F : List.Forall failing jobs)
    by (repeat constructor; discriminate).
  assert (N : jobs <> []) by discriminate.
  destruct (H F N eq_refl) as (_ & R). exact R.
Defined.

(** C8, as stated, fails for a missing log file: loading it yields the
    empty log, and nothing is written to the console. *)
Lemma missing_log_file_logs_nothing :
  loadCommandErrors plainText Absent = (JArr [], [])
  /\ List.existsb isConsoleError (snd (loadCommandErrors plainText Absent)) = false.
Proof. split; reflexivity. Qed.

(** ** Concrete runs of the further properties *)

Lemma latest_session_match_wins_witness :
  currentSuggestion
    (stateOf (updateSuggestion plainText calmWorld "ma"
                (set_currentSessionCommands ["make test"; "make build"]
                   (set_cursor 2 (set_line "ma" freshShell)))))
  = "make build".
Proof.
  apply (latest_session_match_wins plainText calmWorld "ma"
           (set_currentSessionCommands ["make test"; "make build"]
              (set_cursor 2 (set_line "ma" freshShell)))
           ["make test"] "make build"); reflexivity.
Defined.

Lemma tab_accepts_the_suggestion_witness :
  let r := keypress plainText calmWorld (Some "tab") typingShell in
  line (stateOf r) = "git push origin"
  /\ cursor (stateOf r) = 15%nat
  /\ currentSuggestion (stateOf r) = ""
  /\ suggestionAccepted (stateOf r) = true
  /\ valueOf r = false
  /\ traceOf r = [OriginalRefreshLine].
Proof.
  exact (tab_accepts_the_suggestion plainText calmWorld typingShell eq_refl).
Defined.

Lemma navigation_after_accept_clears_witness :
  let accepted := stateOf (keypress plainText calmWorld (Some "tab") typingShell) in
  let r := keypress plainText calmWorld (Some "left") accepted in
  suggestionAccepted accepted = true
  /\ suggestionAccepted (stateOf r) = false
  /\ line (stateOf r) = "git push origin"
  /\ traceOf r = [OriginalRefreshLine].
Proof.
  intros accepted r.
  destruct (navigation_after_accept_clears plainText calmWorld accepted "left"
              (or_introl eq_refl)) as (_ & H & _).
  destruct (H eq_refl) as (_ & A & L & _ & T).
  split; [reflexivity|]. split; [exact A|]. split; [exact L | exact T].
Defined.


Lemma spawn_exception_is_logged_then_prompts_witness :
  let r := runTheCommand plainText throwingWorld "" freshShell in
  let e := Log.setExitCode 1
             (Log.setError "The argument 'file' cannot be empty. Received ''"
                (logInit throwingWorld "")) in
  valueOf r = None
  /\ logEntries (stateOf r) = [e]
  /\ traceOf r
     = [ ConsoleError
           ("Error executing command: "
            ++ "TypeError [ERR_INVALID_ARG_VALUE]: "
            ++ "The argument 'file' cannot be empty. Received ''");
         SaveOutputToFile [e];
         Prompt "naash> " ].
Proof.
  exact (spawn_exception_is_logged_then_prompts plainText throwingWorld ""
           emptyFileError freshShell eq_refl eq_refl).
Defined.

Lemma launch_prompts_exactly_once_witness :
  List.length
    (List.filter isPrompt
       (traceOf (launch plainText plainText calmWorld "make"
                   [StderrData "warning"; CloseEvent (Some 0%Z)] freshShell)))
  = 1%nat.
Proof.
  apply (launch_prompts_exactly_once plainText plainText calmWorld "make"
           ["warning"] (CloseEvent (Some 0%Z)) freshShell).
  intros data H. discriminate H.
Defined.

Lemma matching_static_command_gives_a_suggestion_witness :
  truthy
    (currentSuggestion
       (stateOf (updateSuggestion plainText calmWorld "DO"
                   (set_cursor 2 (set_line "DO" freshShell)))))
  = true.
Proof.
  apply (matching_static_command_gives_a_suggestion plainText calmWorld "DO"
           (set_cursor 2 (set_line "DO" freshShell)) "docker ps");
    [reflexivity | simpl; auto 20 | reflexivity].
Defined.

Lemma overlay_line_reads_as_the_suggestion_witness :
  exists typed ghost : string,
    traceOf (_refreshLine plainText calmWorld typingShell)
    = [ StdoutWrite clearLine;
        StdoutWrite "naash> ";
        StdoutWrite typed;
        StdoutWrite (DIM ++ ghost ++ RESET);
        CursorTo (7 + String.length typed) ]
    /\ typed ++ ghost = "git push origin".
Proof.
  exact (overlay_line_reads_as_the_suggestion plainText calmWorld typingShell
           eq_refl eq_refl (le_n 2)).
Defined.

Lemma keypress_schedules_without_side_effect_witness :
  keypress plainText calmWorld (Some "return") typingShell = (false, typingShell, [])
  /\ keypress plainText calmWorld (Some "tab") freshShell = (true, freshShell, []).
Proof.
  destruct (keypress_schedules_without_side_effect plainText calmWorld
              (Some "return") typingShell) as (_ & R & _).
  destruct (keypress_schedules_without_side_effect plainText calmWorld
              (Some "tab") freshShell) as (_ & _ & T & _).
  split; [exact (R eq_refl) | exact (T eq_refl eq_refl)].
Defined.

Lemma history_load_gives_back_the_lines_witness :
  let text := String.concat (String LF "") ["ls -la"; "git status"] in
  loadHistory (Content text) = (["ls -la"; "git status"], [])
  /\ loadHistory (Content (text ++ String LF "")) = (["ls -la"; "git status"], []).
Proof.
  intros text.
  destruct (history_load_gives_back_the_lines ["ls -la"; "git status"])
    as (A & B & _).
  - repeat constructor.
  - split; [exact A | exact B].
Defined.

Lemma loaded_history_has_no_empty_entry_witness :
  loadHistory Absent = ([], [])
  /\ snd (loadHistory (Content (String LF (String LF "ls")))) = [].
Proof.
  destruct (loaded_history_has_no_empty_entry Absent) as (_ & A & _).
  destruct (loaded_history_has_no_empty_entry (Content (String LF (String LF "ls"))))
    as (_ & _ & C).
  split; [exact (A eq_refl) | exact (C _ eq_refl)].
Defined.

Lemma centerText_fits_the_width_witness :
  (Z.of_nat (String.length (centerText "NAASH" 80)) <= 80)%Z
  /\ centerText "a text wider than the width" 10 = "a text wider than the width".
Proof.
  destruct (centerText_fits_the_width "NAASH" 80) as (_ & F & _).
  destruct (centerText_fits_the_width "a text wider than the width" 10) as (_ & _ & U).
  split.
  - apply F. vm_compute. discriminate.
  - apply U. vm_compute. discriminate.
Defined.

Lemma checkKey_true_means_a_key_file_exists_witness :
  (valueOf (checkKey shyWorld freshShell) = false
   /\ stateOf (checkKey shyWorld freshShell) = freshShell)
  /\ checkKey shyWorld (set_keyFile (Content "") freshShell)
     = (true, set_keyFile (Content "") freshShell, [])
  /\ existsSync (keyFile (stateOf (checkKey calmWorld freshShell))) = true.
Proof.
  destruct (checkKey_true_means_a_key_file_exists shyWorld freshShell)
    as (_ & _ & B & _).
  destruct (checkKey_true_means_a_key_file_exists shyWorld
              (set_keyFile (Content "") freshShell)) as (_ & _ & _ & E).
  destruct (checkKey_true_means_a_key_file_exists calmWorld freshShell)
    as (T & _).
  split; [exact (B eq_refl eq_refl)|].
  split; [apply E; discriminate | exact (T eq_refl)].
Defined.

Lemma checkKey_asks_only_until_a_key_is_stored_witness :
  valueOf (checkKey calmWorld freshShell) = true
  /\ checkKey shyWorld (stateOf (checkKey calmWorld freshShell))
     = (true, stateOf (checkKey calmWorld freshShell), []).
Proof.
  split; [reflexivity|].
  exact (checkKey_asks_only_until_a_key_is_stored calmWorld freshShell eq_refl shyWorld).
Defined.

Lemma checkKey_stores_the_trimmed_answer_witness :
  exists text : string,
    keyFile (stateOf (checkKey calmWorld freshShell)) = Content text
    /\ parse text = Some (JObj [("gemini_apiKey", JStr "secret")])
    /\ "secret" <> "".
Proof.
  destruct (checkKey_stores_the_trimmed_answer calmWorld freshShell
              eq_refl eq_refl eq_refl) as [_ H].
  exact H.
Defined.



Lemma switchAI_toggles_the_provider_witness :
  let r := runShellCommand plainText plainText calmWorld "switchAI" freshShell in
  defaultModel (stateOf r) = openAi
  /\ stateOf (runShellCommand plainText plainText calmWorld "switchAI" (stateOf r))
     = freshShell.
Proof.
  intros r.
  destruct (switchAI_toggles_the_provider plainText plainText calmWorld "switchAI"
              freshShell eq_refl) as (_ & _ & B & _).
  split; [reflexivity | exact B].
Defined.

Lemma builtins_without_a_provider_end_with_one_prompt_witness :
  runShellCommand plainText plainText calmWorld "exit now" keyedShell
  = (None, keyedShell, [RlClose])
  /\ exists t : list Event,
       traceOf (runShellCommand plainText plainText calmWorld "cd /tmp" keyedShell)
       = (t ++ [Prompt "naash> "])%list
       /\ List.filter isPrompt t = [].
Proof.
  destruct (builtins_without_a_provider_end_with_one_prompt plainText plainText
              calmWorld "exit now" keyedShell) as (_ & E & _); [simpl; auto 12|].
  destruct (builtins_without_a_provider_end_with_one_prompt plainText plainText
              calmWorld "cd /tmp" keyedShell) as (_ & _ & P); [simpl; auto 12|].
  split; [exact (E eq_refl) | apply P; simpl; auto].
Defined.

Lemma line_without_first_word_is_launched_witness :
  runShellCommand plainText plainText calmWorld " exit" freshShell
  = runTheCommand plainText calmWorld " exit" freshShell
  /\ Log.executable (Log.command (logInit calmWorld " exit")) = "".
Proof.
  destruct (line_without_first_word_is_launched plainText plainText calmWorld
              " exit" freshShell (or_intror eq_refl)) as (_ & A & B & _).
  split; [exact A | exact B].
Defined.

Lemma logInit_rebuilds_the_command_witness :
  let c := Log.command (logInit calmWorld "git  commit -m fix") in
  Log.executable c = "git"
  /\ Log.arguments c = [""; "commit"; "-m"; "fix"]
  /\ joinSpace (Log.executable c :: Log.arguments c) = "git  commit -m fix"
  /\ traceOf (runTheCommand plainText calmWorld "git  commit -m fix" freshShell)
     = [Spawn "git" [""; "commit"; "-m"; "fix"] "/home/user"].
Proof.
  intros c.
  destruct (logInit_rebuilds_the_command plainText calmWorld "git  commit -m fix"
              freshShell) as (J & _ & _ & _ & _ & S).
  split; [reflexivity|]. split; [reflexivity|].
  split; [exact J | exact (S eq_refl)].
Defined.

Lemma stderr_is_echoed_raw_and_logged_stripped_witness :
  let run := launch plainText plainText calmWorld "make"
               [StderrData "warning: "; StderrData "unused"; CloseEvent (Some 2%Z)]
               freshShell in
  exists e : Log.t,
    List.nth_error (entries (stateOf run)) 0 = Some e
    /\ Log.stderr (Log.output e) = "warning: unused"
    /\ Log.exitCode (Log.output e) = 2%Z.
Proof.
  intros run.
  destruct (stderr_is_echoed_raw_and_logged_stripped plainText plainText calmWorld
              "make" ["warning: "; "unused"] (Some 2%Z) freshShell eq_refl)
    as [H _].
  exact H.
Defined.

Lemma close_after_error_rewrites_the_logged_entry_witness :
  let err := mkError "Error: spawn nope ENOENT" "spawn nope ENOENT" in
  let e := Log.setExitCode (-2)
             (Log.setError "spawn nope ENOENT" (logInit calmWorld "nope")) in
  logEntries
    (stateOf (launch plainText plainText calmWorld "nope"
                [ErrorEvent err; CloseEvent (Some (-2)%Z)] freshShell))
  = [e; e].
Proof.
  intros err e.
  destruct (close_after_error_rewrites_the_logged_entry plainText plainText calmWorld
              "nope" [] err (Some (-2)%Z) freshShell eq_refl eq_refl)
    as (_ & H & _).
  exact H.
Defined.

Lemma child_events_change_only_the_output_of_their_entry_witness :
  let st := set_entries [logInit calmWorld "first"; logInit calmWorld "second"]
              freshShell in
  let st' := stateOf (deliverAll plainText plainText calmWorld "second" 1
                        [StderrData "oops"; CloseEvent None] st) in
  List.nth_error (entries st') 0 = Some (logInit calmWorld "first")
  /\ exists e' : Log.t,
       List.nth_error (entries st') 1 = Some e'
       /\ sameIdentity (logInit calmWorld "second") e'.
Proof.
  intros st st'.
  destruct (child_events_change_only_the_output_of_their_entry plainText plainText
              calmWorld "second" 1 [StderrData "oops"; CloseEvent None] st)
    as (_ & O & S).
  split; [exact (O 0%nat (Nat.neq_0_succ 0)) | exact (S _ eq_refl)].
Defined.

Lemma command_log_only_grows_witness :
  let st' := stateOf (session plainText plainText plainText
                        [ (calmWorld, "false", [CloseEvent (Some 1%Z)]);
                          (calmWorld, "cd /tmp", []);
                          (throwingWorld, "", []) ]
                        freshShell) in
  wellFormed st' = true
  /\ (List.length (logEntries st') = List.length (commandLog st'))%nat.
Proof.
  intros st'.
  destruct (command_log_only_grows plainText plainText plainText
              [ (calmWorld, "false", [CloseEvent (Some 1%Z)]);
                (calmWorld, "cd /tmp", []);
                (throwingWorld, "", []) ]
              freshShell eq_refl) as (W & _ & _ & L).
  split; [exact W | exact L].
Defined.

Lemma only_hm_and_hp_write_the_clipboard_witness :
  List.filter isClipboardWrite
    (traceOf (execute plainText plainText plainText calmWorld "he ls" [] keyedShell))
  = [].
Proof.
  apply (only_hm_and_hp_write_the_clipboard plainText plainText plainText calmWorld
           "he ls" [] keyedShell); discriminate.
Defined.

Lemma executed_command_is_suggested_next_witness :
  let closed := stateOf (launch plainText plainText calmWorld "git push origin main"
                           [CloseEvent (Some 0%Z)] freshShell) in
  currentSuggestion
    (stateOf (nextTick plainText calmWorld (set_cursor 5 (set_line "GIT P" closed))))
  = "git push origin main".
Proof.
  intros closed.
  destruct (executed_command_is_suggested_next plainText plainText calmWorld calmWorld
              "git push origin main" [] (Some 0%Z) "GIT P" freshShell
              eq_refl eq_refl eq_refl) as [H _].
  exact H.
Defined.
